(** * opti-astro: signed requests to Optimizely Graph and the locale helpers

  A shallow embedding of

  - [src/lib/locale-helpers.ts]   ([localeToSdkLocale], [normalizeLocale],
    [fetchContentByPath]),
  - [utils/optimizely-hmac.ts]    ([createHmacAuthHeader],
    [makeOptimizelyGraphRequest], [uploadSynonyms],
    [getOptimizelyGraphConfig]),
  - [utils/optimizely-graph-utils.ts] ([isValidGuid], [sanitizeInput],
    [validateLanguageCode], [clampNumber], [parseCsvPhrases],
    [createSuccessResponse], [createErrorResponse], [handleApiError],
    [makeGraphQLRequest], [transformContentItem], [searchContent],
    [makeHmacApiRequest]),
  - [src/pages/opti-admin/auth-opti-admin.ts] ([isAdminConfigured],
    [parseBasicAuth], [checkAdminAuth], [requireAdminAuth]),
  - [src/pages/opti-admin/api/pinned-collections.json.ts] ([GET],
    [DELETE]) and [src/pages/opti-admin/api/pinned-items.json.ts] ([GET]),

  together with the parts of the JavaScript runtime these functions call.

  Conventions of the embedding.  A JavaScript string is a [string] of 8-bit
  code units: its UTF-8 encoding, which is what the signer hashes.  The case
  mappings are those of JavaScript on ASCII, the alphabet of locale tags.
  An [async] function is a computation in the monad [IO]; awaiting is
  sequencing and a rejected promise is a thrown exception. *)

From Stdlib Require Import String Ascii List ZArith NArith Bool Lia.
From Stdlib Require Import Numbers.DecimalString Numbers.DecimalPos.
Import ListNotations.

Local Open Scope string_scope.
Local Open Scope list_scope.

(* ================================================================== *)
(** ** JavaScript strings *)

Module JsString.

(** [String.prototype.toLowerCase] / [toUpperCase] on a string of ASCII
    characters, where JavaScript maps each character by itself.  A
    character outside ASCII is left as it is: JavaScript also maps the
    letters outside ASCII, and some of them to several characters, so a
    statement that depends on the case of such letters, or on the length
    of the result, is made for ASCII strings only. *)
Definition lower_char (c : ascii) : ascii :=
  let n := N_of_ascii c in
  if ((65 <=? n) && (n <=? 90))%N then ascii_of_N (n + 32) else c.

Definition upper_char (c : ascii) : ascii :=
  let n := N_of_ascii c in
  if ((97 <=? n) && (n <=? 122))%N then ascii_of_N (n - 32) else c.

Fixpoint map (f : ascii -> ascii) (s : string) : string :=
  match s with
  | EmptyString => EmptyString
  | String c s' => String (f c) (map f s')
  end.

Definition toLowerCase (s : string) : string := map lower_char s.
Definition toUpperCase (s : string) : string := map upper_char s.

(** [s.replace(/c/g, d)] for a one-character pattern [c] and a
    one-character replacement [d]. *)
Definition replaceAll (c d : ascii) (s : string) : string :=
  map (fun x => if Ascii.eqb x c then d else x) s.

(** [s.split(sep)] for a one-character separator: the first segment and
    the segments after it.  The result is never empty: [''.split('_')]
    is [['']]. *)
Fixpoint split_ne (sep : ascii) (s : string) : string * list string :=
  match s with
  | EmptyString => (EmptyString, [])
  | String c s' =>
      let (h, t) := split_ne sep s' in
      if Ascii.eqb c sep then (EmptyString, h :: t) else (String c h, t)
  end.

Definition split (sep : ascii) (s : string) : list string :=
  let (h, t) := split_ne sep s in h :: t.

End JsString.

(* ================================================================== *)
(** ** src/lib/locale-helpers.ts *)

Module Locale.
Import JsString.

(** [localeToSdkLocale]: URL form ('fr-ca') to the Graph API form ('fr_CA'). *)
Definition localeToSdkLocale (locale : string) : string :=
  let result := replaceAll "-" "_" locale in
  let parts := split "_" result in
  match parts with
  | [p0; p1] => toLowerCase p0 ++ "_" ++ toUpperCase p1
  | [p0; p1; p2] => toLowerCase p0 ++ "_" ++ p1 ++ "_" ++ toUpperCase p2
  | _ => toLowerCase result
  end.

(** [normalizeLocale]: Graph API form ('nb_NO') to the URL form ('nb-NO'). *)
Definition normalizeLocale (locale : string) : string :=
  replaceAll "_" "-" locale.

(** Vocabulary of the statements: a separator is a dash or an underscore,
    a segment is a string without separators. *)
Definition is_sep (c : ascii) : bool := Ascii.eqb c "-" || Ascii.eqb c "_".

Fixpoint segment (s : string) : bool :=
  match s with
  | EmptyString => true
  | String c s' => negb (is_sep c) && segment s'
  end.

Fixpoint count_sep (s : string) : nat :=
  match s with
  | EmptyString => 0
  | String c s' => (if is_sep c then 1 else 0) + count_sep s'
  end.

(** What the specification calls the lowercased, underscored string. *)
Definition lower_underscored (s : string) : string :=
  map (fun c => lower_char (if Ascii.eqb c "-" then "_"%char else c)) s.

End Locale.

(* ================================================================== *)
(** ** Buffers and their encodings (Node's [Buffer]) *)

Module Buffer.

Definition buffer := list Byte.byte.

Definition byte_to_Z (b : Byte.byte) : Z := Z.of_N (Byte.to_N b).

Definition byte_of_Z (z : Z) : Byte.byte :=
  match Byte.of_N (Z.to_N (z mod 256)) with
  | Some b => b
  | None => Byte.x00
  end.

Definition to_Zs (b : buffer) : list Z := List.map byte_to_Z b.
Definition of_Zs (l : list Z) : buffer := List.map byte_of_Z l.

(** [Buffer.from(s, 'utf8')]: strings already are their UTF-8 bytes. *)
Definition from_utf8 (s : string) : buffer := list_byte_of_string s.

Definition char_of_Z (z : Z) : ascii := ascii_of_N (Z.to_N z).
Definition Z_of_char (c : ascii) : Z := Z.of_N (N_of_ascii c).

(** [buf.toString('hex')]: two lowercase hexadecimal digits per byte. *)
Definition hex_digit (z : Z) : ascii :=
  if (z <? 10)%Z then char_of_Z (48 + z) else char_of_Z (87 + z).

Fixpoint hex_of_Zs (l : list Z) : string :=
  match l with
  | [] => EmptyString
  | z :: l' => String (hex_digit (z / 16)) (String (hex_digit (z mod 16)) (hex_of_Zs l'))
  end.

Definition toString_hex (b : buffer) : string := hex_of_Zs (to_Zs b).

(** [buf.toString('base64')]: RFC 4648, with padding. *)
Definition b64_char (z : Z) : ascii :=
  if (z <? 26)%Z then char_of_Z (65 + z)
  else if (z <? 52)%Z then char_of_Z (97 + (z - 26))
  else if (z <? 62)%Z then char_of_Z (48 + (z - 52))
  else if (z =? 62)%Z then "+"%char
  else "/"%char.

Fixpoint b64_of_Zs (l : list Z) : string :=
  match l with
  | [] => EmptyString
  | [a] =>
      String (b64_char (a / 4))
        (String (b64_char ((a mod 4) * 16)) "==")
  | [a; b] =>
      String (b64_char (a / 4))
        (String (b64_char ((a mod 4) * 16 + b / 16))
           (String (b64_char ((b mod 16) * 4)) "="))
  | a :: b :: c :: l' =>
      String (b64_char (a / 4))
        (String (b64_char ((a mod 4) * 16 + b / 16))
           (String (b64_char ((b mod 16) * 4 + c / 64))
              (String (b64_char (c mod 64)) (b64_of_Zs l'))))
  end.

Definition toString_base64 (b : buffer) : string := b64_of_Zs (to_Zs b).

(** [Buffer.from(s, 'base64')].  Node decodes leniently and never throws:
    both the standard and the URL-safe alphabet are accepted, every other
    character is skipped, and decoding stops at the first ['=']. *)
Definition unbase64 (c : ascii) : option Z :=
  let n := Z_of_char c in
  if ((65 <=? n) && (n <=? 90))%Z then Some (n - 65)%Z
  else if ((97 <=? n) && (n <=? 122))%Z then Some (n - 71)%Z
  else if ((48 <=? n) && (n <=? 57))%Z then Some (n + 4)%Z
  else if ((n =? 43) || (n =? 45))%Z then Some 62%Z
  else if ((n =? 47) || (n =? 95))%Z then Some 63%Z
  else None.

Fixpoint sextets (s : string) : list Z :=
  match s with
  | EmptyString => []
  | String c s' =>
      if Ascii.eqb c "=" then []
      else match unbase64 c with
           | Some v => v :: sextets s'
           | None => sextets s'
           end
  end.

Fixpoint bytes_of_sextets (l : list Z) : list Z :=
  match l with
  | a :: b :: c :: d :: l' =>
      (a * 4 + b / 16) :: ((b mod 16) * 16 + c / 4) :: ((c mod 4) * 64 + d)
        :: bytes_of_sextets l'
  | [a; b; c] => [a * 4 + b / 16; (b mod 16) * 16 + c / 4]
  | [a; b] => [a * 4 + b / 16]
  | _ => []
  end%Z.

Definition from_base64 (s : string) : buffer :=
  of_Zs (bytes_of_sextets (sextets s)).

(** Strict RFC 4648 base64, the format the specification asks of a secret:
    groups of four characters of the standard alphabet, the last group
    padded with at most two ['=']. *)
Definition std_char (c : ascii) : bool :=
  match unbase64 c with
  | Some _ => negb (Ascii.eqb c "-" || Ascii.eqb c "_")
  | None => false
  end.

Fixpoint is_valid_base64 (s : string) : bool :=
  match s with
  | EmptyString => true
  | String a (String b (String c (String d EmptyString))) =>
      std_char a && std_char b
      && ((std_char c && (std_char d || Ascii.eqb d "="))
          || (Ascii.eqb c "=" && Ascii.eqb d "="))
  | String a (String b (String c (String d s'))) =>
      std_char a && std_char b && std_char c && std_char d
      && is_valid_base64 s'
  | _ => false
  end.

End Buffer.

(* ================================================================== *)
(** ** Digests (Node's [crypto]: MD5, SHA-256 and HMAC) *)

Module Crypto.
Import Buffer.
Local Open Scope Z_scope.

Definition w32 (x : Z) : Z := x mod 4294967296.
Definition rotl32 (x n : Z) : Z :=
  w32 (Z.lor (Z.shiftl x n) (Z.shiftr x (32 - n))).
Definition rotr32 (x n : Z) : Z :=
  w32 (Z.lor (Z.shiftr x n) (Z.shiftl x (32 - n))).
Definition not32 (x : Z) : Z := 4294967295 - x.

(** The bytes of [x], least significant first / most significant first. *)
Fixpoint le_bytes (n : nat) (x : Z) : list Z :=
  match n with
  | O => []
  | S n' => (x mod 256) :: le_bytes n' (x / 256)
  end.
Definition be_bytes (n : nat) (x : Z) : list Z := rev (le_bytes n x).

Fixpoint le_word (l : list Z) : Z :=
  match l with
  | [] => 0
  | b :: l' => b + 256 * le_word l'
  end.
Definition be_word (l : list Z) : Z := le_word (rev l).

(** Cut a list into consecutive chunks of [k] elements. *)
Fixpoint chunks (k n : nat) (l : list Z) : list (list Z) :=
  match n with
  | O => []
  | S n' => firstn k l :: chunks k n' (skipn k l)
  end.

(** Merkle-Damgard padding: 0x80, zeros up to 56 mod 64, then the bit
    length on eight bytes. *)
Definition pad (len_bytes : Z -> list Z) (msg : list Z) : list Z :=
  let n := Z.of_nat (List.length msg) in
  let zeros := Z.to_nat ((55 - n) mod 64) in
  msg ++ 128 :: repeat 0 zeros ++ len_bytes ((8 * n) mod 18446744073709551616).

Definition blocks (padded : list Z) : list (list Z) :=
  chunks 64 (Nat.div (List.length padded) 64) padded.

(** *** MD5 (RFC 1321) *)

Definition md5_K : list Z :=
  [ 3614090360; 3905402710; 606105819; 3250441966; 4118548399; 1200080426;
    2821735955; 4249261313; 1770035416; 2336552879; 4294925233; 2304563134;
    1804603682; 4254626195; 2792965006; 1236535329; 4129170786; 3225465664;
    643717713; 3921069994; 3593408605; 38016083; 3634488961; 3889429448;
    568446438; 3275163606; 4107603335; 1163531501; 2850285829; 4243563512;
    1735328473; 2368359562; 4294588738; 2272392833; 1839030562; 4259657740;
    2763975236; 1272893353; 4139469664; 3200236656; 681279174; 3936430074;
    3572445317; 76029189; 3654602809; 3873151461; 530742520; 3299628645;
    4096336452; 1126891415; 2878612391; 4237533241; 1700485571; 2399980690;
    4293915773; 2240044497; 1873313359; 4264355552; 2734768916; 1309151649;
    4149444226; 3174756917; 718787259; 3951481745 ].

Definition md5_S : list Z :=
  [ 7; 12; 17; 22; 7; 12; 17; 22; 7; 12; 17; 22; 7; 12; 17; 22;
    5; 9; 14; 20; 5; 9; 14; 20; 5; 9; 14; 20; 5; 9; 14; 20;
    4; 11; 16; 23; 4; 11; 16; 23; 4; 11; 16; 23; 4; 11; 16; 23;
    6; 10; 15; 21; 6; 10; 15; 21; 6; 10; 15; 21; 6; 10; 15; 21 ].

Definition md5_step (M : list Z) (st : Z * Z * Z * Z) (i : nat)
  : Z * Z * Z * Z :=
  let '(a, b, c, d) := st in
  let iz := Z.of_nat i in
  let '(f, g) :=
    if iz <? 16 then (Z.lor (Z.land b c) (Z.land (not32 b) d), iz)
    else if iz <? 32 then
      (Z.lor (Z.land d b) (Z.land (not32 d) c), (5 * iz + 1) mod 16)
    else if iz <? 48 then (Z.lxor b (Z.lxor c d), (3 * iz + 5) mod 16)
    else (Z.lxor c (Z.lor b (not32 d)), (7 * iz) mod 16) in
  let f' := w32 (f + a + nth i md5_K 0 + nth (Z.to_nat g) M 0) in
  (d, w32 (b + rotl32 f' (nth i md5_S 0)), b, c).

Definition md5_block (st : Z * Z * Z * Z) (blk : list Z) : Z * Z * Z * Z :=
  let M := List.map le_word (chunks 4 16 blk) in
  let '(a, b, c, d) := st in
  let '(a', b', c', d') := fold_left (md5_step M) (seq 0 64) st in
  (w32 (a + a'), w32 (b + b'), w32 (c + c'), w32 (d + d')).

Definition md5_Zs (msg : list Z) : list Z :=
  let '(a, b, c, d) :=
    fold_left md5_block (blocks (pad (le_bytes 8) msg))
      (1732584193, 4023233417, 2562383102, 271733878) in
  le_bytes 4 a ++ le_bytes 4 b ++ le_bytes 4 c ++ le_bytes 4 d.

(** *** SHA-256 (FIPS 180-4) *)

Definition sha256_K : list Z :=
  [ 1116352408; 1899447441; 3049323471; 3921009573; 961987163; 1508970993;
    2453635748; 2870763221; 3624381080; 310598401; 607225278; 1426881987;
    1925078388; 2162078206; 2614888103; 3248222580; 3835390401; 4022224774;
    264347078; 604807628; 770255983; 1249150122; 1555081692; 1996064986;
    2554220882; 2821834349; 2952996808; 3210313671; 3336571891; 3584528711;
    113926993; 338241895; 666307205; 773529912; 1294757372; 1396182291;
    1695183700; 1986661051; 2177026350; 2456956037; 2730485921; 2820302411;
    3259730800; 3345764771; 3516065817; 3600352804; 4094571909; 275423344;
    430227734; 506948616; 659060556; 883997877; 958139571; 1322822218;
    1537002063; 1747873779; 1955562222; 2024104815; 2227730452; 2361852424;
    2428436474; 2756734187; 3204031479; 3329325298 ].

Definition sha256_H0 : list Z :=
  [ 1779033703; 3144134277; 1013904242; 2773480762;
    1359893119; 2600822924; 528734635; 1541459225 ].

(** The message schedule, newest word first. *)
Definition sha256_extend (W : list Z) (_ : nat) : list Z :=
  let w2 := nth 1 W 0 in
  let w7 := nth 6 W 0 in
  let w15 := nth 14 W 0 in
  let w16 := nth 15 W 0 in
  let s0 := Z.lxor (rotr32 w15 7) (Z.lxor (rotr32 w15 18) (Z.shiftr w15 3)) in
  let s1 := Z.lxor (rotr32 w2 17) (Z.lxor (rotr32 w2 19) (Z.shiftr w2 10)) in
  w32 (w16 + s0 + w7 + s1) :: W.

Definition sha256_schedule (blk : list Z) : list Z :=
  rev (fold_left sha256_extend (seq 16 48)
         (rev (List.map be_word (chunks 4 16 blk)))).

Definition sha256_round (W : list Z) (st : list Z) (i : nat) : list Z :=
  match st with
  | [a; b; c; d; e; f; g; h] =>
      let S1 := Z.lxor (rotr32 e 6) (Z.lxor (rotr32 e 11) (rotr32 e 25)) in
      let ch := Z.lxor (Z.land e f) (Z.land (not32 e) g) in
      let t1 := w32 (h + S1 + ch + nth i sha256_K 0 + nth i W 0) in
      let S0 := Z.lxor (rotr32 a 2) (Z.lxor (rotr32 a 13) (rotr32 a 22)) in
      let maj := Z.lxor (Z.land a b) (Z.lxor (Z.land a c) (Z.land b c)) in
      let t2 := w32 (S0 + maj) in
      [w32 (t1 + t2); a; b; c; w32 (d + t1); e; f; g]
  | _ => st
  end.

Fixpoint add32 (x y : list Z) : list Z :=
  match x, y with
  | a :: x', b :: y' => w32 (a + b) :: add32 x' y'
  | _, _ => []
  end.

Definition sha256_block (st : list Z) (blk : list Z) : list Z :=
  add32 st (fold_left (sha256_round (sha256_schedule blk)) (seq 0 64) st).

Definition sha256_Zs (msg : list Z) : list Z :=
  flat_map (be_bytes 4)
    (fold_left sha256_block (blocks (pad (be_bytes 8) msg)) sha256_H0).

(** *** HMAC (RFC 2104) over SHA-256, block size 64 *)

Definition hmac_key (key : list Z) : list Z :=
  let k := if (64 <? Z.of_nat (List.length key)) then sha256_Zs key else key in
  k ++ repeat 0 (64 - List.length k).

Definition hmac_sha256_Zs (key msg : list Z) : list Z :=
  let k := hmac_key key in
  let ipad := List.map (Z.lxor 54) k in
  let opad := List.map (Z.lxor 92) k in
  sha256_Zs (opad ++ sha256_Zs (ipad ++ msg)).

Definition md5 (b : buffer) : buffer := of_Zs (md5_Zs (to_Zs b)).
Definition sha256 (b : buffer) : buffer := of_Zs (sha256_Zs (to_Zs b)).
Definition hmac_sha256 (key msg : buffer) : buffer :=
  of_Zs (hmac_sha256_Zs (to_Zs key) (to_Zs msg)).

(** [createHash('md5').update(s, 'utf8').digest('base64')] *)
Definition md5_base64 (s : string) : string :=
  toString_base64 (md5 (from_utf8 s)).

(** [createHmac('sha256', key).update(s, 'utf8').digest('base64')] *)
Definition hmac_sha256_base64 (key : buffer) (s : string) : string :=
  toString_base64 (hmac_sha256 key (from_utf8 s)).

End Crypto.

(* ================================================================== *)
(** ** JavaScript values, as [JSON.parse] produces them *)

Module Js.
Import JsString.
Local Open Scope string_scope.

(** Numbers are the integers that JavaScript holds exactly and prints
    digit by digit (the safe integers, below 2^53 in magnitude): this
    code only tests a number for truthiness, prints it, or passes it on.
    Fractions, and magnitudes that JavaScript prints with an exponent,
    are outside the model. *)
#[warnings="-register-all"]
Inductive value :=
  | VUndefined
  | VNull
  | VBool (b : bool)
  | VNumber (n : Z)
  | VString (s : string)
  | VArray (l : list value)
  | VObject (fields : list (string * value)).

(** What a [throw] carries: an instance of [Error] with its message, or
    any other value. *)
Inductive exn :=
  | JsError (message : string)
  | NonError (v : value).

Inductive result (A : Type) :=
  | Ok (a : A)
  | Throw (e : exn).
Arguments Ok {A} a.
Arguments Throw {A} e.

(** ToBoolean. *)
Definition truthy (v : value) : bool :=
  match v with
  | VUndefined | VNull => false
  | VBool b => b
  | VNumber n => negb (n =? 0)%Z
  | VString s => negb (String.eqb s "")
  | VArray _ | VObject _ => true
  end.

(** [a || b] *)
Definition or (a b : value) : value := if truthy a then a else b.

Definition nullish (v : value) : bool :=
  match v with
  | VUndefined | VNull => true
  | _ => false
  end.

Fixpoint lookup (k : string) (fields : list (string * value)) : value :=
  match fields with
  | [] => VUndefined
  | (k', v) :: fields' => if String.eqb k k' then v else lookup k fields'
  end.

(** The first character of a string: its lead byte and the continuation
    bytes (10xxxxxx) after it. *)
Definition continuation (c : ascii) : bool :=
  let n := N_of_ascii c in ((128 <=? n) && (n <? 192))%N.

Fixpoint continuations (s : string) : string :=
  match s with
  | String c s' => if continuation c then String c (continuations s') else ""
  | EmptyString => ""
  end.

Definition first_char (s : string) : value :=
  match s with
  | EmptyString => VUndefined
  | String c s' => VString (String c (continuations s'))
  end.

(** [v?.k]: never throws.  None of the names this code reads is a
    built-in property of an array, a string, a number or a boolean, so on
    those only the index ['0'] can be present. *)
Definition opt_get (v : value) (k : string) : value :=
  match v with
  | VObject fields => lookup k fields
  | VArray l => if String.eqb k "0" then hd VUndefined l else VUndefined
  | VString s => if String.eqb k "0" then first_char s else VUndefined
  | _ => VUndefined
  end.

(** [v.k]: a TypeError on [null] and [undefined]. *)
Definition type_of_nullish (v : value) : string :=
  match v with VNull => "null" | _ => "undefined" end.

Definition get (v : value) (k : string) : result value :=
  if nullish v then
    Throw (JsError ("Cannot read properties of " ++ type_of_nullish v
                      ++ " (reading '" ++ k ++ "')"))
  else Ok (opt_get v k).

(** Decimal rendering of a number, as in a template literal. *)
Definition string_of_N (n : N) : string :=
  NilEmpty.string_of_uint (N.to_uint n).

Definition string_of_Z (z : Z) : string :=
  (if (z <? 0)%Z then "-" else "") ++ string_of_N (Z.abs_N z).

(** ToString, and [Array.prototype.join], which prints [null] and
    [undefined] as the empty string. *)
Fixpoint toString (v : value) : string :=
  match v with
  | VUndefined => "undefined"
  | VNull => "null"
  | VBool true => "true"
  | VBool false => "false"
  | VNumber n => string_of_Z n
  | VString s => s
  | VArray l =>
      String.concat ","
        (List.map (fun x => if nullish x then "" else toString x) l)
  | VObject _ => "[object Object]"
  end.

Definition join (sep : string) (l : list value) : string :=
  String.concat sep
    (List.map (fun x => if nullish x then "" else toString x) l).

(** [s.includes(t)] *)
Definition includes (s t : string) : bool :=
  match String.index 0 t s with
  | Some _ => true
  | None => false
  end.

(** [JSON.stringify]: [undefined] has no rendering ([None]); inside an
    array it is printed as [null], inside an object its key is left out. *)
Definition dquote : ascii := ascii_of_N 34.

Definition quote_char (c : ascii) : string :=
  let n := N_of_ascii c in
  if (n =? 8)%N then "\b"
  else if (n =? 9)%N then "\t"
  else if (n =? 10)%N then "\n"
  else if (n =? 12)%N then "\f"
  else if (n =? 13)%N then "\r"
  else if (n =? 34)%N then String "\" (String c "")
  else if (n =? 92)%N then "\\"
  else if (n <? 32)%N then
    "\u00" ++ Buffer.hex_of_Zs [Z.of_N n]
  else String c "".

Fixpoint quote_body (s : string) : string :=
  match s with
  | EmptyString => EmptyString
  | String c s' => quote_char c ++ quote_body s'
  end.

Definition quote (s : string) : string :=
  String dquote (quote_body s ++ String dquote "").

Fixpoint stringify (v : value) : option string :=
  match v with
  | VUndefined => None
  | VNull => Some "null"
  | VBool true => Some "true"
  | VBool false => Some "false"
  | VNumber n => Some (string_of_Z n)
  | VString s => Some (quote s)
  | VArray l =>
      Some ("[" ++ String.concat ","
              (List.map (fun x => match stringify x with
                                  | Some r => r
                                  | None => "null"
                                  end) l) ++ "]")
  | VObject fields =>
      Some ("{" ++ String.concat ","
              (flat_map (fun kv => match stringify (snd kv) with
                                   | Some r => [quote (fst kv) ++ ":" ++ r]
                                   | None => []
                                   end) fields) ++ "}")
  end.

End Js.

(* ================================================================== *)
(** ** The runtime: clock, random source, URL parser, network *)

Module Runtime.
Import Js.
Local Open Scope string_scope.

(** A parsed URL (WHATWG): what precedes the path (scheme, authority),
    the path, the query and the fragment, and the name-value list its
    [searchParams] object holds. *)
Record URL := {
  url_origin : string;
  url_pathname : string;
  url_query : option string;
  url_fragment : option string;
  url_searchParams : list (string * string)
  }.

(** The application/x-www-form-urlencoded serializer. *)
Definition urlencode_char (c : ascii) : string :=
  let n := N_of_ascii c in
  if (n =? 32)%N then "+"
  else if ((n =? 42) || (n =? 45) || (n =? 46) || (n =? 95)
           || ((48 <=? n) && (n <=? 57))
           || ((65 <=? n) && (n <=? 90))
           || ((97 <=? n) && (n <=? 122)))%N
  then String c ""
  else String "%" (JsString.toUpperCase (Buffer.hex_of_Zs [Z.of_N n])).

Fixpoint urlencode (s : string) : string :=
  match s with
  | EmptyString => EmptyString
  | String c s' => urlencode_char c ++ urlencode s'
  end.

Definition urlencoded_serialize (l : list (string * string)) : string :=
  String.concat "&"
    (List.map (fun kv => urlencode (fst kv) ++ "=" ++ urlencode (snd kv)) l).

(** [url.searchParams.append(k, v)]: the pair is added at the end and the
    query of the URL is rewritten from the list. *)
Definition searchParams_append (u : URL) (kv : string * string) : URL :=
  let params := (url_searchParams u ++ [kv])%list in
  let q := urlencoded_serialize params in
  {| url_origin := url_origin u;
     url_pathname := url_pathname u;
     url_query := if String.eqb q "" then None else Some q;
     url_fragment := url_fragment u;
     url_searchParams := params |}.

(** [url.search] *)
Definition url_search (u : URL) : string :=
  match url_query u with
  | None => ""
  | Some q => if String.eqb q "" then "" else "?" ++ q
  end.

(** [url.toString()], [url.href] *)
Definition url_href (u : URL) : string :=
  url_origin u ++ url_pathname u
    ++ match url_query u with None => "" | Some q => "?" ++ q end
    ++ match url_fragment u with None => "" | Some f => "#" ++ f end.

(** The [init] of a [fetch] call and the [Response] it resolves to. *)
Record Request := {
  req_url : string;
  req_method : string;
  req_headers : list (string * string);
  req_body : option string
  }.

Record Response := {
  status : N;
  statusText : string;
  text : result string;      (* await response.text() *)
  json : result value        (* await response.json() *)
  }.

(** [response.ok] *)
Definition ok (r : Response) : bool :=
  ((200 <=? status r) && (status r <=? 299))%N.

(** Everything outside the program.  [Date.now()] is a whole number of
    milliseconds; [randomBytes n] is a buffer of [n] bytes. *)
Record Host := {
  Date_now : N;
  randomBytes : nat -> Buffer.buffer;
  URL_new : string -> string -> result URL;   (* new URL(input, base) *)
  fetch : Request -> result Response;
  env : string -> option string               (* import.meta.env *)
  }.

(** A computation reads the host, records the requests it sends, and
    returns or throws. *)
Definition IO (A : Type) : Type := Host -> list Request * result A.

Definition ret {A} (a : A) : IO A := fun _ => ([], Ok a).

Definition throw {A} (e : exn) : IO A := fun _ => ([], Throw e).

Definition bind {A B} (m : IO A) (k : A -> IO B) : IO B :=
  fun h =>
    let (t1, r) := m h in
    match r with
    | Ok a => let (t2, r') := k a h in ((t1 ++ t2)%list, r')
    | Throw e => (t1, Throw e)
    end.

(** [try { m } catch (e) { handler e }] *)
Definition try_catch {A} (m : IO A) (handler : exn -> IO A) : IO A :=
  fun h =>
    let (t1, r) := m h in
    match r with
    | Ok a => (t1, Ok a)
    | Throw e => let (t2, r') := handler e h in ((t1 ++ t2)%list, r')
    end.

Definition lift {A} (r : result A) : IO A := fun _ => ([], r).

Definition ask {A} (f : Host -> A) : IO A := fun h => ([], Ok (f h)).

Definition new_URL (input base : string) : IO URL :=
  fun h => ([], URL_new h input base).

Definition do_fetch (rq : Request) : IO Response :=
  fun h => ([rq], fetch h rq).

(** [xs.map(f)] where [f] may throw. *)
Fixpoint mapM {A B} (f : A -> IO B) (l : list A) : IO (list B) :=
  match l with
  | [] => ret []
  | x :: l' =>
      bind (f x) (fun y => bind (mapM f l') (fun ys => ret (y :: ys)))
  end.

(** The requests sent and the outcome. *)
Definition sent {A} (m : IO A) (h : Host) : list Request := fst (m h).
Definition outcome {A} (m : IO A) (h : Host) : result A := snd (m h).

(** [error instanceof Error ? error.message : fallback] *)
Definition message_or (fallback : string) (e : exn) : string :=
  match e with
  | JsError m => m
  | NonError _ => fallback
  end.

(** An object literal with string values, as used for headers and query
    parameters, in the order of [Object.entries] (the order of insertion,
    for keys that are not array indices): a spread overwrites the value of
    a key already present and appends a new key. *)
Fixpoint obj_set (o : list (string * string)) (k v : string)
  : list (string * string) :=
  match o with
  | [] => [(k, v)]
  | (k', v') :: o' =>
      if String.eqb k k' then (k, v) :: o' else (k', v') :: obj_set o' k v
  end.

Definition spread (o src : list (string * string)) : list (string * string) :=
  fold_left (fun acc kv => obj_set acc (fst kv) (snd kv)) src o.

Fixpoint obj_get (o : list (string * string)) (k : string) : option string :=
  match o with
  | [] => None
  | (k', v) :: o' => if String.eqb k k' then Some v else obj_get o' k
  end.

End Runtime.

Declare Scope io_scope.
Delimit Scope io_scope with io.
Notation "x <- m ;; k" := (Runtime.bind m (fun x => k))
  (at level 61, m at next level, right associativity) : io_scope.

(* ================================================================== *)
(** ** utils/optimizely-hmac.ts *)

Module Hmac.
Import Js Runtime.
Local Open Scope string_scope.
Local Open Scope io_scope.

Record OptimizelyGraphConfig := {
  gatewayUrl : string;
  appKey : string;
  secret : string
  }.

Record HmacAuthHeader := { authorization : string }.

(** A default value, of a parameter or in a destructuring pattern. *)
Definition default {A} (d : A) (o : option A) : A :=
  match o with Some a => a | None => d end.

(** The locals of [createHmacAuthHeader]. *)
Definition bodyMd5 (body : string) : string := Crypto.md5_base64 body.

Definition signatureData (config : OptimizelyGraphConfig)
    (method path : string) (timestamp : N) (nonce body : string) : string :=
  appKey config ++ method ++ path ++ string_of_N timestamp ++ nonce
    ++ bodyMd5 body.

Definition base64hmac (config : OptimizelyGraphConfig)
    (signatureData : string) : string :=
  let secretBuffer := Buffer.from_base64 (secret config) in
  Crypto.hmac_sha256_base64 secretBuffer signatureData.

Definition authHeader (config : OptimizelyGraphConfig)
    (timestamp : N) (nonce signature : string) : string :=
  "epi-hmac " ++ appKey config ++ ":" ++ string_of_N timestamp ++ ":"
    ++ nonce ++ ":" ++ signature.

Definition createHmacAuthHeader (config : OptimizelyGraphConfig)
    (method path : string) (body : option string) : IO HmacAuthHeader :=
  let body := default "" body in
  timestamp <- ask Date_now ;;
  rnd <- ask (fun h => randomBytes h 16) ;;
  let nonce := Buffer.toString_hex rnd in
  let signature :=
    base64hmac config (signatureData config method path timestamp nonce body) in
  ret {| authorization := authHeader config timestamp nonce signature |}.

Record RequestOptions := {
  opt_method : option string;
  opt_body : option string;
  opt_headers : option (list (string * string));
  opt_queryParams : option (list (string * string))
  }.

Definition makeOptimizelyGraphRequest (config : OptimizelyGraphConfig)
    (endpoint : string) (options : RequestOptions) : IO Response :=
  let method := default "GET" (opt_method options) in
  let body := default "" (opt_body options) in
  let headers := default [] (opt_headers options) in
  let queryParams := default [] (opt_queryParams options) in
  url <- new_URL endpoint (gatewayUrl config) ;;
  let url := fold_left searchParams_append queryParams url in
  let pathWithQuery := url_pathname url ++ url_search url in
  authHeader <- createHmacAuthHeader config method pathWithQuery (Some body) ;;
  do_fetch
    {| req_url := url_href url;
       req_method := method;
       req_headers :=
         spread (spread [("Content-Type", "text/plain")] headers)
                [("authorization", authorization authHeader)];
       req_body := if negb (String.eqb method "GET") then Some body else None |}.

Inductive SynonymSlot := Slot1 | Slot2.

Definition slot_string (s : SynonymSlot) : string :=
  match s with Slot1 => "1" | Slot2 => "2" end.

Record SynonymOptions := {
  synonymSlot : option SynonymSlot;
  languageRouting : option string
  }.

Record UploadResult := {
  success : bool;
  message : string;
  error : option string
  }.

Definition uploadSynonyms (config : OptimizelyGraphConfig)
    (synonyms : string) (options : SynonymOptions) : IO UploadResult :=
  let synonymSlot := slot_string (default Slot1 (synonymSlot options)) in
  let languageRouting := default "standard" (languageRouting options) in
  try_catch
    (response <- makeOptimizelyGraphRequest config "/resources/synonyms"
                   {| opt_method := Some "PUT";
                      opt_body := Some synonyms;
                      opt_headers := None;
                      opt_queryParams :=
                        Some [("synonym_slot", synonymSlot);
                              ("language_routing", languageRouting)] |} ;;
     if ok response then
       ret {| success := true;
              message := "Synonyms successfully uploaded to slot "
                           ++ synonymSlot ++ " for language routing: "
                           ++ languageRouting;
              error := None |}
     else
       errorText <- lift (text response) ;;
       ret {| success := false;
              message := "Failed to upload synonyms";
              error := Some (string_of_N (status response) ++ " "
                               ++ statusText response ++ " - " ++ errorText) |})
    (fun e =>
       ret {| success := false;
              message := "Network error";
              error := Some (message_or "Unknown error" e) |}).

(** [!s] for a [string | undefined]. *)
Definition falsy (s : option string) : bool :=
  match s with
  | None => true
  | Some s => String.eqb s ""
  end.

Definition getOptimizelyGraphConfig : IO OptimizelyGraphConfig :=
  gatewayUrl <- ask (fun h =>
                  let g := env h "OPTIMIZELY_GRAPH_GATEWAY_URL" in
                  if falsy g then "https://cg.optimizely.com"
                  else default "" g) ;;
  appKey <- ask (fun h => env h "OPTIMIZELY_GRAPH_APP_KEY") ;;
  secret <- ask (fun h => env h "OPTIMIZELY_GRAPH_SECRET") ;;
  if falsy appKey || falsy secret then
    throw (JsError "Missing required environment variables: OPTIMIZELY_GRAPH_APP_KEY and OPTIMIZELY_GRAPH_SECRET")
  else
    ret {| gatewayUrl := gatewayUrl;
           appKey := default "" appKey;
           secret := default "" secret |}.

End Hmac.


(* ================================================================== *)
(** ** utils/optimizely-graph-utils.ts *)

Module GraphUtils.
Import Js Runtime Hmac.
Local Open Scope string_scope.
Local Open Scope io_scope.

Definition makeGraphQLRequest (config : OptimizelyGraphConfig)
    (query : string) (variables : value) : IO Response :=
  let payload :=
    VObject [("query", VString query);
             ("variables", or variables (VObject []))] in
  makeOptimizelyGraphRequest config "/content/v2"
    {| opt_method := Some "POST";
       opt_body := stringify payload;
       opt_headers := Some [("Content-Type", "application/json")];
       opt_queryParams := None |}.

(** The object [transformContentItem] returns. *)
Record ContentItem := {
  guid : value;
  name : value;
  contentType : value;
  status : value;
  language : value;
  url : value;
  score : value;
  modified : value;
  id : value
  }.

(** [console.error] leaves no trace in the model. *)
Definition transformContentItem (item : value) : IO ContentItem :=
  Url <- lift (get item "Url") ;;
  _metadata <- lift (get item "_metadata") ;;
  let url_default := opt_get (opt_get _metadata "url") "default" in
  let url_base := opt_get (opt_get _metadata "url") "base" in
  let finalUrl := or Url url_default in
  finalUrl <-
    (if truthy url_base && truthy url_default then
       try_catch
         (u <- new_URL (toString url_default) (toString url_base) ;;
          ret (VString (url_href u)))
         (fun e => ret finalUrl)
     else ret finalUrl) ;;
  _id <- lift (get item "_id") ;;
  ContentLink <- lift (get item "ContentLink") ;;
  Name <- lift (get item "Name") ;;
  PageName <- lift (get item "PageName") ;;
  ContentType <- lift (get item "ContentType") ;;
  Status <- lift (get item "Status") ;;
  Language <- lift (get item "Language") ;;
  _ranking <- lift (get item "_ranking") ;;
  Modified <- lift (get item "Modified") ;;
  ret {| guid := or (or (opt_get _metadata "key") _id)
                    (opt_get ContentLink "GuidValue");
         name := or (or (or Name PageName) (opt_get _metadata "displayName"))
                    (VString "Untitled");
         contentType := or (or (opt_get ContentType "0")
                               (opt_get (opt_get _metadata "types") "0"))
                           (VString "Unknown");
         status := Status;
         language := or (or (opt_get Language "Name")
                            (opt_get _metadata "locale"))
                        (VString "Unknown");
         url := finalUrl;
         score := opt_get _ranking "semantic";
         modified := Modified;
         id := _id |}.

Record SearchResult := {
  items : list ContentItem;
  error : option string
  }.

(** [v.map(...)]: a TypeError unless [v] is an array. *)
Definition as_array (expr : string) (v : value) : result (list value) :=
  match v with
  | VArray l => Ok l
  | _ => Throw (JsError (expr ++ ".map is not a function"))
  end.

Definition searchContent (config : OptimizelyGraphConfig)
    (query : string) (variables : value) : IO SearchResult :=
  try_catch
    (response <- makeGraphQLRequest config query variables ;;
     if negb (ok response) then
       errorText <- lift (text response) ;;
       ret {| items := [];
              error := Some ("GraphQL query failed: "
                               ++ string_of_N (Runtime.status response) ++ " "
                               ++ statusText response ++ " - " ++ errorText) |}
     else
       result <- lift (json response) ;;
       errors <- lift (get result "errors") ;;
       if truthy errors then
         errs <- lift (as_array "result.errors" errors) ;;
         messages <- mapM (fun e => lift (get e "message")) errs ;;
         ret {| items := [];
                error := Some ("GraphQL errors: " ++ join ", " messages) |}
       else
         data <- lift (get result "data") ;;
         let items :=
           or (or (opt_get (opt_get data "Content") "items")
                  (opt_get (opt_get data "_Content") "items"))
              (VArray []) in
         raw <- lift (as_array "items" items) ;;
         transformed <- mapM transformContentItem raw ;;
         ret {| items := filter (fun item => truthy (guid item)) transformed;
                error := None |})
    (fun e =>
       ret {| items := [];
              error := Some (message_or "Unknown error during content search" e) |}).

(** The options of [makeHmacApiRequest]; its [body] is any value. *)
Record ApiRequestOptions := {
  api_method : option string;
  api_body : value;
  api_headers : option (list (string * string));
  api_queryParams : option (list (string * string))
  }.

Definition makeHmacApiRequest (endpoint : string)
    (options : ApiRequestOptions) : IO Response :=
  config <- getOptimizelyGraphConfig ;;
  let method := default "GET" (api_method options) in
  let body := api_body options in
  let headers := default [] (api_headers options) in
  let queryParams := default [] (api_queryParams options) in
  let requestBody :=
    match body with
    | VString s => Some s
    | _ => stringify body
    end in
  let contentType :=
    if includes endpoint "/synonyms" then "text/plain" else "application/json" in
  makeOptimizelyGraphRequest config endpoint
    {| opt_method := Some method;
       opt_body := if negb (String.eqb method "GET") then requestBody else None;
       opt_headers := Some (spread [("Content-Type", contentType)] headers);
       opt_queryParams := Some queryParams |}.

End GraphUtils.

(* ================================================================== *)
(** ** The signer as the specification words it (section 4.1) *)

Module Spec.
Import Js Hmac.
Local Open Scope string_scope.

(** Step 4: appKey, method (uppercase), pathWithQuery, timestamp (as
    decimal string), nonce, bodyDigest, with no separators. *)
Definition signatureInput (config : OptimizelyGraphConfig)
    (method pathWithQuery body : string) (timestamp : N) (nonce : string)
  : string :=
  appKey config ++ JsString.toUpperCase method ++ pathWithQuery
    ++ string_of_N timestamp ++ nonce
    ++ Buffer.toString_base64 (Crypto.md5 (Buffer.from_utf8 body)).

(** Step 5: HMAC-SHA256 keyed by the base64-decoded secret, in base64. *)
Definition signature (config : OptimizelyGraphConfig) (input : string)
  : string :=
  Buffer.toString_base64
    (Crypto.hmac_sha256 (Buffer.from_base64 (secret config))
       (Buffer.from_utf8 input)).

(** Step 6. *)
Definition computeAuthHeader (config : OptimizelyGraphConfig)
    (method pathWithQuery body : string) (timestamp : N) (nonce : string)
  : string :=
  "epi-hmac " ++ appKey config ++ ":" ++ string_of_N timestamp ++ ":"
    ++ nonce ++ ":"
    ++ signature config
         (signatureInput config method pathWithQuery body timestamp nonce).

End Spec.

(* ================================================================== *)
(** ** A mock server, for running the model *)

Module Mock.
Import Js Runtime Hmac.
Local Open Scope string_scope.

(** The configuration of the specification's end-to-end scenario: the
    secret is the base64 of sixteen zero bytes. *)
Definition config : OptimizelyGraphConfig :=
  {| gatewayUrl := "https://cg.example.com";
     appKey := "ak1";
     secret := "AAAAAAAAAAAAAAAAAAAAAA==" |}.

(** A configuration whose secret is not base64. *)
Definition bad_secret : OptimizelyGraphConfig :=
  {| gatewayUrl := "https://cg.example.com";
     appKey := "ak1";
     secret := "not base64!" |}.

(** A host with a fixed clock and random source, whose URL parser
    resolves a path against an origin, and whose network answers every
    request with [answer]. *)
Definition server (answer : result Response) : Host :=
  {| Date_now := 1700000000000;
     randomBytes := fun n => repeat Byte.x2a n;
     URL_new := fun input base =>
                  Ok {| url_origin := base;
                        url_pathname := input;
                        url_query := None;
                        url_fragment := None;
                        url_searchParams := [] |};
     fetch := fun _ => answer;
     env := fun k =>
              if String.eqb k "OPTIMIZELY_GRAPH_APP_KEY" then Some "ak1"
              else if String.eqb k "OPTIMIZELY_GRAPH_SECRET"
                   then Some "AAAAAAAAAAAAAAAAAAAAAA=="
                   else None |}.

Definition respond (code : N) (reason body : string) (parsed : result value)
  : Response :=
  {| status := code; statusText := reason; text := Ok body; json := parsed |}.

Definition ok200 : Host := server (Ok (respond 200 "OK" "" (Ok VNull))).

(** A gateway that answers 502, and a network that is down. *)
Definition bad_gateway : Host :=
  server (Ok (respond 502 "Bad Gateway" "upstream down"
                (Throw (JsError "Unexpected token u in JSON at position 0")))).

Definition offline : Host := server (Throw (JsError "fetch failed")).

(** A server that answers with GraphQL errors, and one that answers with
    three items: one identified by its metadata key, one by its content
    link, one without identifier. *)
Definition graphql_errors : Host :=
  server
    (Ok (respond 200 "OK" ""
           (Ok (VObject
                  [("errors",
                    VArray [VObject [("message", VString "Unknown field")];
                            VObject [("message", VString "Syntax")]])])))).

Definition keyed_item : value :=
  VObject [("_id", VString "i1");
           ("_metadata", VObject [("key", VString "k1");
                                  ("displayName", VString "Home")])].

Definition linked_item : value :=
  VObject [("ContentLink", VObject [("GuidValue", VString "g2")]);
           ("PageName", VString "Start")].

Definition anonymous_item : value := VObject [("Name", VString "Orphan")].

Definition three_items : Host :=
  server
    (Ok (respond 200 "OK" ""
           (Ok (VObject
                  [("data",
                    VObject
                      [("_Content",
                        VObject
                          [("items",
                            VArray [keyed_item; linked_item;
                                    anonymous_item])])])])))).

(** A GET that comes with a body. *)
Definition get_with_body : RequestOptions :=
  {| opt_method := Some "GET";
     opt_body := Some "abc";
     opt_headers := None;
     opt_queryParams := None |}.

End Mock.

(* ================================================================== *)
(** ** The request on the wire *)

Module Wire.
Import Js Runtime Hmac.
Local Open Scope string_scope.

(** The URL of a request once the query parameters are appended, and the
    path with query that is signed. *)
Definition final_url (options : RequestOptions) (u : URL) : URL :=
  fold_left searchParams_append (default [] (opt_queryParams options)) u.

Definition pathWithQuery (u : URL) : string :=
  url_pathname u ++ url_search u.

(** The header the signer gives on host [h] for a method, a path and the
    body it digests. *)
Definition signed (h : Host) (config : OptimizelyGraphConfig)
    (method path digested : string) : string :=
  let timestamp := Date_now h in
  let nonce := Buffer.toString_hex (randomBytes h 16) in
  authHeader config timestamp nonce
    (base64hmac config
       (signatureData config method path timestamp nonce digested)).

(** The request [makeOptimizelyGraphRequest] hands to [fetch] when the
    endpoint parses to [u]. *)
Definition request (h : Host) (config : OptimizelyGraphConfig)
    (options : RequestOptions) (u : URL) : Request :=
  let method := default "GET" (opt_method options) in
  let body := default "" (opt_body options) in
  let url := final_url options u in
  {| req_url := url_href url;
     req_method := method;
     req_headers :=
       spread (spread [("Content-Type", "text/plain")]
                 (default [] (opt_headers options)))
         [("authorization", signed h config method (pathWithQuery url) body)];
     req_body := if negb (String.eqb method "GET") then Some body else None |}.

(** The list [searchContent] reads from a parsed response: [Content.items],
    else [_Content.items], else the empty list. *)
Definition extracted (result : value) : value :=
  or (or (opt_get (opt_get (opt_get result "data") "Content") "items")
         (opt_get (opt_get (opt_get result "data") "_Content") "items"))
     (VArray []).

(** What the [catch] of [searchContent] returns. *)
Definition search_failed (e : exn) : GraphUtils.SearchResult :=
  {| GraphUtils.items := [];
     GraphUtils.error :=
       Some (message_or "Unknown error during content search" e) |}.

(** The options [uploadSynonyms] and [makeGraphQLRequest] pass to the
    dispatcher. *)
Definition put_options (synonyms : string) (options : SynonymOptions)
  : RequestOptions :=
  {| opt_method := Some "PUT";
     opt_body := Some synonyms;
     opt_headers := None;
     opt_queryParams :=
       Some [("synonym_slot",
              slot_string (default Slot1 (synonymSlot options)));
             ("language_routing",
              default "standard" (languageRouting options))] |}.

Definition post_options (query : string) (variables : value) : RequestOptions :=
  {| opt_method := Some "POST";
     opt_body :=
       stringify (VObject [("query", VString query);
                           ("variables", or variables (VObject []))]);
     opt_headers := Some [("Content-Type", "application/json")];
     opt_queryParams := None |}.

(** What the [catch] of [uploadSynonyms] returns. *)
Definition upload_failed (e : exn) : UploadResult :=
  {| success := false;
     message := "Network error";
     error := Some (message_or "Unknown error" e) |}.

(** What [searchContent] makes of a parsed response, on host [h]. *)
Definition read_result (h : Host) (result : value)
    (res : GraphUtils.SearchResult) : Prop :=
  match get result "errors" with
  | Throw e => res = search_failed e
  | Ok errors =>
      if truthy errors then
        match GraphUtils.as_array "result.errors" errors with
        | Throw e => res = search_failed e
        | Ok errs =>
            match outcome (mapM (fun e => lift (get e "message")) errs) h with
            | Throw e => res = search_failed e
            | Ok messages =>
                res = {| GraphUtils.items := [];
                         GraphUtils.error :=
                           Some ("GraphQL errors: " ++ join ", " messages) |}
            end
        end
      else
        match GraphUtils.as_array "items" (extracted result) with
        | Throw e => res = search_failed e
        | Ok raw =>
            match outcome (mapM GraphUtils.transformContentItem raw) h with
            | Throw e => res = search_failed e
            | Ok its =>
                res = {| GraphUtils.items :=
                           filter (fun item => truthy (GraphUtils.guid item))
                             its;
                         GraphUtils.error := None |}
            end
        end
  end.

(** An instance of [Error] that carries a message, as those the runtime
    raises do. *)
Definition described (e : exn) : Prop :=
  match e with
  | JsError m => m <> ""
  | NonError _ => True
  end.

End Wire.

(* ================================================================== *)
(** ** More of JavaScript's strings: trimming, slicing, simple patterns *)

Module Text.
Local Open Scope string_scope.

Definition of_codes (l : list N) : string :=
  string_of_list_ascii (List.map ascii_of_N l).

(** WhiteSpace and LineTerminator, in UTF-8: TAB, LF, VT, FF, CR, SP,
    U+00A0, U+1680, U+2000 to U+200A, U+2028, U+2029, U+202F, U+205F,
    U+3000 and U+FEFF. *)
Definition whitespace : list string :=
  List.map of_codes
    [ [9]; [10]; [11]; [12]; [13]; [32]; [194; 160]; [225; 154; 128];
      [226; 128; 128]; [226; 128; 129]; [226; 128; 130]; [226; 128; 131];
      [226; 128; 132]; [226; 128; 133]; [226; 128; 134]; [226; 128; 135];
      [226; 128; 136]; [226; 128; 137]; [226; 128; 138];
      [226; 128; 168]; [226; 128; 169]; [226; 128; 175]; [226; 129; 159];
      [227; 128; 128]; [239; 187; 191] ]%N.

Fixpoint drop (n : nat) (s : string) : string :=
  match n, s with
  | O, _ => s
  | S n', String _ s' => drop n' s'
  | S _, EmptyString => EmptyString
  end.

Fixpoint rev (s : string) : string :=
  match s with
  | EmptyString => EmptyString
  | String c s' => rev s' ++ String c EmptyString
  end.

(** What is left of [s] after one of [tokens] at its start, if any is. *)
Fixpoint after_token (tokens : list string) (s : string) : option string :=
  match tokens with
  | [] => None
  | t :: tokens' =>
      if String.prefix t s then Some (drop (String.length t) s)
      else after_token tokens' s
  end.

Fixpoint strip_leading (tokens : list string) (fuel : nat) (s : string)
  : string :=
  match fuel with
  | O => s
  | S fuel' =>
      match after_token tokens s with
      | Some s' => strip_leading tokens fuel' s'
      | None => s
      end
  end.

(** [s.trimStart()], [s.trimEnd()], [s.trim()] *)
Definition trimStart (s : string) : string :=
  strip_leading whitespace (String.length s) s.

Definition trimEnd (s : string) : string :=
  rev (strip_leading (List.map rev whitespace) (String.length s) (rev s)).

Definition trim (s : string) : string := trimEnd (trimStart s).

(** [s.replace(/[cd]/g, '')]: every character of the class is dropped. *)
Fixpoint remove (class : ascii -> bool) (s : string) : string :=
  match s with
  | EmptyString => EmptyString
  | String c s' => if class c then remove class s' else String c (remove class s')
  end.

(** [s.replace(/\/$/, '')]: one slash at the very end is dropped. *)
Fixpoint dropTrailingSlash (s : string) : string :=
  match s with
  | EmptyString => EmptyString
  | String c EmptyString => if Ascii.eqb c "/" then EmptyString else s
  | String c s' => String c (dropTrailingSlash s')
  end.

(** A character of ASCII: a code unit below 128. *)
Definition is_ascii (c : ascii) : bool := (N_of_ascii c <? 128)%N.

(** Character classes, as a pattern with the [i] flag reads them. *)
Definition is_digit (c : ascii) : bool :=
  let n := N_of_ascii c in ((48 <=? n) && (n <=? 57))%N.

Definition is_alpha (c : ascii) : bool :=
  let n := N_of_ascii c in
  (((65 <=? n) && (n <=? 90)) || ((97 <=? n) && (n <=? 122)))%N.

Definition is_lower_hex (c : ascii) : bool :=
  let n := N_of_ascii c in
  (((48 <=? n) && (n <=? 57)) || ((97 <=? n) && (n <=? 102)))%N.

Definition is_hex (c : ascii) : bool :=
  let n := N_of_ascii c in
  (((48 <=? n) && (n <=? 57)) || ((65 <=? n) && (n <=? 70))
   || ((97 <=? n) && (n <=? 102)))%N.

(** A pattern that is a sequence of character classes, one per character,
    anchored at both ends: [^c1c2...cn$]. *)
Definition only (c : ascii) : ascii -> bool := fun x => Ascii.eqb x c.

Fixpoint matches (pattern : list (ascii -> bool)) (s : string) : bool :=
  match pattern, s with
  | [], EmptyString => true
  | class :: pattern', String c s' => class c && matches pattern' s'
  | _, _ => false
  end.

Fixpoint all (class : ascii -> bool) (s : string) : bool :=
  match s with
  | EmptyString => true
  | String c s' => class c && all class s'
  end.

Fixpoint contains (c : ascii) (s : string) : bool :=
  match s with
  | EmptyString => false
  | String c' s' => Ascii.eqb c' c || contains c s'
  end.

End Text.

(* ================================================================== *)
(** ** utils/optimizely-graph-utils.ts: validation helpers *)

Module GraphHelpers.
Import Text.
Local Open Scope string_scope.

(** [isValidGuid]: the pattern
    /^[0-9a-f]{8}-[0-9a-f]{4}-[1-5][0-9a-f]{3}-[89ab][0-9a-f]{3}-[0-9a-f]{12}$/i *)
Definition is_version (c : ascii) : bool :=
  let n := N_of_ascii c in ((49 <=? n) && (n <=? 53))%N.

Definition is_variant (c : ascii) : bool :=
  let n := N_of_ascii c in
  ((n =? 56) || (n =? 57) || (n =? 97) || (n =? 98) || (n =? 65) || (n =? 66))%N.

Definition guidRegex : list (ascii -> bool) :=
  (repeat is_hex 8 ++ [only "-"] ++ repeat is_hex 4 ++ [only "-"]
     ++ [is_version] ++ repeat is_hex 3 ++ [only "-"]
     ++ [is_variant] ++ repeat is_hex 3 ++ [only "-"] ++ repeat is_hex 12)%list.

Definition isValidGuid (guid : string) : bool := matches guidRegex guid.

(** [sanitizeInput]: [input.trim().replace(/[<>]/g, '')] *)
Definition is_angle (c : ascii) : bool := Ascii.eqb c "<" || Ascii.eqb c ">".

Definition sanitizeInput (input : string) : string :=
  remove is_angle (trim input).

(** [validateLanguageCode]: the pattern /^[a-z]{2}(-[a-z]{2,3})?$/i, that
    is two letters, then nothing, or a dash and two or three letters. *)
Definition languageRegex : list (list (ascii -> bool)) :=
  [ [is_alpha; is_alpha];
    [is_alpha; is_alpha; only "-"; is_alpha; is_alpha];
    [is_alpha; is_alpha; only "-"; is_alpha; is_alpha; is_alpha] ].

Definition validateLanguageCode (language : string) : bool :=
  existsb (fun pattern => matches pattern language) languageRegex.

(** A number, as [clampNumber] meets it at its call sites: an integer (a
    parsed or a literal limit) or NaN (what [parseInt] gives on text that
    is no number). *)
Inductive number :=
| Int (z : Z)
| NaN.

(** [Math.min], [Math.max]: NaN as soon as an argument is NaN. *)
Definition Math_min (a b : number) : number :=
  match a, b with
  | Int x, Int y => Int (Z.min x y)
  | _, _ => NaN
  end.

Definition Math_max (a b : number) : number :=
  match a, b with
  | Int x, Int y => Int (Z.max x y)
  | _, _ => NaN
  end.

Definition clampNumber (value min max : number) : number :=
  Math_max min (Math_min max value).

(** [parseCsvPhrases]: lines, trimmed, the empty ones dropped, each then
    sanitized. *)
Definition newline : ascii := ascii_of_N 10.

Definition parseCsvPhrases (text : string) : list string :=
  List.map sanitizeInput
    (filter (fun line => negb (Nat.eqb (String.length line) 0))
       (List.map trim (JsString.split newline text))).

End GraphHelpers.

(* ================================================================== *)
(** ** src/lib/locale-helpers.ts: [fetchContentByPath] *)

Module ContentFetch.
Import Js.
Local Open Scope string_scope.

Record ContentPayload := {
  ctx : string;
  key : string;
  ver : string;
  loc : string;
  preview_token : string;
  types : list string
}.

(** The parameters of the two queries of the SDK. *)
Record PathParams := {
  base : string;
  url : string;
  urlNoSlash : string
}.

Record VariantParams := {
  v_base : string;
  v_url : string;
  v_urlNoSlash : string;
  variation : string
}.

(** [OptimizelySdk]: each method resolves to a response or rejects. *)
Record OptimizelySdk := {
  contentByPath : PathParams -> result value;
  contentByPathVariant : VariantParams -> result value
}.

(** [GetOptimizelySdk] *)
Definition GetOptimizelySdk : Type := ContentPayload -> result OptimizelySdk.

(** The queries a call makes, in order. *)
Inductive Query :=
| ByPath (payload : ContentPayload) (params : PathParams)
| ByPathVariant (payload : ContentPayload) (params : VariantParams).

Record FetchResult := {
  contentResponse : value;
  found : bool
}.

(** What the logging reads of a response: [response._Content?.item...],
    a TypeError on a response that is null or undefined.  [console.log]
    itself leaves no trace in the model. *)
Definition logged (response : value) : result value :=
  match get response "_Content" with
  | Ok _ => Ok response
  | Throw e => Throw e
  end.

(** The body of the [try]: the queries made and the response or the
    exception.  [variantKey] is [None] for null and undefined. *)
Definition query (getOptimizelySdk : GetOptimizelySdk)
    (contentPayload : ContentPayload) (urlBase urlPath : string)
    (enableDebugLogs : bool) (variantKey : option string)
  : list Query * result value :=
  let urlPathNoSlash := Text.dropTrailingSlash urlPath in
  let shouldLogVariant :=
    match variantKey with Some _ => true | None => false end in
  match variantKey with
  | Some (String c v as variantKey) =>
      match getOptimizelySdk contentPayload with
      | Throw e => ([], Throw e)
      | Ok sdk =>
          let params := {| v_base := urlBase;
                           v_url := urlPath;
                           v_urlNoSlash := urlPathNoSlash;
                           variation := variantKey |} in
          ([ByPathVariant contentPayload params],
           match contentByPathVariant sdk params with
           | Throw e => Throw e
           | Ok response =>
               match logged response with
               | Throw e => Throw e
               | Ok response =>
                   if enableDebugLogs || shouldLogVariant
                   then logged response else Ok response
               end
           end)
      end
  | _ =>
      match getOptimizelySdk contentPayload with
      | Throw e => ([], Throw e)
      | Ok sdk =>
          let params := {| base := urlBase;
                           url := urlPath;
                           urlNoSlash := urlPathNoSlash |} in
          ([ByPath contentPayload params],
           match contentByPath sdk params with
           | Throw e => Throw e
           | Ok response =>
               if enableDebugLogs || shouldLogVariant
               then logged response else Ok response
           end)
      end
  end.

(** The result that stands for a failed query. *)
Definition no_content : FetchResult :=
  {| contentResponse := VObject [("_Content", VNull)]; found := false |}.

(** An SDK for running the model: both queries answer [response]. *)
Definition answering (response : result value) : GetOptimizelySdk :=
  fun _ => Ok {| contentByPath := fun _ => response;
                 contentByPathVariant := fun _ => response |}.

Definition fetchContentByPath (getOptimizelySdk : GetOptimizelySdk)
    (contentPayload : ContentPayload) (urlBase urlPath : string)
    (enableDebugLogs : bool) (variantKey : option string)
  : list Query * result FetchResult :=
  let (queries, attempt) :=
    query getOptimizelySdk contentPayload urlBase urlPath enableDebugLogs
      variantKey in
  let contentByPathResponse :=
    match attempt with
    | Ok response => response
    | Throw _ => VObject [("_Content", VNull)]
    end in
  (queries,
   match get contentByPathResponse "_Content" with
   | Throw e => Throw e
   | Ok _Content =>
       let item := opt_get _Content "item" in
       Ok {| contentResponse := contentByPathResponse;
             found := truthy _Content && truthy item
                      && truthy (opt_get (opt_get item "_metadata") "key") |}
   end).

End ContentFetch.

(* ================================================================== *)
(** ** src/pages/opti-admin/auth-opti-admin.ts *)

Module AdminAuth.
Import Text.
Local Open Scope string_scope.

(** [atob]: the forgiving base64 decoding.  ASCII whitespace is dropped;
    when the length is then a multiple of four, one or two '=' at the end
    are dropped; a length of 1 modulo 4 or a character outside the
    alphabet is an error ([None]); the bits left over are discarded.  The
    result is a binary string: one character, below U+0100, per byte. *)
Definition is_ascii_whitespace (c : ascii) : bool :=
  let n := N_of_ascii c in
  ((n =? 9) || (n =? 10) || (n =? 12) || (n =? 13) || (n =? 32))%N.

Definition strip_padding (data : string) : string :=
  match rev data with
  | String "=" (String "=" r) => rev r
  | String "=" r => rev r
  | _ => data
  end.

(** The character of code [b], below U+0100, in UTF-8. *)
Definition latin1_char (b : Z) : string :=
  if (b <? 128)%Z then String (Buffer.char_of_Z b) ""
  else String (Buffer.char_of_Z (192 + b / 64))
         (String (Buffer.char_of_Z (128 + b mod 64)) "").

Fixpoint latin1 (bytes : list Z) : string :=
  match bytes with
  | [] => ""
  | b :: bytes' => latin1_char b ++ latin1 bytes'
  end.

Definition atob (data : string) : option string :=
  let data := remove is_ascii_whitespace data in
  let data :=
    if Nat.eqb (Nat.modulo (String.length data) 4) 0
    then strip_padding data else data in
  if Nat.eqb (Nat.modulo (String.length data) 4) 1 then None
  else if all Buffer.std_char data
       then Some (latin1 (Buffer.bytes_of_sextets (Buffer.sextets data)))
       else None.

(** [btoa] on a string of characters below U+0080, where a character is
    its byte. *)
Definition btoa (s : string) : string :=
  Buffer.toString_base64 (Buffer.from_utf8 s).

(** [const [username, password] = credentials.split(':')]: the password is
    undefined ([None]) when there is no colon. *)
Record AuthCredentials := {
  username : string;
  password : option string
}.

Definition parseBasicAuth (authHeader : option string)
  : option AuthCredentials :=
  match authHeader with
  | None => None
  | Some authHeader =>
      if String.eqb authHeader "" || negb (String.prefix "Basic " authHeader)
      then None
      else
        match atob (drop 6 authHeader) with
        | None => None
        | Some credentials =>
            let (username, rest) := JsString.split_ne ":" credentials in
            Some {| username := username; password := hd_error rest |}
        end
  end.

(** The environment, and what [checkAdminAuth] reads of a request:
    [request.headers.get('authorization')]. *)
Definition Env : Type := string -> option string.

Record AdminRequest := { header_authorization : option string }.

Record AdminResponse := {
  admin_status : N;
  admin_body : string;
  admin_headers : list (string * string)
}.

Definition isAdminConfigured (env : Env) : bool :=
  negb (Hmac.falsy (env "ADMIN_DASHBOARD_USERNAME"))
  && negb (Hmac.falsy (env "ADMIN_DASHBOARD_PASSWORD")).

Definition not_found : AdminResponse :=
  {| admin_status := 404;
     admin_body := "Not found";
     admin_headers := [("Content-Type", "text/plain")] |}.

Definition realm : string :=
  "Basic realm=" ++ String Js.dquote "Admin Dashboard" ++ String Js.dquote "".

Definition unauthorized : AdminResponse :=
  {| admin_status := 401;
     admin_body := "Unauthorized";
     admin_headers := [("WWW-Authenticate", realm);
                       ("Content-Type", "text/plain")] |}.

(** [a !== b] on values that are a string or undefined. *)
Definition differ (a b : option string) : bool :=
  match a, b with
  | Some x, Some y => negb (String.eqb x y)
  | None, None => false
  | _, _ => true
  end.

(** [null] is [None]: the request may pass. *)
Definition checkAdminAuth (env : Env) (request : AdminRequest)
  : option AdminResponse :=
  if negb (isAdminConfigured env) then Some not_found
  else
    let adminUsername := env "ADMIN_DASHBOARD_USERNAME" in
    let adminPassword := env "ADMIN_DASHBOARD_PASSWORD" in
    let authHeader := header_authorization request in
    match parseBasicAuth authHeader with
    | None => Some unauthorized
    | Some credentials =>
        if differ (Some (username credentials)) adminUsername
           || differ (password credentials) adminPassword
        then Some unauthorized
        else None
    end.

Definition requireAdminAuth (env : Env) (request : AdminRequest)
  : option AdminResponse :=
  checkAdminAuth env request.

End AdminAuth.

(* ================================================================== *)
(** ** utils/optimizely-graph-utils.ts: the responses of the admin API *)

Module ApiResponses.
Import Js Runtime Hmac.
Local Open Scope string_scope.

(** A [Response] the server builds: [new Response(body, { status,
    headers })] with a string for body. *)
Record HttpResponse := {
  http_status : N;
  http_body : string;
  http_headers : list (string * string)
}.

(** The constructor first converts the status to an unsigned short (a
    whole number that is not negative, as the statuses of this code are,
    is taken modulo 65536).  It then refuses a status outside 200..599
    with a RangeError, and a body together with a status that allows none
    (101, 103, 204, 205, 304) with a TypeError; the messages are those of
    Node. *)
Definition to_unsigned_short (n : N) : N := (n mod 65536)%N.

Definition null_body_status (status : N) : bool :=
  ((status =? 101) || (status =? 103) || (status =? 204) || (status =? 205)
   || (status =? 304))%N.

Definition new_Response (body : string) (status : N)
    (headers : list (string * string)) : result HttpResponse :=
  let status := to_unsigned_short status in
  if ((status <? 200) || (599 <? status))%N then
    Throw (JsError ("init[" ++ String dquote "status" ++ String dquote
                      "] must be in the range of 200 to 599, inclusive."))
  else if null_body_status status then
    Throw (JsError ("Response constructor: Invalid response status code "
                      ++ string_of_N status))
  else
    Ok {| http_status := status; http_body := body; http_headers := headers |}.

(** [JSON.stringify] of an object literal, which always has a rendering. *)
Definition stringify_object (fields : list (string * value)) : string :=
  default "" (stringify (VObject fields)).

(** [...(v && { k: v })] in an object literal: the key is there when the
    value is truthy. *)
Definition when_truthy (k : string) (v : value) : list (string * value) :=
  if truthy v then [(k, v)] else [].

Definition createSuccessResponse (data : value) (message : option string)
  : result HttpResponse :=
  let response :=
    ([("success", VBool true)]
       ++ when_truthy "message"
            (match message with Some m => VString m | None => VUndefined end)
       ++ when_truthy "data" data)%list in
  new_Response (stringify_object response) 200
    [("Content-Type", "application/json")].

Definition createErrorResponse (error : string) (status : option N)
  : result HttpResponse :=
  let status := default 400%N status in
  let response := [("success", VBool false); ("error", VString error)] in
  new_Response (stringify_object response) status
    [("Content-Type", "application/json")].

(** [console.error] leaves no trace in the model. *)
Definition handleApiError (error : exn) : result HttpResponse :=
  let message := message_or "Unknown error occurred" error in
  createErrorResponse message (Some 500%N).

End ApiResponses.

(* ================================================================== *)
(** ** src/pages/opti-admin/api/pinned-collections.json.ts *)

Module PinnedCollections.
Import Js Runtime Hmac GraphUtils ApiResponses.
Local Open Scope string_scope.
Local Open Scope io_scope.

(** [Array.isArray(v) ? v : [v]] *)
Definition as_list (v : value) : value :=
  match v with
  | VArray _ => v
  | _ => VArray [v]
  end.

(** The options [{ method }]. *)
Definition only_method (method : string) : ApiRequestOptions :=
  {| api_method := Some method;
     api_body := VUndefined;
     api_headers := None;
     api_queryParams := None |}.

Definition GET : IO HttpResponse :=
  try_catch
    (response <- makeHmacApiRequest "/api/pinned/collections"
                   (only_method "GET") ;;
     if negb (ok response) then
       errorText <- lift (text response) ;;
       lift (createErrorResponse
               ("Failed to fetch collections: "
                  ++ string_of_N (Runtime.status response) ++ " "
                  ++ statusText response ++ " - " ++ errorText)
               (Some (Runtime.status response)))
     else
       collections <- lift (json response) ;;
       lift (createSuccessResponse (as_list collections) None))
    (fun error => lift (handleApiError error)).

(** [request_json] is what [await request.json()] gives. *)
Definition DELETE (request_json : result value) : IO HttpResponse :=
  try_catch
    (body <- lift request_json ;;
     collectionId <- lift (get body "id") ;;
     if negb (truthy collectionId) then
       lift (createErrorResponse "Collection ID is required" (Some 400%N))
     else
       response <- makeHmacApiRequest
                     ("/api/pinned/collections/" ++ toString collectionId)
                     (only_method "DELETE") ;;
       if negb (ok response) then
         errorText <- lift (text response) ;;
         lift (createErrorResponse
                 ("Failed to delete collection: "
                    ++ string_of_N (Runtime.status response) ++ " "
                    ++ statusText response ++ " - " ++ errorText)
                 (Some (Runtime.status response)))
       else
         lift (createSuccessResponse VUndefined
                 (Some "Collection deleted successfully")))
    (fun error => lift (handleApiError error)).

End PinnedCollections.

(* ================================================================== *)
(** ** src/pages/opti-admin/api/pinned-items.json.ts *)

Module PinnedItems.
Import Js Runtime Hmac GraphUtils ApiResponses.
Local Open Scope string_scope.
Local Open Scope io_scope.

(** [collectionId] is [url.searchParams.get('collectionId')]: a string,
    or [null] ([None]). *)
Definition GET (collectionId : option string) : IO HttpResponse :=
  try_catch
    (if falsy collectionId then
       lift (createErrorResponse "Collection ID is required" (Some 400%N))
     else
       response <- makeHmacApiRequest
                     ("/api/pinned/collections/" ++ default "" collectionId
                        ++ "/items")
                     (PinnedCollections.only_method "GET") ;;
       if negb (ok response) then
         errorText <- lift (text response) ;;
         lift (createErrorResponse
                 ("Failed to fetch pinned items: "
                    ++ string_of_N (Runtime.status response) ++ " "
                    ++ statusText response ++ " - " ++ errorText)
                 (Some (Runtime.status response)))
       else
         items <- lift (json response) ;;
         lift (createSuccessResponse (PinnedCollections.as_list items) None))
    (fun error => lift (handleApiError error)).

End PinnedItems.

(* ================================================================== *)
(** ** The requests of the admin API on the wire *)

Module ApiWire.
Import Js Runtime Hmac GraphUtils ApiResponses.
Local Open Scope string_scope.

(** The options [makeHmacApiRequest] passes to the dispatcher. *)
Definition dispatched (endpoint : string) (options : ApiRequestOptions)
  : RequestOptions :=
  let method := default "GET" (api_method options) in
  {| opt_method := Some method;
     opt_body :=
       if negb (String.eqb method "GET") then
         match api_body options with
         | VString s => Some s
         | _ => stringify (api_body options)
         end
       else None;
     opt_headers :=
       Some (spread
               [("Content-Type",
                 if includes endpoint "/synonyms" then "text/plain"
                 else "application/json")]
               (default [] (api_headers options)));
     opt_queryParams := Some (default [] (api_queryParams options)) |}.

(** The bodies of the two kinds of answer. *)
Definition error_body (error : string) : string :=
  "{" ++ quote "success" ++ ":false," ++ quote "error" ++ ":" ++ quote error
    ++ "}".

Definition json_headers : list (string * string) :=
  [("Content-Type", "application/json")].

(** The answer to a failure [e]: what [handleApiError] builds. *)
Definition failure (e : exn) : HttpResponse :=
  {| http_status := 500;
     http_body := error_body (message_or "Unknown error occurred" e);
     http_headers := json_headers |}.

(** A status the constructor of [Response] accepts together with a
    body, once it is converted. *)
Definition constructible (status : N) : bool :=
  let code := to_unsigned_short status in
  ((200 <=? code) && (code <=? 599) && negb (null_body_status code))%N.

(** A handler answers: it returns a response, of type JSON, after at most
    one request to the Graph; when it has sent none, its answer is 400 or
    500. *)
Definition answers (h : Host) (handler : IO HttpResponse) : Prop :=
  exists response,
    outcome handler h = Ok response
    /\ http_headers response = json_headers
    /\ List.length (sent handler h) <= 1
    /\ (sent handler h = [] ->
        http_status response = 400%N \/ http_status response = 500%N).

End ApiWire.

(* ================================================================== *)
(** ** Sample requests and installations *)

Module Sample.
Import Js Runtime Hmac.
Local Open Scope string_scope.

(** A POST with headers of the caller and one query parameter. *)
Definition traced : RequestOptions :=
  {| opt_method := Some "POST";
     opt_body := Some "{}";
     opt_headers := Some [("Content-Type", "application/json");
                          ("X-Trace", "1")];
     opt_queryParams := Some [("q", "a b")] |}.

(** A DELETE of the admin API that carries an object. *)
Definition delete_item : GraphUtils.ApiRequestOptions :=
  {| GraphUtils.api_method := Some "DELETE";
     GraphUtils.api_body := VObject [("id", VNumber 7)];
     GraphUtils.api_headers := None;
     GraphUtils.api_queryParams := None |}.

(** A host without credentials for the Graph. *)
Definition unconfigured : Host :=
  {| Date_now := 1700000000000;
     randomBytes := fun n => repeat Byte.x2a n;
     URL_new := URL_new Mock.ok200;
     fetch := fetch Mock.ok200;
     env := fun _ => None |}.

(** A server whose item list holds a [null] after an item. *)
Definition null_item_result : value :=
  VObject
    [("data",
      VObject
        [("_Content",
          VObject [("items", VArray [Mock.keyed_item; VNull])])])].

Definition null_item : Host :=
  Mock.server (Ok (Mock.respond 200 "OK" "" (Ok null_item_result))).

(** A dashboard with the user 'admin' and a password, and one whose
    password holds a colon. *)
Definition dashboard (pass : string) : AdminAuth.Env :=
  fun k =>
    if String.eqb k "ADMIN_DASHBOARD_USERNAME" then Some "admin"
    else if String.eqb k "ADMIN_DASHBOARD_PASSWORD" then Some pass
         else None.

(** The request of a client that sends the given credentials. *)
Definition basic (credentials : string) : AdminAuth.AdminRequest :=
  {| AdminAuth.header_authorization :=
       Some ("Basic " ++ AdminAuth.btoa credentials) |}.

End Sample.

(* ================================================================== *)
(** * Properties *)

(** ** Buffers and digests *)

Section BufferFacts.
Import Buffer.
Local Open Scope Z_scope.

Lemma byte_of_to_Z (x : Byte.byte) : byte_of_Z (byte_to_Z x) = x.
Proof. destruct x; reflexivity. Qed.

Lemma byte_to_Z_range (x : Byte.byte) : 0 <= byte_to_Z x < 256.
Proof. destruct x; cbv; split; congruence. Qed.

Lemma of_to_Zs (b : buffer) : of_Zs (to_Zs b) = b.
Proof.
  unfold of_Zs, to_Zs; induction b as [|x b IH]; simpl;
    [reflexivity | now rewrite byte_of_to_Z, IH].
Qed.

Lemma to_Zs_range (b : buffer) : Forall (fun z => 0 <= z < 256) (to_Zs b).
Proof.
  unfold to_Zs; induction b; simpl; constructor;
    [apply byte_to_Z_range | assumption].
Qed.

(** The 64 characters of the alphabet decode to their index, and none of
    them is the padding character. *)
Lemma b64_char_inv (z : Z) :
  0 <= z < 64 ->
  unbase64 (b64_char z) = Some z
  /\ Ascii.eqb (b64_char z) "=" = false
  /\ std_char (b64_char z) = true.
Proof.
  intros Hz.
  assert (Hall : forallb (fun z => match unbase64 (b64_char z) with
                                   | Some z' => z =? z'
                                   | None => false
                                   end
                                   && negb (Ascii.eqb (b64_char z) "=")
                                   && std_char (b64_char z))
                   (List.map Z.of_nat (seq 0 64)) = true) by (vm_compute; reflexivity).
  rewrite forallb_forall in Hall.
  assert (Hin : In z (List.map Z.of_nat (seq 0 64))).
  { apply in_map_iff; exists (Z.to_nat z); split; [lia|].
    apply in_seq; lia. }
  apply Hall in Hin; apply andb_true_iff in Hin as [H3 H4].
  apply andb_true_iff in H3 as [H1 H2].
  destruct (unbase64 (b64_char z)) as [z'|]; [|discriminate].
  apply Z.eqb_eq in H1 as <-; apply negb_true_iff in H2; auto.
Qed.

Lemma sextets_cons (z : Z) (s : string) :
  0 <= z < 64 -> sextets (String (b64_char z) s) = z :: sextets s.
Proof.
  intros Hz; destruct (b64_char_inv z Hz) as (H1 & H2 & _); simpl.
  now rewrite H1, H2.
Qed.

Ltac sextet_range := Z.div_mod_to_equations; lia.

(** Decoding undoes encoding, group of three bytes by group. *)
Lemma bytes_sextets_b64 (n : nat) (l : list Z) :
  (List.length l <= n)%nat ->
  Forall (fun z => 0 <= z < 256) l ->
  bytes_of_sextets (sextets (b64_of_Zs l)) = l
  /\ is_valid_base64 (b64_of_Zs l) = true.
Proof.
  revert l; induction n as [|n IH]; intros l Hn Hl.
  - destruct l; [split; reflexivity | simpl in Hn; lia].
  - destruct l as [|a [|b [|c l]]]; [split; reflexivity| | |].
    + inversion_clear Hl as [|? ? Ha _].
      cbn [b64_of_Zs].
      rewrite !sextets_cons by sextet_range.
      destruct (b64_char_inv (a / 4)) as (_ & _ & S1); [sextet_range|].
      destruct (b64_char_inv (a mod 4 * 16)) as (_ & _ & S2); [sextet_range|].
      cbn [sextets bytes_of_sextets is_valid_base64]; rewrite S1, S2.
      split; [|reflexivity].
      change (Ascii.eqb "=" "=") with true; cbv iota.
      f_equal; sextet_range.
    + inversion_clear Hl as [|? ? Ha Hl']; inversion_clear Hl' as [|? ? Hb _].
      cbn [b64_of_Zs].
      rewrite !sextets_cons by sextet_range.
      destruct (b64_char_inv (a / 4)) as (_ & _ & S1); [sextet_range|].
      destruct (b64_char_inv (a mod 4 * 16 + b / 16)) as (_ & _ & S2);
        [sextet_range|].
      destruct (b64_char_inv (b mod 16 * 4)) as (_ & _ & S3); [sextet_range|].
      cbn [sextets bytes_of_sextets is_valid_base64]; rewrite S1, S2, S3.
      split; [|reflexivity].
      change (Ascii.eqb "=" "=") with true; cbv iota.
      repeat f_equal; sextet_range.
    + inversion_clear Hl as [|? ? Ha Hl']; inversion_clear Hl' as [|? ? Hb Hl];
        inversion_clear Hl as [|? ? Hc Hl'].
      destruct (IH l) as [IHd IHv]; [simpl in Hn; lia | assumption |].
      cbn [b64_of_Zs].
      rewrite !sextets_cons by sextet_range.
      destruct (b64_char_inv (a / 4)) as (_ & _ & S1); [sextet_range|].
      destruct (b64_char_inv (a mod 4 * 16 + b / 16)) as (_ & _ & S2);
        [sextet_range|].
      destruct (b64_char_inv (b mod 16 * 4 + c / 64)) as (_ & _ & S3);
        [sextet_range|].
      destruct (b64_char_inv (c mod 64)) as (_ & _ & S4); [sextet_range|].
      cbn [bytes_of_sextets is_valid_base64]; rewrite IHd, S1, S2, S3, S4, IHv.
      split.
      * repeat f_equal; sextet_range.
      * now destruct (b64_of_Zs l).
Qed.

(** Node decodes what it encodes: a secret that is the base64 of a key
    gives that key back, and such a secret is valid base64. *)
Lemma from_base64_toString_base64 (b : buffer) :
  from_base64 (toString_base64 b) = b
  /\ is_valid_base64 (toString_base64 b) = true.
Proof.
  unfold from_base64, toString_base64.
  destruct (bytes_sextets_b64 (List.length (to_Zs b)) (to_Zs b) (le_n _)
              (to_Zs_range b)) as [-> ->].
  split; [apply of_to_Zs | reflexivity].
Qed.

(** The digests on the test vectors of RFC 1321, FIPS 180-4 and RFC 4231
    (test case 2). *)
Example md5_vectors :
  toString_hex (Crypto.md5 (from_utf8 "")) = "d41d8cd98f00b204e9800998ecf8427e"
  /\ toString_hex (Crypto.md5 (from_utf8 "message digest"))
     = "f96b697d7cb7938d525a2f31aaf161d0"
  /\ Crypto.md5_base64 "" = "1B2M2Y8AsgTpgAmY7PhCfg==".
Proof. repeat split; vm_compute; reflexivity. Qed.

Example sha256_vectors :
  toString_hex (Crypto.sha256 (from_utf8 "abc"))
  = "ba7816bf8f01cfea414140de5dae2223b00361a396177a9cb410ff61f20015ad"
  /\ toString_hex
       (Crypto.sha256
          (from_utf8 "abcdbcdecdefdefgefghfghighijhijkijkljklmklmnlmnomnopnopq"))
     = "248d6a61d20638b8e5c026930c3e6039a33ce45964ff2167f6ecedd419db06c1".
Proof. repeat split; vm_compute; reflexivity. Qed.

Example hmac_sha256_vector :
  toString_hex
    (Crypto.hmac_sha256 (from_utf8 "Jefe")
       (from_utf8 "what do ya want for nothing?"))
  = "5bdcc146bf60754e6a042426089575c75a003f089d2739839dec58b964ec3843".
Proof. vm_compute; reflexivity. Qed.

(** Lenient decoding: the URL-safe alphabet is read, blanks and other
    characters are skipped, and nothing is read past the first '='. *)
Example from_base64_lenient :
  toString_hex (from_base64 "-_8=") = "fbff"
  /\ toString_hex (from_base64 "+/8=") = "fbff"
  /\ from_base64 " + / 8 " = from_base64 "+/8="
  /\ from_base64 "AA=AAAAA" = from_base64 "AA=="
  /\ from_base64 "%%%" = [].
Proof. repeat split. Qed.

End BufferFacts.

(** ** Locale helpers *)

Section LocaleFacts.
Import JsString Locale.
Local Open Scope string_scope.

Lemma map_append (f : ascii -> ascii) (s t : string) :
  map f (s ++ t) = map f s ++ map f t.
Proof.
  induction s as [|c s IH]; simpl; [reflexivity | now rewrite IH].
Qed.

Lemma map_map (f g : ascii -> ascii) (s : string) :
  map f (map g s) = map (fun c => f (g c)) s.
Proof.
  induction s as [|c s IH]; simpl; [reflexivity | now rewrite IH].
Qed.

Lemma get_map (f : ascii -> ascii) (s : string) (i : nat) :
  String.get i (map f s) = option_map f (String.get i s).
Proof.
  revert i; induction s as [|c s IH]; intros [|i]; simpl; auto.
Qed.

Lemma not_sep (c : ascii) :
  is_sep c = false -> Ascii.eqb c "-" = false /\ Ascii.eqb c "_" = false.
Proof. unfold is_sep; intros H; now apply orb_false_elim in H. Qed.

Lemma segment_cons (c : ascii) (s : string) :
  segment (String c s) = true -> is_sep c = false /\ segment s = true.
Proof.
  simpl; intros H; apply andb_true_iff in H as [H1 H2].
  split; [now apply negb_true_iff in H1 | assumption].
Qed.

(** Neither replacement touches a segment. *)
Lemma replaceAll_segment (c d : ascii) (s : string) :
  is_sep c = true -> segment s = true -> replaceAll c d s = s.
Proof.
  intros Hc; induction s as [|x s IH]; intros Hs; [reflexivity|].
  apply segment_cons in Hs as [Hx Hs].
  unfold replaceAll in *; simpl; rewrite (IH Hs).
  destruct (Ascii.eqb_spec x c) as [->|_]; [congruence | reflexivity].
Qed.

Lemma split_ne_segment (s : string) :
  segment s = true -> split_ne "_" s = (s, []).
Proof.
  induction s as [|x s IH]; intros Hs; [reflexivity|].
  apply segment_cons in Hs as [Hx Hs]; simpl.
  rewrite (IH Hs); apply not_sep in Hx as [_ ->]; reflexivity.
Qed.

Lemma split_segment (s : string) : segment s = true -> split "_" s = [s].
Proof. intros Hs; unfold split; now rewrite split_ne_segment. Qed.

(** Splitting after a first segment. *)
Lemma split_cons (a r : string) :
  segment a = true -> split "_" (a ++ String "_" r) = a :: split "_" r.
Proof.
  unfold split; induction a as [|x a IH]; intros Ha; simpl.
  - destruct (split_ne "_" r); reflexivity.
  - apply segment_cons in Ha as [Hx Ha]; specialize (IH Ha).
    apply not_sep in Hx as [_ ->].
    destruct (split_ne "_" (a ++ String "_" r)) as [h t].
    now inversion IH.
Qed.

(** Underscoring a string that starts with a segment and a separator. *)
Lemma underscore_cons (a r : string) (sep : ascii) :
  segment a = true -> is_sep sep = true ->
  replaceAll "-" "_" (a ++ String sep r)
  = a ++ String "_" (replaceAll "-" "_" r).
Proof.
  intros Ha Hsep; unfold replaceAll at 1; rewrite map_append; simpl.
  fold (replaceAll "-" "_" a); fold (replaceAll "-" "_" r).
  rewrite replaceAll_segment by (assumption || reflexivity).
  unfold is_sep in Hsep; apply orb_true_iff in Hsep as [H|H];
    apply Ascii.eqb_eq in H as ->; reflexivity.
Qed.

(** The number of parts is one more than the number of separators. *)
Lemma split_length (s : string) :
  List.length (split "_" (replaceAll "-" "_" s)) = S (count_sep s).
Proof.
  unfold split, replaceAll; induction s as [|x s IH]; [reflexivity|].
  simpl; destruct (split_ne "_" (map _ s)) as [h t]; simpl in IH.
  unfold is_sep; destruct (Ascii.eqb_spec x "-") as [->|Hd]; simpl.
  - now rewrite IH.
  - destruct (Ascii.eqb_spec x "_") as [->|Hu]; simpl; now rewrite IH.
Qed.

Lemma lower_underscored_spec (s : string) :
  toLowerCase (replaceAll "-" "_" s) = lower_underscored s.
Proof. unfold toLowerCase, replaceAll, lower_underscored; apply map_map. Qed.

(** The three shapes of a locale, one lemma each. *)
Lemma localeToSdkLocale_one (a : string) :
  segment a = true -> localeToSdkLocale a = toLowerCase a.
Proof.
  intros Ha; unfold localeToSdkLocale.
  rewrite replaceAll_segment by (assumption || reflexivity).
  now rewrite split_segment.
Qed.

Lemma localeToSdkLocale_two (a b : string) (s1 : ascii) :
  segment a = true -> segment b = true -> is_sep s1 = true ->
  localeToSdkLocale (a ++ String s1 b) = toLowerCase a ++ "_" ++ toUpperCase b.
Proof.
  intros Ha Hb H1; unfold localeToSdkLocale.
  rewrite underscore_cons by assumption.
  rewrite split_cons by assumption.
  rewrite replaceAll_segment by (assumption || reflexivity).
  now rewrite split_segment.
Qed.

Lemma localeToSdkLocale_three (a b c : string) (s1 s2 : ascii) :
  segment a = true -> segment b = true -> segment c = true ->
  is_sep s1 = true -> is_sep s2 = true ->
  localeToSdkLocale (a ++ String s1 (b ++ String s2 c))
  = toLowerCase a ++ "_" ++ b ++ "_" ++ toUpperCase c.
Proof.
  intros Ha Hb Hc H1 H2; unfold localeToSdkLocale.
  rewrite underscore_cons by assumption.
  rewrite underscore_cons by assumption.
  rewrite !split_cons by assumption.
  rewrite replaceAll_segment by (assumption || reflexivity).
  now rewrite split_segment.
Qed.

(** C3. After every '-' has become '_', a one-segment locale is
    lowercased as a whole; with two segments the first is lowercased and
    the second uppercased; with three the first is lowercased, the second
    kept as it is and the third uppercased.  Hence 'fr-ca' gives 'fr_CA',
    'zh-Hans-HK' gives 'zh_Hans_HK' and 'EN' gives 'en'. *)
Theorem localeToSdkLocale_by_segments (a b c : string) (s1 s2 : ascii) :
  segment a = true -> segment b = true -> segment c = true ->
  is_sep s1 = true -> is_sep s2 = true ->
  localeToSdkLocale a = toLowerCase a
  /\ localeToSdkLocale (a ++ String s1 b)
     = toLowerCase a ++ "_" ++ toUpperCase b
  /\ localeToSdkLocale (a ++ String s1 (b ++ String s2 c))
     = toLowerCase a ++ "_" ++ b ++ "_" ++ toUpperCase c
  /\ localeToSdkLocale "fr-ca" = "fr_CA"
  /\ localeToSdkLocale "zh-Hans-HK" = "zh_Hans_HK"
  /\ localeToSdkLocale "EN" = "en".
Proof.
  intros Ha Hb Hc H1 H2.
  split; [now apply localeToSdkLocale_one|].
  split; [now apply localeToSdkLocale_two|].
  split; [now apply localeToSdkLocale_three|].
  repeat split.
Qed.

Lemma localeToSdkLocale_by_segments_witness :
  localeToSdkLocale "de" = "de"
  /\ localeToSdkLocale "PT_br" = "pt_BR"
  /\ localeToSdkLocale "ZH_Hant-tw" = "zh_Hant_TW".
Proof.
  pose proof (localeToSdkLocale_by_segments "de" "x" "y" "-" "-"
                eq_refl eq_refl eq_refl eq_refl eq_refl) as (H1 & _).
  pose proof (localeToSdkLocale_by_segments "PT" "br" "" "_" "-"
                eq_refl eq_refl eq_refl eq_refl eq_refl) as (_ & H2 & _).
  pose proof (localeToSdkLocale_by_segments "ZH" "Hant" "tw" "_" "-"
                eq_refl eq_refl eq_refl eq_refl eq_refl) as (_ & _ & H3 & _).
  exact (conj H1 (conj H2 H3)).
Defined.

(** C10. With four or more segments, that is three or more separators,
    the result is the whole string with every '-' turned into '_' and
    every letter lowercased: only two and three parts are special. *)
Theorem localeToSdkLocale_four_or_more (locale : string) :
  3 <= count_sep locale ->
  4 <= List.length (split "_" (replaceAll "-" "_" locale))
  /\ localeToSdkLocale locale = toLowerCase (replaceAll "-" "_" locale)
  /\ localeToSdkLocale locale = lower_underscored locale.
Proof.
  intros H; pose proof (split_length locale) as Hl.
  assert (Hmain : localeToSdkLocale locale
                  = toLowerCase (replaceAll "-" "_" locale)).
  { unfold localeToSdkLocale.
    destruct (split "_" (replaceAll "-" "_" locale))
      as [|p0 [|p1 [|p2 [|p3 l]]]]; simpl in Hl; try lia; reflexivity. }
  repeat split; [lia | exact Hmain | now rewrite Hmain, lower_underscored_spec].
Qed.

Lemma localeToSdkLocale_four_or_more_witness :
  localeToSdkLocale "zh-Hans-HK-Var" = "zh_hans_hk_var".
Proof.
  pose proof (localeToSdkLocale_four_or_more "zh-Hans-HK-Var") as H.
  simpl in H. exact (proj2 (proj2 (H (le_n 3)))).
Defined.

(** C4. [normalizeLocale] turns every '_' into '-' and changes nothing
    else, so 'nb_NO' gives 'nb-NO'.  Going to the backend form and back
    returns a two-segment URL locale whose language is already lowercase
    and whose region is already uppercase, such as 'fr-CA'; it does not
    return 'FR-ca': the two functions are not inverse to each other. *)
Theorem normalizeLocale_round_trip (a b : string) :
  segment a = true -> segment b = true ->
  toLowerCase a = a -> toUpperCase b = b ->
  (forall l i,
      String.get i (normalizeLocale l)
      = option_map (fun c => if Ascii.eqb c "_" then "-"%char else c)
          (String.get i l))
  /\ normalizeLocale "nb_NO" = "nb-NO"
  /\ normalizeLocale (localeToSdkLocale (a ++ "-" ++ b)) = a ++ "-" ++ b
  /\ normalizeLocale (localeToSdkLocale "fr-CA") = "fr-CA"
  /\ normalizeLocale (localeToSdkLocale "FR-ca") <> "FR-ca".
Proof.
  intros Ha Hb La Ub; repeat split.
  - intros l i; apply get_map.
  - pose proof (localeToSdkLocale_two a b "-" Ha Hb eq_refl) as H.
    simpl in *; rewrite H, La, Ub.
    unfold normalizeLocale, replaceAll; rewrite map_append; simpl.
    fold (replaceAll "_" "-" a); fold (replaceAll "_" "-" b).
    now rewrite !replaceAll_segment by (assumption || reflexivity).
  - discriminate.
Qed.

Lemma normalizeLocale_round_trip_witness :
  normalizeLocale (localeToSdkLocale "pt-BR") = "pt-BR".
Proof.
  exact (proj1 (proj2 (proj2
           (normalizeLocale_round_trip "pt" "BR"
              eq_refl eq_refl eq_refl eq_refl)))).
Defined.

End LocaleFacts.

(** ** The signer *)

Section SignerFacts.
Import Js Runtime Hmac.
Local Open Scope string_scope.

Variable h : Host.
Variable config : OptimizelyGraphConfig.

(** What [createHmacAuthHeader] returns, by its locals. *)
Lemma createHmacAuthHeader_run (method path : string) (body : option string) :
  createHmacAuthHeader config method path body h
  = ([], Ok {| authorization :=
                 Wire.signed h config method path (default "" body) |}).
Proof. destruct body; reflexivity. Qed.

(** C1 (as amended). The signature input is the concatenation, without
    separators, of appKey, the method as it was passed, the path with
    query, the timestamp in decimal, the nonce and the base64 MD5 digest
    of the body; the signature is the base64 HMAC-SHA256 of that input
    keyed by the base64-decoded secret; the header is 'epi-hmac ' appKey
    ':' timestamp ':' nonce ':' signature.  The method is not uppercased
    by the signer: the header is the one of the specification exactly
    when the method is passed in uppercase. *)
Theorem createHmacAuthHeader_signature (method path body : string) :
  let timestamp := Date_now h in
  let nonce := Buffer.toString_hex (randomBytes h 16) in
  let input :=
    appKey config ++ method ++ path ++ string_of_N timestamp ++ nonce
      ++ Buffer.toString_base64 (Crypto.md5 (Buffer.from_utf8 body)) in
  let signature :=
    Buffer.toString_base64
      (Crypto.hmac_sha256 (Buffer.from_base64 (secret config))
         (Buffer.from_utf8 input)) in
  signatureData config method path timestamp nonce body = input
  /\ createHmacAuthHeader config method path (Some body) h
     = ([], Ok {| authorization :=
                    "epi-hmac " ++ appKey config ++ ":"
                      ++ string_of_N timestamp ++ ":" ++ nonce ++ ":"
                      ++ signature |})
  /\ createHmacAuthHeader config (JsString.toUpperCase method) path
       (Some body) h
     = ([], Ok {| authorization :=
                    Spec.computeAuthHeader config method path body
                      timestamp nonce |}).
Proof.
  cbv zeta; split; [reflexivity|].
  rewrite !createHmacAuthHeader_run; split; reflexivity.
Qed.

End SignerFacts.

Section SignerCases.
Import Js Runtime Hmac.
Local Open Scope string_scope.

(** C1, as first stated, fails: for the method 'put' the signer signs
    'put', not 'PUT', and the header is not the specification's. *)
Lemma createHmacAuthHeader_keeps_method_case :
  signatureData Mock.config "put" "/p" 1700000000000
    "2a2a2a2a2a2a2a2a2a2a2a2a2a2a2a2a" ""
  <> Spec.signatureInput Mock.config "put" "/p" "" 1700000000000
       "2a2a2a2a2a2a2a2a2a2a2a2a2a2a2a2a"
  /\ outcome (createHmacAuthHeader Mock.config "put" "/p" (Some "")) Mock.ok200
     <> Ok {| authorization :=
                Spec.computeAuthHeader Mock.config "put" "/p" ""
                  (Date_now Mock.ok200)
                  (Buffer.toString_hex (randomBytes Mock.ok200 16)) |}.
Proof. split; vm_compute; discriminate. Qed.

(** C2, as first stated, fails: a secret that is not base64 is decoded
    all the same (to the six bytes of 'notbase6') and a header comes out. *)
Lemma createHmacAuthHeader_accepts_bad_secret :
  Buffer.is_valid_base64 (secret Mock.bad_secret) = false
  /\ Buffer.from_base64 (secret Mock.bad_secret)
     = Buffer.from_base64 "notbase6"
  /\ outcome (createHmacAuthHeader Mock.bad_secret "PUT" "/p" (Some ""))
       Mock.ok200
     = Ok {| authorization :=
               "epi-hmac ak1:1700000000000:2a2a2a2a2a2a2a2a2a2a2a2a2a2a2a2a:xHWP7KW2CXCvYsUqx1tM3qHyOQHSGIPafgO7V0A0GyQ=" |}.
Proof. repeat split; vm_compute; reflexivity. Qed.

(** C2 (as amended). Computing the header never fails, whatever the
    secret: it is decoded leniently and the header is signed with the
    bytes that come out.  Building the configuration throws exactly when
    appKey or secret is absent or empty; when it returns, both are the
    values of the environment, and only the gateway URL has a default. *)
Theorem configuration_errors (h : Host) (config : OptimizelyGraphConfig)
    (method path : string) (body : option string) :
  (exists header,
      createHmacAuthHeader config method path body h = ([], Ok header)
      /\ authorization header
         = authHeader config (Date_now h)
             (Buffer.toString_hex (randomBytes h 16))
             (Crypto.hmac_sha256_base64 (Buffer.from_base64 (secret config))
                (signatureData config method path (Date_now h)
                   (Buffer.toString_hex (randomBytes h 16))
                   (default "" body))))
  /\ ((exists e, outcome getOptimizelyGraphConfig h = Throw e)
      <-> (env h "OPTIMIZELY_GRAPH_APP_KEY" = None
           \/ env h "OPTIMIZELY_GRAPH_APP_KEY" = Some ""
           \/ env h "OPTIMIZELY_GRAPH_SECRET" = None
           \/ env h "OPTIMIZELY_GRAPH_SECRET" = Some ""))
  /\ (forall c, outcome getOptimizelyGraphConfig h = Ok c <->
        (exists k s,
            env h "OPTIMIZELY_GRAPH_APP_KEY" = Some k /\ k <> ""
            /\ env h "OPTIMIZELY_GRAPH_SECRET" = Some s /\ s <> ""
            /\ c = {| gatewayUrl :=
                        match env h "OPTIMIZELY_GRAPH_GATEWAY_URL" with
                        | None | Some "" => "https://cg.optimizely.com"
                        | Some g => g
                        end;
                      appKey := k;
                      secret := s |})).
Proof.
  split; [|split].
  - eexists; split; [apply createHmacAuthHeader_run | reflexivity].
  - unfold outcome, getOptimizelyGraphConfig, bind, ask, throw, ret; simpl.
    destruct (env h "OPTIMIZELY_GRAPH_APP_KEY") as [k|] eqn:Ek;
      destruct (env h "OPTIMIZELY_GRAPH_SECRET") as [s|] eqn:Es; simpl;
      try destruct (String.eqb_spec k ""); try destruct (String.eqb_spec s "");
      subst; simpl; split;
      try (intros _; eauto 6; fail);
      try (intros [e He]; discriminate);
      intros [H|[H|[H|H]]]; congruence.
  - intros c.
    unfold outcome, getOptimizelyGraphConfig, bind, ask, throw, ret; simpl.
    destruct (env h "OPTIMIZELY_GRAPH_APP_KEY") as [k|] eqn:Ek;
      destruct (env h "OPTIMIZELY_GRAPH_SECRET") as [s|] eqn:Es; simpl;
      try destruct (String.eqb_spec k ""); try destruct (String.eqb_spec s "");
      subst; simpl; split;
      try discriminate;
      try (intros (k' & s' & H1 & H2 & H3 & H4 & _); congruence).
    + intros H; injection H as <-.
      exists k, s; repeat split; auto.
      destruct (env h "OPTIMIZELY_GRAPH_GATEWAY_URL") as [[|x g]|];
        reflexivity.
    + intros (k' & s' & H1 & H2 & H3 & H4 & ->).
      injection H1 as <-; injection H3 as <-.
      destruct (env h "OPTIMIZELY_GRAPH_GATEWAY_URL") as [[|x g]|];
        reflexivity.
Qed.

End SignerCases.

(** ** The request dispatcher *)

Section DispatcherFacts.
Import Js Runtime Hmac Wire.
Local Open Scope string_scope.

Variable h : Host.
Variable config : OptimizelyGraphConfig.

Lemma makeOptimizelyGraphRequest_run (endpoint : string)
    (options : RequestOptions) (u : URL) :
  URL_new h endpoint (gatewayUrl config) = Ok u ->
  makeOptimizelyGraphRequest config endpoint options h
  = ([request h config options u], fetch h (request h config options u)).
Proof.
  intros Hu; unfold makeOptimizelyGraphRequest, bind, new_URL.
  rewrite Hu, createHmacAuthHeader_run; reflexivity.
Qed.

Lemma makeOptimizelyGraphRequest_bad_url (endpoint : string)
    (options : RequestOptions) (e : exn) :
  URL_new h endpoint (gatewayUrl config) = Throw e ->
  makeOptimizelyGraphRequest config endpoint options h = ([], Throw e).
Proof.
  intros Hu; unfold makeOptimizelyGraphRequest, bind, new_URL.
  now rewrite Hu.
Qed.

Lemma obj_get_set (o : list (string * string)) (k v : string) :
  obj_get (obj_set o k v) k = Some v.
Proof.
  induction o as [|[k' v'] o IH]; simpl.
  - now rewrite String.eqb_refl.
  - destruct (String.eqb_spec k k') as [->|Hk]; simpl.
    + now rewrite String.eqb_refl.
    + destruct (String.eqb_spec k k'); [contradiction | exact IH].
Qed.

(** What is sent and what is signed, whatever the method: the body is
    attached unless the method is 'GET', and the body digested in the
    signature is the body of the options (the empty string by default). *)
Lemma makeOptimizelyGraphRequest_body (endpoint : string)
    (options : RequestOptions) (u : URL) :
  URL_new h endpoint (gatewayUrl config) = Ok u ->
  let method := default "GET" (opt_method options) in
  let body := default "" (opt_body options) in
  exists rq,
    sent (makeOptimizelyGraphRequest config endpoint options) h = [rq]
    /\ req_method rq = method
    /\ req_body rq = (if String.eqb method "GET" then None else Some body)
    /\ obj_get (req_headers rq) "authorization"
       = Some (signed h config method
                 (pathWithQuery (final_url options u)) body).
Proof.
  intros Hu method body; exists (request h config options u).
  unfold sent; rewrite (makeOptimizelyGraphRequest_run _ _ _ Hu).
  repeat split.
  - unfold request; simpl; fold method; now destruct (String.eqb method "GET").
  - unfold request; simpl; apply obj_get_set.
Qed.

End DispatcherFacts.

Section DispatcherCases.
Import Js Runtime Hmac Wire.
Local Open Scope string_scope.

(** C7, at a GET that is given the body 'abc': no body is attached to the
    request, yet the signature digests 'abc' and not the empty string.
    [makeHmacApiRequest] drops the body of a GET before it calls the
    dispatcher, and so signs the digest of the empty string. *)
Theorem makeOptimizelyGraphRequest_GET_digests_body :
  (exists rq,
      sent (makeOptimizelyGraphRequest Mock.config "/content/v2"
              Mock.get_with_body) Mock.ok200 = [rq]
      /\ req_method rq = "GET"
      /\ req_body rq = None
      /\ obj_get (req_headers rq) "authorization"
         = Some (signed Mock.ok200 Mock.config "GET" "/content/v2" "abc")
      /\ obj_get (req_headers rq) "authorization"
         <> Some (signed Mock.ok200 Mock.config "GET" "/content/v2" ""))
  /\ (exists rq c,
         outcome getOptimizelyGraphConfig Mock.ok200 = Ok c
         /\ sent (GraphUtils.makeHmacApiRequest "/content/v2"
                    {| GraphUtils.api_method := Some "GET";
                       GraphUtils.api_body := VString "abc";
                       GraphUtils.api_headers := None;
                       GraphUtils.api_queryParams := None |}) Mock.ok200
            = [rq]
         /\ req_body rq = None
         /\ obj_get (req_headers rq) "authorization"
            = Some (signed Mock.ok200 c "GET" "/content/v2" "")).
Proof.
  split.
  - eexists; split; [reflexivity|].
    repeat split; vm_compute; discriminate.
  - do 2 eexists; split; [reflexivity|].
    split; [reflexivity|]. split; reflexivity.
Qed.

End DispatcherCases.

(** ** Synonym upload *)

Section UploadFacts.
Import Js Runtime Hmac Wire.
Local Open Scope string_scope.

Variable h : Host.
Variable config : OptimizelyGraphConfig.

(** The run of [uploadSynonyms], case by case. *)
Lemma uploadSynonyms_run (synonyms : string) (options : SynonymOptions) :
  match URL_new h "/resources/synonyms" (gatewayUrl config) with
  | Throw e => uploadSynonyms config synonyms options h = ([], Ok (upload_failed e))
  | Ok u =>
      let rq := request h config (put_options synonyms options) u in
      exists res,
        uploadSynonyms config synonyms options h = ([rq], Ok res)
        /\ match fetch h rq with
           | Throw e => res = upload_failed e
           | Ok r =>
               success res = ok r
               /\ (ok r = false ->
                   message res = "Network error"
                   \/ message res = "Failed to upload synonyms")
           end
  end.
Proof.
  unfold uploadSynonyms, try_catch, bind; cbv zeta.
  destruct (URL_new h "/resources/synonyms" (gatewayUrl config)) as [u|e] eqn:Hu.
  - pose proof (makeOptimizelyGraphRequest_run h config _
                  (put_options synonyms options) u Hu) as Hrun.
    unfold put_options in Hrun at 1; rewrite Hrun; clear Hrun.
    set (rq := request h config (put_options synonyms options) u).
    destruct (fetch h rq) as [r|e]; [|eexists; split; reflexivity].
    destruct (ok r) eqn:Hok; [eexists; split; [reflexivity|]; simpl; split; auto; discriminate|].
    unfold lift; destruct (text r) as [t|e]; eexists; (split; [reflexivity|]);
      simpl; auto.
  - rewrite (makeOptimizelyGraphRequest_bad_url h config _ _ e Hu).
    reflexivity.
Qed.

(** C8. [uploadSynonyms] always returns a result {success, message,
    error?} and never throws.  When the gateway URL parses, it sends the
    PUT of the upload, and [success] is true exactly when the response to
    that request has a status from 200 to 299; a success has no error.
    A response with another status whose body can be read gives success
    false with the status, its reason and the body for error.  An error
    of the transport (or of the URL parser) is not thrown: it is turned
    into success false, the message 'Network error' and the message of
    the error. *)
Theorem uploadSynonyms_result (synonyms : string) (options : SynonymOptions) :
  (exists res, outcome (uploadSynonyms config synonyms options) h = Ok res)
  /\ (forall u,
         URL_new h "/resources/synonyms" (gatewayUrl config) = Ok u ->
         let rq := request h config (put_options synonyms options) u in
         sent (uploadSynonyms config synonyms options) h = [rq]
         /\ (forall r,
                fetch h rq = Ok r ->
                exists res,
                  outcome (uploadSynonyms config synonyms options) h = Ok res
                  /\ (success res = true <-> (200 <= status r <= 299)%N)
                  /\ (success res = true -> error res = None)
                  /\ (forall t,
                         success res = false -> text r = Ok t ->
                         res = {| success := false;
                                  message := "Failed to upload synonyms";
                                  error :=
                                    Some (string_of_N (status r) ++ " "
                                            ++ statusText r ++ " - " ++ t) |}))
         /\ (forall e,
                fetch h rq = Throw e ->
                outcome (uploadSynonyms config synonyms options) h
                = Ok {| success := false;
                        message := "Network error";
                        error := Some (message_or "Unknown error" e) |}))
  /\ (forall e,
         URL_new h "/resources/synonyms" (gatewayUrl config) = Throw e ->
         uploadSynonyms config synonyms options h
         = ([], Ok {| success := false;
                      message := "Network error";
                      error := Some (message_or "Unknown error" e) |})).
Proof.
  unfold outcome, sent, uploadSynonyms, try_catch, bind; cbv zeta.
  destruct (URL_new h "/resources/synonyms" (gatewayUrl config)) as [u|e] eqn:Hu.
  - pose proof (makeOptimizelyGraphRequest_run h config _
                  (put_options synonyms options) u Hu) as Hrun.
    unfold put_options in Hrun at 1; rewrite Hrun; clear Hrun.
    set (rq := request h config (put_options synonyms options) u).
    assert (Hok : forall r, ok r = true <-> (200 <= status r <= 299)%N).
    { intros r; unfold ok; rewrite andb_true_iff, !N.leb_le; tauto. }
    split; [|split; [|discriminate]].
    + destruct (fetch h rq) as [r|e]; [destruct (ok r)|];
        [| unfold lift; destruct (text r) |]; cbn; eauto.
    + intros u' Hu'; injection Hu' as <-; fold rq; split; [|split].
      * destruct (fetch h rq) as [r|e]; [destruct (ok r)|];
          [| unfold lift; destruct (text r) |]; reflexivity.
      * intros r ->; specialize (Hok r).
        destruct (ok r); unfold lift; [|destruct (text r) as [t|e]];
          cbn; eexists; (split; [reflexivity|]); cbn;
          (split; [rewrite <- Hok; tauto|]);
          (split; [congruence|]); intros t'; try discriminate.
        intros _ Ht; now injection Ht as <-.
      * now intros e ->.
  - rewrite (makeOptimizelyGraphRequest_bad_url h config _ _ e Hu); cbn.
    split; [eauto|]; split; [discriminate|].
    intros e' He'; now injection He' as <-.
Qed.

(** C9. The upload sends one PUT for every synonym text, the empty one
    included.  With slot 1 and routing 'en', on a gateway against which
    the resource path resolves to itself, the path with query is
    /resources/synonyms?synonym_slot=1&language_routing=en, the body is
    the synonym text itself, and the request carries an epi-hmac
    authorization header signed over that method, path and body. *)
Theorem uploadSynonyms_request (synonyms : string) (u : URL) :
  URL_new h "/resources/synonyms" (gatewayUrl config) = Ok u ->
  url_pathname u = "/resources/synonyms" ->
  url_searchParams u = [] ->
  url_fragment u = None ->
  let path := "/resources/synonyms?synonym_slot=1&language_routing=en" in
  let auth := signed h config "PUT" path synonyms in
  sent (uploadSynonyms config synonyms
          {| synonymSlot := Some Slot1; languageRouting := Some "en" |}) h
  = [ {| req_url := url_origin u ++ path;
         req_method := "PUT";
         req_headers := [("Content-Type", "text/plain");
                         ("authorization", auth)];
         req_body := Some synonyms |} ]
  /\ String.prefix "epi-hmac " auth = true.
Proof.
  intros Hu Hp Hs Hf path auth; split;
    [|subst auth; unfold signed, authHeader; cbv zeta; simpl;
      now destruct (appKey config)].
  pose proof (uploadSynonyms_run synonyms
                {| synonymSlot := Some Slot1; languageRouting := Some "en" |})
    as Hrun.
  rewrite Hu in Hrun; cbv zeta in Hrun; destruct Hrun as (res & Hrun & _).
  unfold sent; rewrite Hrun; simpl fst.
  unfold request, final_url, pathWithQuery, url_href, url_search; simpl.
  unfold searchParams_append; simpl; rewrite Hp, Hs, Hf; simpl.
  reflexivity.
Qed.

End UploadFacts.

Section UploadCases.
Import Js Runtime Hmac Wire.
Local Open Scope string_scope.

Lemma uploadSynonyms_request_witness :
  sent (uploadSynonyms Mock.config ""
          {| synonymSlot := Some Slot1; languageRouting := Some "en" |})
    Mock.ok200
  = [ {| req_url := "https://cg.example.com/resources/synonyms?synonym_slot=1&language_routing=en";
         req_method := "PUT";
         req_headers :=
           [("Content-Type", "text/plain");
            ("authorization",
             signed Mock.ok200 Mock.config "PUT"
               "/resources/synonyms?synonym_slot=1&language_routing=en" "")];
         req_body := Some "" |} ].
Proof.
  exact (proj1 (uploadSynonyms_request Mock.ok200 Mock.config "" _
                  eq_refl eq_refl eq_refl eq_refl)).
Defined.

Lemma uploadSynonyms_result_witness :
  sent (uploadSynonyms Mock.config "a, b"
          {| synonymSlot := None; languageRouting := None |}) Mock.ok200
  = [request Mock.ok200 Mock.config
       (put_options "a, b" {| synonymSlot := None; languageRouting := None |})
       {| url_origin := "https://cg.example.com";
          url_pathname := "/resources/synonyms";
          url_query := None;
          url_fragment := None;
          url_searchParams := [] |}]
  /\ exists res,
      outcome (uploadSynonyms Mock.config "a, b"
                 {| synonymSlot := None; languageRouting := None |}) Mock.ok200
      = Ok res
      /\ success res = true /\ error res = None.
Proof.
  destruct (uploadSynonyms_result Mock.ok200 Mock.config "a, b"
              {| synonymSlot := None; languageRouting := None |})
    as (_ & H & _).
  destruct (H _ eq_refl) as (Hsent & Hr & _).
  split; [exact Hsent|].
  destruct (Hr _ eq_refl) as (res & Hres & Hiff & Herr & _).
  assert (Hs : success res = true) by (apply Hiff; cbn; lia).
  exists res; split; [exact Hres|]; split; [exact Hs | exact (Herr Hs)].
Defined.

(** The end-to-end scenario of the specification (section 8, property 8). *)
Example uploadSynonyms_scenario :
  uploadSynonyms Mock.config "laptop, computer, pc"
    {| synonymSlot := Some Slot1; languageRouting := Some "en" |} Mock.ok200
  = ([ {| req_url := "https://cg.example.com/resources/synonyms?synonym_slot=1&language_routing=en";
          req_method := "PUT";
          req_headers :=
            [("Content-Type", "text/plain");
             ("authorization",
              "epi-hmac ak1:1700000000000:2a2a2a2a2a2a2a2a2a2a2a2a2a2a2a2a:Mi1E8mUmDsYsWa4zejn3oMpLIhwWhH/fpjZ2p1ak/6E=")];
          req_body := Some "laptop, computer, pc" |} ],
      Ok {| success := true;
            message := "Synonyms successfully uploaded to slot 1 for language routing: en";
            error := None |}).
Proof. vm_compute. reflexivity. Qed.

(** The two failures: a status outside 200..299, and no response at all. *)
Example uploadSynonyms_failures :
  outcome (uploadSynonyms Mock.config "a, b"
             {| synonymSlot := None; languageRouting := None |}) Mock.bad_gateway
  = Ok {| success := false;
          message := "Failed to upload synonyms";
          error := Some "502 Bad Gateway - upstream down" |}
  /\ outcome (uploadSynonyms Mock.config "a, b"
                {| synonymSlot := None; languageRouting := None |}) Mock.offline
     = Ok {| success := false;
             message := "Network error";
             error := Some "fetch failed" |}.
Proof. split; vm_compute; reflexivity. Qed.

End UploadCases.

(** ** Content search *)

Section SearchFacts.
Import Js Runtime Hmac GraphUtils Wire.
Local Open Scope string_scope.

Variable h : Host.

Lemma get_ok (v : value) (k : string) :
  nullish v = false -> get v k = Ok (opt_get v k).
Proof. unfold get; now intros ->. Qed.

Lemma get_throws (v : value) (k : string) (e : exn) :
  get v k = Throw e -> described e.
Proof.
  unfold get; destruct (nullish v); [|discriminate].
  intros H; injection H as <-; simpl; discriminate.
Qed.

Lemma get_inv (v r : value) (k : string) :
  get v k = Ok r -> nullish v = false /\ r = opt_get v k.
Proof.
  unfold get; destruct (nullish v); [discriminate|].
  intros H; injection H as <-; auto.
Qed.

(** [transformContentItem] on an object, an array or a primitive. *)
Lemma transformContentItem_run (item : value) :
  nullish item = false ->
  let _metadata := opt_get item "_metadata" in
  let url_default := opt_get (opt_get _metadata "url") "default" in
  let url_base := opt_get (opt_get _metadata "url") "base" in
  let finalUrl := or (opt_get item "Url") url_default in
  transformContentItem item h
  = ([], Ok {| guid := or (or (opt_get _metadata "key") (opt_get item "_id"))
                          (opt_get (opt_get item "ContentLink") "GuidValue");
               name := or (or (or (opt_get item "Name") (opt_get item "PageName"))
                              (opt_get _metadata "displayName"))
                          (VString "Untitled");
               contentType :=
                 or (or (opt_get (opt_get item "ContentType") "0")
                        (opt_get (opt_get _metadata "types") "0"))
                    (VString "Unknown");
               GraphUtils.status := opt_get item "Status";
               language := or (or (opt_get (opt_get item "Language") "Name")
                                  (opt_get _metadata "locale"))
                              (VString "Unknown");
               url := if truthy url_base && truthy url_default then
                        match URL_new h (toString url_default) (toString url_base) with
                        | Ok u => VString (url_href u)
                        | Throw _ => finalUrl
                        end
                      else finalUrl;
               score := opt_get (opt_get item "_ranking") "semantic";
               modified := opt_get item "Modified";
               id := opt_get item "_id" |}).
Proof.
  intros Hn; cbv zeta.
  unfold transformContentItem, bind, lift, try_catch, new_URL, ret.
  rewrite !(get_ok item) by assumption.
  destruct (truthy (opt_get (opt_get (opt_get item "_metadata") "url") "base")
            && truthy (opt_get (opt_get (opt_get item "_metadata") "url") "default"));
    [destruct (URL_new h _ _)|]; reflexivity.
Qed.

Lemma transformContentItem_silent (item : value) :
  fst (transformContentItem item h) = [].
Proof.
  destruct (nullish item) eqn:Hn.
  - unfold transformContentItem, bind, lift, get; now rewrite Hn.
  - now rewrite transformContentItem_run.
Qed.

Lemma transformContentItem_throws (item : value) (e : exn) :
  outcome (transformContentItem item) h = Throw e -> described e.
Proof.
  unfold outcome; destruct (nullish item) eqn:Hn.
  - unfold transformContentItem, bind, lift, get; rewrite Hn; simpl.
    intros H; injection H as <-; simpl; discriminate.
  - now rewrite transformContentItem_run.
Qed.

(** A map over computations that send nothing sends nothing, and throws
    only what one of them throws. *)
Lemma mapM_silent {A B} (f : A -> IO B) (l : list A) :
  (forall x, fst (f x h) = []) -> fst (mapM f l h) = [].
Proof.
  intros Hf; induction l as [|x l IH]; simpl; [reflexivity|].
  unfold bind; specialize (Hf x); destruct (f x h) as [t [y|e]]; simpl in *;
    subst; [|reflexivity].
  destruct (mapM f l h) as [t' [ys|e]]; simpl in *; subst; reflexivity.
Qed.

Lemma mapM_throws {A B} (f : A -> IO B) (l : list A) (e : exn) :
  (forall x e, outcome (f x) h = Throw e -> described e) ->
  outcome (mapM f l) h = Throw e -> described e.
Proof.
  intros Hf; unfold outcome in *; induction l as [|x l IH]; simpl;
    [discriminate|].
  unfold bind; specialize (Hf x); destruct (f x h) as [t [y|e']]; simpl in *.
  - destruct (mapM f l h) as [t' [ys|e']]; simpl in *; [discriminate|].
    intros H; injection H as <-; auto.
  - intros H; injection H as <-; auto.
Qed.

Lemma mapM_pair {A B} (f : A -> IO B) (l : list A) :
  (forall x, fst (f x h) = []) ->
  mapM f l h = ([], outcome (mapM f l) h).
Proof.
  intros Hf; unfold outcome; rewrite <- (mapM_silent f l Hf).
  now destruct (mapM f l h).
Qed.

Variable config : OptimizelyGraphConfig.
Variable query : string.
Variable variables : value.

(** The run of [searchContent], case by case. *)
Lemma searchContent_run :
  match URL_new h "/content/v2" (gatewayUrl config) with
  | Throw e => searchContent config query variables h = ([], Ok (search_failed e))
  | Ok u =>
      let rq := request h config (post_options query variables) u in
      exists res,
        searchContent config query variables h = ([rq], Ok res)
        /\ match fetch h rq with
           | Throw e => res = search_failed e
           | Ok r =>
               if ok r then
                 match json r with
                 | Throw e => res = search_failed e
                 | Ok result => read_result h result res
                 end
               else
                 match text r with
                 | Throw e => res = search_failed e
                 | Ok errorText =>
                     res = {| items := [];
                              error :=
                                Some ("GraphQL query failed: "
                                        ++ string_of_N (Runtime.status r) ++ " "
                                        ++ statusText r ++ " - " ++ errorText) |}
                 end
           end
  end.
Proof.
  unfold searchContent, makeGraphQLRequest, try_catch, bind, lift, ret;
    cbv zeta.
  destruct (URL_new h "/content/v2" (gatewayUrl config)) as [u|e] eqn:Hu.
  2: { now rewrite (makeOptimizelyGraphRequest_bad_url h config _ _ e Hu). }
  pose proof (makeOptimizelyGraphRequest_run h config _
                (post_options query variables) u Hu) as Hrun.
  unfold post_options in Hrun at 1; rewrite Hrun; clear Hrun.
  set (rq := request h config (post_options query variables) u).
  destruct (fetch h rq) as [r|e]; [|eexists; split; reflexivity].
  destruct (ok r); cbv beta iota delta [negb].
  2: { destruct (text r) as [t|e]; eexists; split; reflexivity. }
  destruct (json r) as [result|e]; [|eexists; split; reflexivity].
  unfold read_result; destruct (get result "errors") as [errors|e] eqn:He;
    [|eexists; split; reflexivity].
  cbv beta iota; destruct (truthy errors); cbv beta iota.
  - destruct (as_array "result.errors" errors) as [errs|e];
      [|eexists; split; reflexivity].
    cbv beta iota.
    assert (Hm : fst (mapM (fun e => lift (get e "message")) errs h) = [])
      by (apply mapM_silent; reflexivity).
    unfold outcome, lift in *.
    destruct (mapM _ errs h) as [t [messages|e]]; simpl in Hm; subst t;
      eexists; split; reflexivity.
  - apply get_inv in He as [Hn _].
    rewrite (get_ok result "data" Hn); cbv beta iota.
    fold (extracted result).
    destruct (as_array "items" (extracted result)) as [raw|e];
      [|eexists; split; reflexivity].
    cbv beta iota.
    pose proof (mapM_silent transformContentItem raw
                  transformContentItem_silent) as Hm.
    unfold outcome.
    destruct (mapM _ raw h) as [t [its|e]]; simpl in Hm; subst t;
      eexists; split; reflexivity.
Qed.

Lemma described_message (e : exn) (fallback : string) :
  described e -> fallback <> "" -> message_or fallback e <> "".
Proof. destruct e; simpl; auto. Qed.

Lemma search_failed_error (e : exn) :
  described e ->
  items (search_failed e) = []
  /\ exists msg, error (search_failed e) = Some msg /\ msg <> "".
Proof.
  intros He; split; [reflexivity|]; eexists; split; [reflexivity|].
  apply described_message; [assumption | discriminate].
Qed.

Lemma messages_throw (errs : list value) (e : exn) :
  outcome (mapM (fun e => lift (get e "message")) errs) h = Throw e ->
  described e.
Proof.
  apply mapM_throws; intros x e'; unfold outcome, lift; simpl.
  apply get_throws.
Qed.

(** Every element of an array that is an object, an array or a primitive
    is normalized. *)
Lemma mapM_transformContentItem_total (raw : list value) :
  Forall (fun v => nullish v = false) raw ->
  exists its,
    outcome (mapM transformContentItem raw) h = Ok its
    /\ List.length its = List.length raw.
Proof.
  unfold outcome; induction 1 as [|x raw Hx _ (its & IH & Hlen)]; simpl.
  - now exists [].
  - unfold bind; rewrite (transformContentItem_run x Hx); cbv zeta.
    destruct (mapM transformContentItem raw h) as [t mr]; simpl in IH; subst mr.
    eexists; split; [reflexivity | simpl; now rewrite Hlen].
Qed.

Lemma read_identified (result : value) (res : SearchResult) :
  read_result h result res -> Forall (fun item => truthy (guid item) = true) (items res).
Proof.
  unfold read_result; intros H.
  repeat match type of H with
         | match ?x with _ => _ end => destruct x
         | res = _ => subst res; simpl
         end; try constructor.
  apply Forall_forall; intros item Hin; now apply filter_In in Hin.
Qed.

(** C5. [searchContent] never throws.  When the endpoint parses it sends
    the POST of the query and reads the response to it.  A response with
    a status outside 200..299 gives no items and the error 'GraphQL query
    failed: ' with the status, its reason and the body; a response whose
    parsed body has an [errors] array gives no items and a non-empty
    error, 'GraphQL errors: ' with the messages when these can be read.
    Otherwise the items are read from [Content.items], else from
    [_Content.items], else from the empty list, normalized, and kept when
    they have an identifier.  A failure of the transport, of the URL
    parser or of the reading of a body is not thrown either: it gives no
    items and the message of the failure for error. *)
Theorem searchContent_result :
  (exists res, outcome (searchContent config query variables) h = Ok res)
  /\ (forall u,
         URL_new h "/content/v2" (gatewayUrl config) = Ok u ->
         let rq := request h config (post_options query variables) u in
         sent (searchContent config query variables) h = [rq]
         /\ (forall e,
                fetch h rq = Throw e ->
                outcome (searchContent config query variables) h
                = Ok {| items := [];
                        error :=
                          Some (message_or
                                  "Unknown error during content search" e) |})
         /\ (forall r,
                fetch h rq = Ok r ->
                (ok r = false ->
                 (forall t,
                     text r = Ok t ->
                     outcome (searchContent config query variables) h
                     = Ok {| items := [];
                             error :=
                               Some ("GraphQL query failed: "
                                       ++ string_of_N (Runtime.status r) ++ " "
                                       ++ statusText r ++ " - " ++ t) |})
                 /\ (forall e,
                        text r = Throw e ->
                        outcome (searchContent config query variables) h
                        = Ok {| items := [];
                                error :=
                                  Some (message_or
                                          "Unknown error during content search"
                                          e) |}))
                /\ (forall result errs,
                       ok r = true -> json r = Ok result ->
                       get result "errors" = Ok (VArray errs) ->
                       exists msg,
                         outcome (searchContent config query variables) h
                         = Ok {| items := []; error := Some msg |}
                         /\ msg <> ""
                         /\ (forall messages,
                                outcome
                                  (mapM (fun e => lift (get e "message")) errs)
                                  h = Ok messages ->
                                msg = "GraphQL errors: " ++ join ", " messages))
                /\ (forall result errors raw,
                       ok r = true -> json r = Ok result ->
                       get result "errors" = Ok errors ->
                       truthy errors = false ->
                       let content :=
                         opt_get (opt_get (opt_get result "data") "Content")
                           "items" in
                       let _content :=
                         opt_get (opt_get (opt_get result "data") "_Content")
                           "items" in
                       (if truthy content then content
                        else if truthy _content then _content else VArray [])
                       = VArray raw ->
                       (forall its,
                           outcome (mapM transformContentItem raw) h = Ok its ->
                           outcome (searchContent config query variables) h
                           = Ok {| items :=
                                     filter (fun item => truthy (guid item))
                                       its;
                                   error := None |})
                       /\ (Forall (fun v => nullish v = false) raw ->
                           exists its,
                             outcome (mapM transformContentItem raw) h = Ok its
                             /\ List.length its = List.length raw))))
  /\ (forall e,
         URL_new h "/content/v2" (gatewayUrl config) = Throw e ->
         searchContent config query variables h
         = ([], Ok {| items := [];
                      error :=
                        Some (message_or
                                "Unknown error during content search" e) |})).
Proof.
  pose proof searchContent_run as Hrun; unfold outcome, sent.
  destruct (URL_new h "/content/v2" (gatewayUrl config)) as [u|e].
  2: { rewrite Hrun; split; [cbn; eauto|]; split; [discriminate|].
       intros e' He'; now injection He' as <-. }
  cbv zeta in Hrun; destruct Hrun as (res & -> & Hres).
  split; [cbn; eauto|]; split; [|discriminate].
  intros u' Hu'; injection Hu' as <-; cbv zeta; cbn [fst snd].
  split; [reflexivity|]; split.
  { intros e He; rewrite He in Hres; now subst res. }
  intros r Hf; rewrite Hf in Hres; split; [|split].
  - intros Hok; rewrite Hok in Hres; split.
    + intros t Ht; rewrite Ht in Hres; now subst res.
    + intros e He; rewrite He in Hres; now subst res.
  - intros result errs Hok Hj He; rewrite Hok, Hj in Hres.
    unfold read_result in Hres; rewrite He in Hres; simpl in Hres.
    destruct (outcome (mapM _ errs) h) as [messages|e] eqn:Hm; subst res.
    + eexists; split; [reflexivity|]; split; [discriminate|].
      intros messages' Hm'; unfold outcome in Hm; rewrite Hm in Hm'.
      now injection Hm' as <-.
    + eexists; split; [reflexivity|]; split.
      * apply described_message; [|discriminate].
        now apply messages_throw with errs.
      * intros messages' Hm'; unfold outcome in Hm; rewrite Hm in Hm'.
        discriminate.
  - intros result errors raw Hok Hj He Hfalsy Hraw.
    split; [|apply mapM_transformContentItem_total].
    intros its Hits; rewrite Hok, Hj in Hres.
    unfold read_result in Hres; rewrite He, Hfalsy in Hres.
    unfold extracted, or in Hres.
    destruct (truthy (opt_get (opt_get (opt_get result "data") "Content") "items"))
      eqn:Hc; rewrite ?Hc in Hres;
      [|destruct (truthy (opt_get (opt_get (opt_get result "data") "_Content") "items"))
          eqn:Hu; rewrite ?Hu in Hres];
      [rewrite Hraw in Hres | rewrite Hraw in Hres | injection Hraw as <-];
      cbv beta iota delta [as_array outcome truthy] in Hres;
      rewrite Hits in Hres; now subst res.
Qed.

(** C6. On an item that is not null, [transformContentItem] takes as
    identifier the metadata key, else the top-level id, else the GUID of
    the content link, and as name the Name field, else the PageName field,
    else the metadata display name, else 'Untitled'.  Every item that
    [searchContent] returns has an identifier. *)
Theorem transformContentItem_priority (item : value) :
  nullish item = false ->
  let key := opt_get (opt_get item "_metadata") "key" in
  let _id := opt_get item "_id" in
  let GuidValue := opt_get (opt_get item "ContentLink") "GuidValue" in
  let Name := opt_get item "Name" in
  let PageName := opt_get item "PageName" in
  let displayName := opt_get (opt_get item "_metadata") "displayName" in
  (exists normalized,
      transformContentItem item h = ([], Ok normalized)
      /\ guid normalized
         = (if truthy key then key else if truthy _id then _id else GuidValue)
      /\ name normalized
         = (if truthy Name then Name
            else if truthy PageName then PageName
            else if truthy displayName then displayName
            else VString "Untitled"))
  /\ (exists res,
         outcome (searchContent config query variables) h = Ok res
         /\ Forall (fun returned => truthy (guid returned) = true) (items res)).
Proof.
  intros Hn key _id GuidValue Name PageName displayName; split.
  - eexists; split; [apply (transformContentItem_run item Hn)|].
    cbv zeta; simpl guid; simpl name; unfold or.
    fold key _id GuidValue Name PageName displayName.
    split.
    + destruct (truthy key) eqn:Hk; [now rewrite Hk | reflexivity].
    + destruct (truthy Name) eqn:HN; [now rewrite !HN|].
      destruct (truthy PageName) eqn:HP; [now rewrite !HP | reflexivity].
  - pose proof searchContent_run as Hrun; unfold outcome.
    destruct (URL_new h "/content/v2" (gatewayUrl config)) as [u|e].
    2: { rewrite Hrun; eexists; split; [reflexivity | constructor]. }
    cbv zeta in Hrun; destruct Hrun as (res & -> & Hres).
    exists res; split; [reflexivity|].
    repeat match type of Hres with
           | match ?x with _ => _ end => destruct x
           | res = _ => subst res; simpl; try constructor
           end.
    eapply read_identified; eassumption.
Qed.

End SearchFacts.

Section SearchCases.
Import Js Runtime Hmac GraphUtils Wire.
Local Open Scope string_scope.

Lemma searchContent_result_witness :
  (exists res,
      outcome (searchContent Mock.config "query Q" VUndefined) Mock.three_items
      = Ok res
      /\ List.map guid (items res) = [VString "k1"; VString "g2"]
      /\ List.map name (items res) = [VString "Home"; VString "Start"]
      /\ error res = None)
  /\ outcome (searchContent Mock.config "query Q" VUndefined) Mock.bad_gateway
     = Ok {| items := [];
             error :=
               Some "GraphQL query failed: 502 Bad Gateway - upstream down" |}
  /\ exists msg,
      outcome (searchContent Mock.config "query Q" VUndefined)
        Mock.graphql_errors
      = Ok {| items := []; error := Some msg |}
      /\ msg = "GraphQL errors: Unknown field, Syntax".
Proof.
  split; [|split].
  - destruct (searchContent_result Mock.three_items Mock.config "query Q"
                VUndefined) as (_ & H & _).
    destruct (H _ eq_refl) as (_ & _ & Hr).
    destruct (Hr _ eq_refl) as (_ & _ & Hitems).
    destruct (Hitems _ _ [Mock.keyed_item; Mock.linked_item; Mock.anonymous_item]
                eq_refl eq_refl eq_refl eq_refl eq_refl) as (Hout & _).
    eexists; split; [exact (Hout _ eq_refl)|].
    repeat split.
  - destruct (searchContent_result Mock.bad_gateway Mock.config "query Q"
                VUndefined) as (_ & H & _).
    destruct (H _ eq_refl) as (_ & _ & Hr).
    destruct (Hr _ eq_refl) as (Hbad & _).
    exact (proj1 (Hbad eq_refl) _ eq_refl).
  - destruct (searchContent_result Mock.graphql_errors Mock.config "query Q"
                VUndefined) as (_ & H & _).
    destruct (H _ eq_refl) as (_ & _ & Hr).
    destruct (Hr _ eq_refl) as (_ & Herrors & _).
    destruct (Herrors _ _ eq_refl eq_refl eq_refl) as (msg & Hout & _ & Hmsg).
    exists msg; split; [exact Hout | exact (Hmsg _ eq_refl)].
Defined.

Lemma transformContentItem_priority_witness :
  exists normalized,
    transformContentItem Mock.linked_item Mock.ok200 = ([], Ok normalized)
    /\ guid normalized = VString "g2"
    /\ name normalized = VString "Start".
Proof.
  destruct (transformContentItem_priority Mock.ok200 Mock.config "" VUndefined
              Mock.linked_item eq_refl) as [(normalized & H1 & H2 & H3) _].
  exists normalized; repeat split; assumption.
Defined.

(** Items of both shapes are kept with their identifier, the item without
    identifier is dropped (section 8, property 6); GraphQL errors are
    joined into the error (property 5). *)
Example searchContent_three_items :
  exists a b,
    outcome (searchContent Mock.config "query Q" VUndefined) Mock.three_items
    = Ok {| items := [a; b]; error := None |}
    /\ guid a = VString "k1" /\ name a = VString "Home"
    /\ guid b = VString "g2" /\ name b = VString "Start".
Proof. do 2 eexists; split; [vm_compute; reflexivity|]; repeat split. Qed.

Example searchContent_graphql_errors :
  outcome (searchContent Mock.config "query Q" VUndefined) Mock.graphql_errors
  = Ok {| items := [];
          error := Some "GraphQL errors: Unknown field, Syntax" |}.
Proof. vm_compute. reflexivity. Qed.

Example searchContent_http_error :
  outcome (searchContent Mock.config "query Q" VUndefined) Mock.bad_gateway
  = Ok {| items := [];
          error := Some "GraphQL query failed: 502 Bad Gateway - upstream down" |}.
Proof. vm_compute. reflexivity. Qed.

End SearchCases.



(** ** Validation helpers *)

Section TextFacts.
Import Text.
Local Open Scope string_scope.

Lemma length_app (s t : string) :
  String.length (s ++ t) = String.length s + String.length t.
Proof. induction s as [|c s IH]; simpl; [reflexivity | now rewrite IH]. Qed.

Lemma length_rev (s : string) : String.length (rev s) = String.length s.
Proof.
  induction s as [|c s IH]; simpl; [reflexivity|].
  rewrite length_app, IH; simpl; lia.
Qed.

Lemma length_drop (n : nat) (s : string) :
  String.length (drop n s) <= String.length s.
Proof.
  revert s; induction n as [|n IH]; intros [|c s]; simpl; auto.
Qed.

Lemma contains_app (c : ascii) (s t : string) :
  contains c (s ++ t) = contains c s || contains c t.
Proof.
  induction s as [|x s IH]; simpl; [reflexivity|].
  now rewrite IH, orb_assoc.
Qed.

Lemma contains_rev (c : ascii) (s : string) : contains c (rev s) = contains c s.
Proof.
  induction s as [|x s IH]; simpl; [reflexivity|].
  rewrite contains_app, IH; simpl; rewrite orb_false_r; apply orb_comm.
Qed.

Lemma contains_drop (c : ascii) (n : nat) (s : string) :
  contains c (drop n s) = true -> contains c s = true.
Proof.
  revert s; induction n as [|n IH]; intros [|x s]; simpl; auto.
  intros H; rewrite (IH s H); apply orb_true_r.
Qed.

Lemma after_token_drop (tokens : list string) (s r : string) :
  after_token tokens s = Some r -> exists n, r = drop n s.
Proof.
  induction tokens as [|t tokens IH]; simpl; [discriminate|].
  destruct (String.prefix t s); [|exact IH].
  intros H; injection H as <-; eauto.
Qed.

(** Stripping tokens only drops characters from the front. *)
Lemma strip_leading_drop (tokens : list string) (fuel : nat) (s : string) :
  exists n, strip_leading tokens fuel s = drop n s.
Proof.
  revert s; induction fuel as [|fuel IH]; intros s; simpl; [now exists 0|].
  destruct (after_token tokens s) as [r|] eqn:E; [|now exists 0].
  apply after_token_drop in E as [n ->].
  destruct (IH (drop n s)) as [m ->].
  exists (n + m); clear; revert s; induction n as [|n IHn]; intros s; simpl.
  - reflexivity.
  - destruct s as [|c s]; [now destruct m | apply IHn].
Qed.

Lemma trim_shorter (s : string) : String.length (trim s) <= String.length s.
Proof.
  unfold trim, trimEnd, trimStart.
  destruct (strip_leading_drop whitespace (String.length s) s) as [n ->].
  set (t := drop n s).
  destruct (strip_leading_drop (List.map rev whitespace)
              (String.length t) (rev t)) as [m ->].
  rewrite length_rev.
  pose proof (length_drop m (rev t)); pose proof (length_drop n s).
  rewrite length_rev in *; subst t; lia.
Qed.

(** Trimming adds no character. *)
Lemma contains_trim (c : ascii) (s : string) :
  contains c (trim s) = true -> contains c s = true.
Proof.
  unfold trim, trimEnd, trimStart.
  destruct (strip_leading_drop whitespace (String.length s) s) as [n ->].
  set (t := drop n s).
  destruct (strip_leading_drop (List.map rev whitespace)
              (String.length t) (rev t)) as [m ->].
  rewrite contains_rev; intros H; apply contains_drop in H.
  rewrite contains_rev in H; subst t; now apply contains_drop in H.
Qed.

Lemma contains_remove (class : ascii -> bool) (c : ascii) (s : string) :
  contains c (remove class s) = true ->
  contains c s = true /\ class c = false.
Proof.
  induction s as [|x s IH]; simpl; [discriminate|].
  destruct (class x) eqn:Hx.
  - intros H; destruct (IH H) as [-> Hc]; split; [apply orb_true_r | exact Hc].
  - simpl; destruct (Ascii.eqb_spec x c) as [->|_]; simpl; auto.
Qed.

Lemma length_remove (class : ascii -> bool) (s : string) :
  String.length (remove class s) <= String.length s.
Proof.
  induction s as [|x s IH]; simpl; [lia|].
  destruct (class x); simpl; lia.
Qed.

(** The parts of a split do not contain the separator, and there is one
    more part than there are separators. *)
Lemma split_ne_parts (sep : ascii) (s : string) :
  contains sep (fst (JsString.split_ne sep s)) = false
  /\ Forall (fun p => contains sep p = false) (snd (JsString.split_ne sep s)).
Proof.
  induction s as [|x s [IH1 IH2]]; simpl; [split; [reflexivity | constructor]|].
  destruct (JsString.split_ne sep s) as [h t]; simpl in *.
  destruct (Ascii.eqb_spec x sep) as [->|Hx]; simpl.
  - split; [reflexivity | now constructor].
  - split; [|assumption].
    rewrite IH1; destruct (Ascii.eqb_spec x sep); [contradiction | reflexivity].
Qed.

Lemma split_parts (sep : ascii) (s : string) :
  Forall (fun p => contains sep p = false) (JsString.split sep s).
Proof.
  unfold JsString.split; pose proof (split_ne_parts sep s) as [H1 H2].
  destruct (JsString.split_ne sep s); now constructor.
Qed.

Lemma split_part_of (sep c : ascii) (s : string) :
  contains c s = false ->
  Forall (fun p => contains c p = false) (JsString.split sep s).
Proof.
  unfold JsString.split; induction s as [|x s IH]; simpl.
  - intros _; repeat constructor.
  - intros H; apply orb_false_elim in H as [Hx Hs]; specialize (IH Hs).
    destruct (JsString.split_ne sep s) as [h t].
    inversion_clear IH as [|? ? Hh Ht].
    destruct (Ascii.eqb x sep).
    + constructor; [reflexivity | now constructor].
    + constructor; [simpl; now rewrite Hx, Hh | assumption].
Qed.

End TextFacts.

Section HelperFacts.
Import Text GraphHelpers.
Local Open Scope string_scope.

Lemma not_angle (c : ascii) (s : string) :
  is_angle c = true -> contains c (remove is_angle s) = false.
Proof.
  intros Hc; destruct (contains c (remove is_angle s)) eqn:E; [|reflexivity].
  apply contains_remove in E as [_ E]; congruence.
Qed.

Lemma contains_sanitizeInput (c : ascii) (input : string) :
  contains c (sanitizeInput input) = true -> contains c input = true.
Proof.
  unfold sanitizeInput; intros H.
  apply contains_remove in H as [H _]; now apply contains_trim.
Qed.

(** X1. [sanitizeInput] never returns '<' or '>', adds no character and
    returns at most as many as it was given; but it removes the brackets
    after it has trimmed, so its result can still end with a blank. *)
Theorem sanitizeInput_strips_brackets (input : string) :
  contains "<" (sanitizeInput input) = false
  /\ contains ">" (sanitizeInput input) = false
  /\ (forall c, contains c (sanitizeInput input) = true ->
                contains c input = true)
  /\ String.length (sanitizeInput input) <= String.length input
  /\ sanitizeInput "a <" = "a "
  /\ trim (sanitizeInput "a <") <> sanitizeInput "a <".
Proof.
  split; [now apply not_angle|].
  split; [now apply not_angle|].
  split; [intros c; apply contains_sanitizeInput|].
  split; [|split; [vm_compute; reflexivity | vm_compute; discriminate]].
  unfold sanitizeInput.
  pose proof (length_remove is_angle (trim input)).
  pose proof (trim_shorter input); lia.
Qed.

(** X2. Every phrase of [parseCsvPhrases] is free of the line feed, the
    one character the text is split at, and of '<' and '>', and there are
    at most as many phrases as lines; the text without characters has no
    phrase.  Other line breaks are not separators: a carriage return
    inside a line stays in the phrase.  A line is tested for emptiness
    before it is sanitized, so a line of brackets alone yields the empty
    phrase. *)
Theorem parseCsvPhrases_phrases (text : string) :
  Forall (fun phrase =>
            contains newline phrase = false
            /\ contains "<" phrase = false
            /\ contains ">" phrase = false)
    (parseCsvPhrases text)
  /\ List.length (parseCsvPhrases text)
     <= List.length (JsString.split newline text)
  /\ parseCsvPhrases "" = []
  /\ parseCsvPhrases "<>" = [""]
  /\ parseCsvPhrases ("a" ++ String (ascii_of_N 13) "b")
     = ["a" ++ String (ascii_of_N 13) "b"].
Proof.
  split; [|split; [|split; [|split]; vm_compute; reflexivity]].
  - unfold parseCsvPhrases; apply Forall_forall; intros phrase Hin.
    apply in_map_iff in Hin as (line & <- & Hin).
    apply filter_In in Hin as [Hin _].
    apply in_map_iff in Hin as (raw & <- & Hin).
    split; [|split; now apply not_angle].
    destruct (contains newline (sanitizeInput (trim raw))) eqn:E; [|reflexivity].
    apply contains_sanitizeInput, contains_trim in E.
    pose proof (split_parts newline text) as Hp.
    rewrite Forall_forall in Hp; rewrite (Hp raw Hin) in E; discriminate.
  - unfold parseCsvPhrases; rewrite length_map.
    etransitivity; [apply filter_length_le | now rewrite length_map].
Qed.

(** A pattern of classes matches strings of its length whose characters
    are in the classes, position by position. *)
Lemma matches_shape (pattern : list (ascii -> bool)) (s : string) :
  matches pattern s = true ->
  String.length s = List.length pattern
  /\ forall i class c,
       nth_error pattern i = Some class -> String.get i s = Some c ->
       class c = true.
Proof.
  revert s; induction pattern as [|cl pattern IH]; intros [|x s]; simpl;
    try discriminate.
  - intros _; split; [reflexivity|]; intros [|i]; discriminate.
  - intros H; apply andb_true_iff in H as [Hx Hs].
    destruct (IH s Hs) as [Hlen Hat]; split; [now rewrite Hlen|].
    intros [|i] class c; simpl.
    + intros H1 H2; injection H1 as <-; injection H2 as <-; exact Hx.
    + apply Hat.
Qed.

Lemma matches_map (f : ascii -> ascii) (pattern : list (ascii -> bool))
    (s : string) :
  Forall (fun class => forall c, class (f c) = class c) pattern ->
  matches pattern (JsString.map f s) = matches pattern s.
Proof.
  intros Hp; revert s; induction Hp as [|cl pattern Hcl _ IH]; intros [|x s];
    simpl; try reflexivity.
  now rewrite Hcl, IH.
Qed.

Ltac by_cases c := destruct c as [[] [] [] [] [] [] [] []]; reflexivity.

Lemma guidRegex_ignores_case :
  Forall (fun class => forall c, class (JsString.upper_char c) = class c)
    guidRegex
  /\ Forall (fun class => forall c, class (JsString.lower_char c) = class c)
       guidRegex.
Proof.
  split; unfold guidRegex; simpl; repeat constructor; intros c; by_cases c.
Qed.

Lemma matches_all (P : ascii -> bool) (pattern : list (ascii -> bool))
    (s : string) :
  Forall (fun class => forall c, class c = true -> P c = true) pattern ->
  matches pattern s = true -> all P s = true.
Proof.
  intros Hp; revert s; induction Hp as [|cl pattern Hcl _ IH]; intros [|x s];
    simpl; try discriminate; [reflexivity|].
  intros H; apply andb_true_iff in H as [Hx Hs].
  now rewrite (Hcl x Hx), (IH s Hs).
Qed.

Lemma guidRegex_ascii :
  Forall (fun class => forall c, class c = true -> is_ascii c = true)
    guidRegex.
Proof.
  assert (Hhex : forall c, is_hex c = true -> is_ascii c = true)
    by (intros c; destruct c as [[] [] [] [] [] [] [] []]; vm_compute;
        congruence).
  assert (Hdash : forall c, only "-" c = true -> is_ascii c = true)
    by (intros c; destruct c as [[] [] [] [] [] [] [] []]; vm_compute;
        congruence).
  assert (Hver : forall c, is_version c = true -> is_ascii c = true)
    by (intros c; destruct c as [[] [] [] [] [] [] [] []]; vm_compute;
        congruence).
  assert (Hvar : forall c, is_variant c = true -> is_ascii c = true)
    by (intros c; destruct c as [[] [] [] [] [] [] [] []]; vm_compute;
        congruence).
  unfold guidRegex; simpl; repeat constructor; assumption.
Qed.

(** X3. A string that [isValidGuid] accepts has 36 characters, dashes at
    positions 8, 13, 18 and 23, a version digit from 1 to 5 at position 14
    (so no nil GUID and no version 6, 7 or 8) and one of 8, 9, a, b in
    either case at position 19, and ASCII characters only.  On a string
    of ASCII characters the test does not depend on the case of the
    letters. *)
Theorem isValidGuid_shape (guid : string) :
  (isValidGuid guid = true ->
   String.length guid = 36
   /\ String.get 8 guid = Some "-"%char /\ String.get 13 guid = Some "-"%char
   /\ String.get 18 guid = Some "-"%char /\ String.get 23 guid = Some "-"%char
   /\ (exists v, String.get 14 guid = Some v /\ is_version v = true)
   /\ (exists n, String.get 19 guid = Some n /\ is_variant n = true)
   /\ all is_ascii guid = true)
  /\ (all is_ascii guid = true ->
      isValidGuid (JsString.toUpperCase guid) = isValidGuid guid
      /\ isValidGuid (JsString.toLowerCase guid) = isValidGuid guid).
Proof.
  split; [|intros _; split; apply matches_map; apply guidRegex_ignores_case].
  unfold isValidGuid; intros H.
  pose proof (matches_all is_ascii guidRegex guid guidRegex_ascii H) as Hascii.
  apply matches_shape in H as [Hlen Hat].
  split; [exact Hlen|].
  assert (Hget : forall i, i < 36 -> exists c, String.get i guid = Some c).
  { intros i Hi; destruct (String.get i guid) as [c|] eqn:E; [eauto|].
    exfalso; revert E; clear Hat Hascii.
    change 36 with (List.length guidRegex) in Hi.
    rewrite <- Hlen in Hi; clear Hlen; revert i Hi.
    induction guid as [|x g IH]; simpl; intros [|i] Hi; try lia; try discriminate.
    apply IH; lia. }
  assert (Hdash : forall i, i < 36 -> nth_error guidRegex i = Some (only "-") ->
                            String.get i guid = Some "-"%char).
  { intros i Hi Hn; destruct (Hget i Hi) as [c Hc]; rewrite Hc.
    specialize (Hat i _ c Hn Hc); unfold only in Hat.
    now apply Ascii.eqb_eq in Hat as ->. }
  repeat split; try (apply Hdash; [lia | reflexivity]); try exact Hascii.
  - destruct (Hget 14) as [v Hv]; [lia|]; exists v; split; [exact Hv|].
    now apply (Hat 14 is_version v).
  - destruct (Hget 19) as [n Hn]; [lia|]; exists n; split; [exact Hn|].
    now apply (Hat 19 is_variant n).
Qed.

Lemma isValidGuid_shape_witness :
  String.length "123e4567-e89b-12d3-a456-426614174000" = 36.
Proof.
  exact (proj1 (proj1 (isValidGuid_shape "123e4567-e89b-12d3-a456-426614174000")
                  eq_refl)).
Defined.

End HelperFacts.

Section LanguageFacts.
Import Text GraphHelpers JsString Locale.
Local Open Scope string_scope.

Ltac by_cases c := destruct c as [[] [] [] [] [] [] [] []]; reflexivity.

Lemma alpha_lower (c : ascii) : is_alpha (lower_char c) = is_alpha c.
Proof. by_cases c. Qed.

Lemma alpha_upper (c : ascii) : is_alpha (upper_char c) = is_alpha c.
Proof. by_cases c. Qed.

Lemma alpha_not_sep (c : ascii) : is_alpha c = true -> is_sep c = false.
Proof. destruct c as [[] [] [] [] [] [] [] []]; (reflexivity || discriminate). Qed.

Lemma alpha_segment (s : string) : all is_alpha s = true -> segment s = true.
Proof.
  induction s as [|c s IH]; simpl; [reflexivity|].
  intros H; apply andb_true_iff in H as [Hc Hs].
  now rewrite (alpha_not_sep c Hc), IH.
Qed.

Lemma all_map_alpha (f : ascii -> ascii) (s : string) :
  (forall c, is_alpha (f c) = is_alpha c) ->
  all is_alpha (map f s) = all is_alpha s.
Proof.
  intros Hf; induction s as [|c s IH]; simpl; [reflexivity|].
  now rewrite Hf, IH.
Qed.

(** What a pattern of classes excludes, its matches exclude. *)
Lemma matches_excludes (c : ascii) (pattern : list (ascii -> bool))
    (s : string) :
  Forall (fun class => forall x, class x = true -> Ascii.eqb x c = false)
    pattern ->
  matches pattern s = true -> contains c s = false.
Proof.
  intros Hp; revert s; induction Hp as [|cl pattern Hcl _ IH]; intros [|x s];
    simpl; try discriminate; try reflexivity.
  intros H; apply andb_true_iff in H as [Hx Hs].
  now rewrite (Hcl x Hx), IH.
Qed.

(** Two letters, a dash, two or three letters. *)
Lemma validateLanguageCode_pair (a b : string) :
  String.length a = 2 -> all is_alpha a = true ->
  String.length b = 2 \/ String.length b = 3 -> all is_alpha b = true ->
  validateLanguageCode (a ++ "-" ++ b) = true
  /\ validateLanguageCode (a ++ "_" ++ b) = false.
Proof.
  intros La Ha Lb Hb.
  destruct a as [|a1 [|a2 [|]]]; try discriminate.
  simpl in Ha; apply andb_true_iff in Ha as [Ha1 Ha2];
    apply andb_true_iff in Ha2 as [Ha2 _].
  destruct Lb as [Lb|Lb].
  - destruct b as [|b1 [|b2 [|]]]; try discriminate.
    simpl in Hb; apply andb_true_iff in Hb as [Hb1 Hb2];
      apply andb_true_iff in Hb2 as [Hb2 _].
    unfold validateLanguageCode; simpl; unfold only.
    rewrite Ha1, Ha2, Hb1, Hb2; split; reflexivity.
  - destruct b as [|b1 [|b2 [|b3 [|]]]]; try discriminate.
    simpl in Hb; apply andb_true_iff in Hb as [Hb1 Hb2];
      apply andb_true_iff in Hb2 as [Hb2 Hb3];
      apply andb_true_iff in Hb3 as [Hb3 _].
    unfold validateLanguageCode; simpl; unfold only.
    rewrite Ha1, Ha2, Hb1, Hb2, Hb3; split; reflexivity.
Qed.

(** X4. [validateLanguageCode] accepts only strings of 2, 5 or 6
    characters, none of them an underscore.  It accepts a language-region
    locale in URL form, as [normalizeLocale] produces it, and rejects the
    form [localeToSdkLocale] gives to the same locale. *)
Theorem validateLanguageCode_url_form (a b : string) :
  String.length a = 2 -> all is_alpha a = true ->
  String.length b = 2 \/ String.length b = 3 -> all is_alpha b = true ->
  (forall s, validateLanguageCode s = true ->
             (String.length s = 2 \/ String.length s = 5 \/ String.length s = 6)
             /\ contains "_" s = false)
  /\ validateLanguageCode a = true
  /\ validateLanguageCode (a ++ "-" ++ b) = true
  /\ validateLanguageCode (localeToSdkLocale (a ++ "-" ++ b)) = false
  /\ validateLanguageCode
       (normalizeLocale (localeToSdkLocale (a ++ "-" ++ b))) = true.
Proof.
  intros La Ha Lb Hb.
  assert (Hto : localeToSdkLocale (a ++ "-" ++ b)
                = toLowerCase a ++ "_" ++ toUpperCase b).
  { apply (localeToSdkLocale_two a b "-"); auto using alpha_segment. }
  assert (Hla : String.length (toLowerCase a) = 2
                /\ all is_alpha (toLowerCase a) = true).
  { unfold toLowerCase; rewrite all_map_alpha by apply alpha_lower.
    split; [|assumption]; rewrite <- La; clear.
    induction a; simpl; auto. }
  assert (Hub : (String.length (toUpperCase b) = 2
                 \/ String.length (toUpperCase b) = 3)
                /\ all is_alpha (toUpperCase b) = true).
  { unfold toUpperCase; rewrite all_map_alpha by apply alpha_upper.
    split; [|assumption].
    replace (String.length (map upper_char b)) with (String.length b);
      [assumption | clear; induction b; simpl; auto]. }
  destruct Hla as [Hla1 Hla2], Hub as [Hub1 Hub2].
  split; [|split; [|split; [|split]]].
  - intros s Hs; unfold validateLanguageCode, languageRegex in Hs.
    cbn [existsb] in Hs.
    repeat (apply orb_true_iff in Hs as [Hs|Hs]); try discriminate;
      (split; [apply matches_shape in Hs as [-> _]; simpl; auto
              | apply (matches_excludes "_") in Hs; [exact Hs|];
                repeat constructor; intros x;
                destruct x as [[] [] [] [] [] [] [] []];
                (reflexivity || discriminate)]).
  - destruct a as [|a1 [|a2 [|]]]; try discriminate.
    simpl in Ha; apply andb_true_iff in Ha as [Ha1 Ha2];
      apply andb_true_iff in Ha2 as [Ha2 _].
    unfold validateLanguageCode; simpl; now rewrite Ha1, Ha2.
  - now apply validateLanguageCode_pair.
  - rewrite Hto; now apply validateLanguageCode_pair.
  - rewrite Hto; unfold normalizeLocale, replaceAll.
    rewrite map_append; simpl.
    fold (replaceAll "_" "-" (toLowerCase a)).
    fold (replaceAll "_" "-" (toUpperCase b)).
    rewrite !replaceAll_segment
      by (reflexivity || now apply alpha_segment).
    now apply validateLanguageCode_pair.
Qed.

Lemma validateLanguageCode_url_form_witness :
  validateLanguageCode "pt-BR" = true
  /\ validateLanguageCode (localeToSdkLocale "pt-BR") = false.
Proof.
  destruct (validateLanguageCode_url_form "pt" "BR" eq_refl eq_refl
              (or_introl eq_refl) eq_refl) as (_ & _ & H1 & H2 & _).
  exact (conj H1 H2).
Defined.

(** X5. With bounds in order, [clampNumber] on an integer returns an
    integer within the bounds, the value itself when it is within them,
    and clamping again changes nothing.  NaN is not clamped: it comes
    back as NaN. *)
Theorem clampNumber_bounds (value lo hi : Z) :
  (lo <= hi)%Z ->
  (exists r,
      clampNumber (Int value) (Int lo) (Int hi) = Int r
      /\ (lo <= r <= hi)%Z
      /\ ((lo <= value <= hi)%Z -> r = value)
      /\ ((value < lo)%Z -> r = lo)
      /\ ((hi < value)%Z -> r = hi)
      /\ clampNumber (Int r) (Int lo) (Int hi) = Int r)
  /\ clampNumber NaN (Int lo) (Int hi) = NaN.
Proof.
  intros H; split; [|reflexivity].
  exists (Z.max lo (Z.min hi value)); unfold clampNumber; simpl.
  repeat split; try lia; f_equal; lia.
Qed.

Lemma clampNumber_bounds_witness :
  clampNumber (Int 500) (Int 1) (Int 50) = Int 50
  /\ clampNumber NaN (Int 1) (Int 50) = NaN.
Proof.
  destruct (clampNumber_bounds 500 1 50) as [(r & Hr & _ & _ & _ & Hhi & _) Hnan];
    [lia|].
  rewrite Hr, (Hhi ltac:(lia)); exact (conj eq_refl Hnan).
Defined.

End LanguageFacts.

(** ** More on the locale helpers *)

Section LocaleAlgebra.
Import Text JsString Locale.
Local Open Scope string_scope.

Ltac by_cases c := destruct c as [[] [] [] [] [] [] [] []]; reflexivity.

Lemma lower_lower (c : ascii) : lower_char (lower_char c) = lower_char c.
Proof. by_cases c. Qed.

Lemma upper_upper (c : ascii) : upper_char (upper_char c) = upper_char c.
Proof. by_cases c. Qed.

Lemma lower_dash (c : ascii) : Ascii.eqb (lower_char c) "-" = Ascii.eqb c "-".
Proof. by_cases c. Qed.

Lemma lower_underscore (c : ascii) :
  Ascii.eqb (lower_char c) "_" = Ascii.eqb c "_".
Proof. by_cases c. Qed.

Lemma upper_dash (c : ascii) : Ascii.eqb (upper_char c) "-" = Ascii.eqb c "-".
Proof. by_cases c. Qed.

Lemma upper_underscore (c : ascii) :
  Ascii.eqb (upper_char c) "_" = Ascii.eqb c "_".
Proof. by_cases c. Qed.

Lemma length_map_chars (f : ascii -> ascii) (s : string) :
  String.length (map f s) = String.length s.
Proof. induction s; simpl; auto. Qed.

Lemma contains_map (f : ascii -> ascii) (d : ascii) (s : string) :
  (forall c, Ascii.eqb (f c) d = Ascii.eqb c d) ->
  contains d (map f s) = contains d s.
Proof.
  intros Hf; induction s as [|c s IH]; simpl; [reflexivity|].
  now rewrite Hf, IH.
Qed.

Lemma segment_contains (s : string) :
  segment s = true <-> contains "-" s = false /\ contains "_" s = false.
Proof.
  induction s as [|c s IH]; simpl; [tauto|].
  unfold is_sep; destruct (Ascii.eqb c "-"), (Ascii.eqb c "_"); simpl;
    try tauto; intuition discriminate.
Qed.

Lemma segment_map (f : ascii -> ascii) (s : string) :
  (forall c, Ascii.eqb (f c) "-" = Ascii.eqb c "-") ->
  (forall c, Ascii.eqb (f c) "_" = Ascii.eqb c "_") ->
  segment s = true -> segment (map f s) = true.
Proof.
  intros H1 H2 Hs; apply segment_contains in Hs as [Hd Hu].
  apply segment_contains; now rewrite !contains_map.
Qed.

Lemma replaceAll_absent (c d : ascii) (s : string) :
  contains c s = false -> replaceAll c d s = s.
Proof.
  unfold replaceAll; induction s as [|x s IH]; simpl; [reflexivity|].
  intros H; apply orb_false_elim in H as [Hx Hs].
  now rewrite Hx, IH.
Qed.

Lemma contains_replaceAll (c d : ascii) (s : string) :
  c <> d -> contains c (replaceAll c d s) = false.
Proof.
  intros Hcd; unfold replaceAll; induction s as [|x s IH]; simpl;
    [reflexivity|].
  rewrite IH, orb_false_r.
  destruct (Ascii.eqb_spec x c) as [->|Hx].
  - destruct (Ascii.eqb_spec d c); congruence.
  - destruct (Ascii.eqb_spec x c); congruence.
Qed.

(** Joining the parts of a split gives the string back. *)
Lemma concat_split (sep : ascii) (s : string) :
  String.concat (String sep "") (split sep s) = s.
Proof.
  unfold split; induction s as [|c s IH]; simpl; [reflexivity|].
  destruct (split_ne sep s) as [h t].
  destruct (Ascii.eqb_spec c sep) as [->|Hc]; simpl in *.
  - now rewrite IH.
  - destruct t as [|p t]; simpl in *; now rewrite IH.
Qed.

Lemma split_map (f : ascii -> ascii) (sep : ascii) (s : string) :
  (forall c, Ascii.eqb (f c) sep = Ascii.eqb c sep) ->
  split sep (map f s) = List.map (map f) (split sep s).
Proof.
  intros Hf; unfold split; induction s as [|c s IH]; simpl; [reflexivity|].
  destruct (split_ne sep (map f s)) as [h t], (split_ne sep s) as [h' t'].
  injection IH as -> ->; rewrite Hf.
  now destruct (Ascii.eqb c sep).
Qed.

Lemma split_toLowerCase (s : string) :
  split "_" (toLowerCase s) = List.map toLowerCase (split "_" s).
Proof. apply split_map, lower_underscore. Qed.

Lemma toLowerCase_no_dash (s : string) :
  contains "-" s = false -> contains "-" (toLowerCase s) = false.
Proof. intros H; unfold toLowerCase; now rewrite contains_map by apply lower_dash. Qed.

(** The parts [localeToSdkLocale] works on: segments that join, with
    underscores, to the underscored locale. *)
Lemma underscored_parts (locale : string) :
  let result := replaceAll "-" "_" locale in
  contains "-" result = false
  /\ String.concat "_" (split "_" result) = result
  /\ Forall (fun p => segment p = true) (split "_" result).
Proof.
  intros result.
  assert (Hd : contains "-" result = false)
    by (apply contains_replaceAll; discriminate).
  split; [exact Hd|]; split; [apply concat_split|].
  pose proof (split_parts "_" result) as H1.
  pose proof (split_part_of "_" "-" result Hd) as H2.
  rewrite Forall_forall in *; intros p Hp.
  apply segment_contains; auto.
Qed.

Lemma toLowerCase_twice (s : string) :
  toLowerCase (toLowerCase s) = toLowerCase s.
Proof.
  unfold toLowerCase; rewrite map_map.
  induction s as [|c s IH]; simpl; [reflexivity | now rewrite lower_lower, IH].
Qed.

Lemma toUpperCase_twice (s : string) :
  toUpperCase (toUpperCase s) = toUpperCase s.
Proof.
  unfold toUpperCase; rewrite map_map.
  induction s as [|c s IH]; simpl; [reflexivity | now rewrite upper_upper, IH].
Qed.

Lemma lower_segment (s : string) :
  segment s = true -> segment (toLowerCase s) = true.
Proof. apply segment_map; [apply lower_dash | apply lower_underscore]. Qed.

Lemma upper_segment (s : string) :
  segment s = true -> segment (toUpperCase s) = true.
Proof. apply segment_map; [apply upper_dash | apply upper_underscore]. Qed.

(** Converting a converted locale changes nothing. *)
Lemma localeToSdkLocale_twice (locale : string) :
  localeToSdkLocale (localeToSdkLocale locale) = localeToSdkLocale locale.
Proof.
  destruct (underscored_parts locale) as (Hd & Hjoin & Hseg); cbv zeta in *.
  unfold localeToSdkLocale at 2 3; cbv zeta.
  set (result := replaceAll "-" "_" locale) in *.
  destruct (split "_" result) as [|p0 [|p1 [|p2 [|p3 parts]]]] eqn:Hparts.
  - pose proof (f_equal (@List.length string) Hparts) as Hlen.
    unfold split in Hlen; destruct (split_ne "_" result); discriminate.
  - (* one part *)
    unfold localeToSdkLocale; cbv zeta.
    rewrite replaceAll_absent by now apply toLowerCase_no_dash.
    rewrite split_toLowerCase, Hparts; simpl; apply toLowerCase_twice.
  - (* two parts *)
    inversion_clear Hseg as [|? ? S0 Hseg']; inversion_clear Hseg' as [|? ? S1 _].
    change (toLowerCase p0 ++ "_" ++ toUpperCase p1)
      with (toLowerCase p0 ++ String "_" (toUpperCase p1)).
    rewrite localeToSdkLocale_two
      by (reflexivity || now apply lower_segment || now apply upper_segment).
    now rewrite toLowerCase_twice, toUpperCase_twice.
  - (* three parts *)
    inversion_clear Hseg as [|? ? S0 Hseg']; inversion_clear Hseg' as [|? ? S1 Hseg];
      inversion_clear Hseg as [|? ? S2 _].
    change (toLowerCase p0 ++ "_" ++ p1 ++ "_" ++ toUpperCase p2)
      with (toLowerCase p0 ++ String "_" (p1 ++ String "_" (toUpperCase p2))).
    rewrite localeToSdkLocale_three
      by (reflexivity || assumption || now apply lower_segment
          || now apply upper_segment).
    now rewrite toLowerCase_twice, toUpperCase_twice.
  - (* four parts or more *)
    unfold localeToSdkLocale; cbv zeta.
    rewrite replaceAll_absent by now apply toLowerCase_no_dash.
    rewrite split_toLowerCase, Hparts; simpl; apply toLowerCase_twice.
Qed.

Lemma underscore_normalized (s : string) :
  replaceAll "-" "_" (replaceAll "_" "-" s) = replaceAll "-" "_" s.
Proof.
  unfold replaceAll; rewrite map_map.
  induction s as [|c s IH]; simpl; [reflexivity|]; rewrite IH; f_equal.
  destruct (Ascii.eqb_spec c "_") as [->|Hu]; [reflexivity|].
  reflexivity.
Qed.

(** X6. [localeToSdkLocale] is idempotent, and it does not see whether its
    input went through [normalizeLocale]: a backend locale that is turned
    into its URL form and converted again comes back unchanged. *)
Theorem localeToSdkLocale_idempotent (locale : string) :
  localeToSdkLocale (localeToSdkLocale locale) = localeToSdkLocale locale
  /\ localeToSdkLocale (normalizeLocale locale) = localeToSdkLocale locale
  /\ localeToSdkLocale (normalizeLocale (localeToSdkLocale locale))
     = localeToSdkLocale locale
  /\ normalizeLocale (normalizeLocale locale) = normalizeLocale locale.
Proof.
  assert (Hn : forall l, localeToSdkLocale (normalizeLocale l)
                         = localeToSdkLocale l).
  { intros l; unfold localeToSdkLocale, normalizeLocale.
    now rewrite underscore_normalized. }
  split; [apply localeToSdkLocale_twice|].
  split; [apply Hn|].
  split; [rewrite Hn; apply localeToSdkLocale_twice|].
  unfold normalizeLocale; apply replaceAll_absent.
  apply contains_replaceAll; discriminate.
Qed.

(** X7. The result of [localeToSdkLocale] has no dash and, for a locale
    of ASCII characters, the length of its input; the result of
    [normalizeLocale] has the length of its input and no underscore. *)
Theorem locale_forms (locale : string) :
  contains "-" (localeToSdkLocale locale) = false
  /\ (all is_ascii locale = true ->
      String.length (localeToSdkLocale locale) = String.length locale)
  /\ contains "_" (normalizeLocale locale) = false
  /\ String.length (normalizeLocale locale) = String.length locale.
Proof.
  enough (Hall : contains "-" (localeToSdkLocale locale) = false
                 /\ String.length (localeToSdkLocale locale)
                    = String.length locale
                 /\ contains "_" (normalizeLocale locale) = false
                 /\ String.length (normalizeLocale locale)
                    = String.length locale)
    by (destruct Hall as (H1 & H2 & H3 & H4); repeat split; auto).
  assert (Hnorm : contains "_" (normalizeLocale locale) = false
                  /\ String.length (normalizeLocale locale)
                     = String.length locale).
  { split; [apply contains_replaceAll; discriminate | apply length_map_chars]. }
  destruct (underscored_parts locale) as (Hd & Hjoin & Hseg); cbv zeta in *.
  assert (Hlen : String.length (replaceAll "-" "_" locale)
                 = String.length locale) by apply length_map_chars.
  assert (Hlow : contains "-" (toLowerCase (replaceAll "-" "_" locale)) = false
                 /\ String.length (toLowerCase (replaceAll "-" "_" locale))
                    = String.length locale).
  { unfold toLowerCase; rewrite contains_map by apply lower_dash.
    now rewrite length_map_chars. }
  unfold localeToSdkLocale.
  set (result := replaceAll "-" "_" locale) in *.
  destruct (split "_" result) as [|p0 [|p1 [|p2 [|p3 parts]]]];
    try (split; [apply Hlow | split; [apply Hlow | exact Hnorm]]).
  - inversion_clear Hseg as [|? ? S0 Hseg']; inversion_clear Hseg' as [|? ? S1 _].
    apply segment_contains in S0 as [D0 _], S1 as [D1 _].
    split; [|split; [|exact Hnorm]].
    + unfold toLowerCase, toUpperCase.
      rewrite !contains_app, contains_map by apply lower_dash.
      rewrite contains_map by apply upper_dash.
      now rewrite D0, D1.
    + rewrite <- Hlen, <- Hjoin; simpl.
      unfold toLowerCase, toUpperCase.
      rewrite !length_app; simpl; rewrite ?length_app; simpl.
      now rewrite !length_map_chars.
  - inversion_clear Hseg as [|? ? S0 Hseg']; inversion_clear Hseg' as [|? ? S1 Hseg];
      inversion_clear Hseg as [|? ? S2 _].
    apply segment_contains in S0 as [D0 _], S1 as [D1 _], S2 as [D2 _].
    split; [|split; [|exact Hnorm]].
    + unfold toLowerCase, toUpperCase.
      rewrite !contains_app, contains_map by apply lower_dash.
      rewrite contains_map by apply upper_dash.
      now rewrite D0, D1, D2.
    + rewrite <- Hlen, <- Hjoin; simpl.
      unfold toLowerCase, toUpperCase.
      rewrite !length_app; simpl; rewrite ?length_app; simpl.
      now rewrite !length_map_chars.
Qed.

End LocaleAlgebra.

(** ** Fetching content by path *)

Section ContentFetchFacts.
Import Js Text ContentFetch.
Local Open Scope string_scope.

Variable getOptimizelySdk : GetOptimizelySdk.
Variable contentPayload : ContentPayload.
Variables urlBase urlPath : string.
Variable enableDebugLogs : bool.

Lemma dropTrailingSlash_slash (p : string) : dropTrailingSlash (p ++ "/") = p.
Proof.
  induction p as [|c p IH]; simpl; [reflexivity|].
  rewrite IH; destruct (p ++ "/") eqn:E; [|reflexivity].
  destruct p; discriminate.
Qed.

Lemma dropTrailingSlash_other (s : string) :
  (forall p, s <> p ++ "/") -> dropTrailingSlash s = s.
Proof.
  induction s as [|c s IH]; intros H; simpl; [reflexivity|].
  destruct s as [|d s].
  - destruct (Ascii.eqb_spec c "/") as [->|_]; [|reflexivity].
    now destruct (H "").
  - rewrite IH; [reflexivity|].
    intros p Hp; apply (H (String c p)); simpl; now rewrite Hp.
Qed.

(** What is made of the outcome of the [try]. *)
Lemma fetchContentByPath_of_query (variantKey : option string) :
  let attempt :=
    query getOptimizelySdk contentPayload urlBase urlPath enableDebugLogs
      variantKey in
  fetchContentByPath getOptimizelySdk contentPayload urlBase urlPath
    enableDebugLogs variantKey
  = (fst attempt,
     match snd attempt with
     | Throw _ => Ok no_content
     | Ok response =>
         match get response "_Content" with
         | Throw e => Throw e
         | Ok _Content =>
             let item := opt_get _Content "item" in
             Ok {| contentResponse := response;
                   found :=
                     truthy _Content && truthy item
                     && truthy (opt_get (opt_get item "_metadata") "key") |}
         end
     end).
Proof.
  cbv zeta; unfold fetchContentByPath.
  destruct (query _ _ _ _ _ _) as [queries [response|e]]; reflexivity.
Qed.

(** X8. [fetchContentByPath] turns a query that fails, or an SDK that
    cannot be built, into a result with [found] false and the response
    {_Content: null}.  When the query answers with a response that is not
    null or undefined, that response is returned as it is, and [found] is
    true exactly when [_Content], its [item] and the [key] of the item's
    metadata are all truthy.  An undefined response is caught only where
    the logging reads it: without logs and without variant key the call
    throws a TypeError. *)
Theorem fetchContentByPath_found (variantKey : option string) :
  let run :=
    fetchContentByPath getOptimizelySdk contentPayload urlBase urlPath
      enableDebugLogs variantKey in
  (forall e, getOptimizelySdk contentPayload = Throw e ->
             run = ([], Ok no_content))
  /\ (forall sdk,
         getOptimizelySdk contentPayload = Ok sdk ->
         let answer :=
           match variantKey with
           | Some (String c v) =>
               contentByPathVariant sdk
                 {| v_base := urlBase; v_url := urlPath;
                    v_urlNoSlash := dropTrailingSlash urlPath;
                    variation := String c v |}
           | _ =>
               contentByPath sdk
                 {| base := urlBase; url := urlPath;
                    urlNoSlash := dropTrailingSlash urlPath |}
           end in
         match answer with
         | Throw e => snd run = Ok no_content
         | Ok response =>
             nullish response = false ->
             exists result,
               snd run = Ok result
               /\ contentResponse result = response
               /\ (found result = true <->
                   truthy (opt_get response "_Content") = true
                   /\ truthy (opt_get (opt_get response "_Content") "item")
                      = true
                   /\ truthy
                        (opt_get
                           (opt_get
                              (opt_get (opt_get response "_Content") "item")
                              "_metadata") "key") = true)
         end)
  /\ fetchContentByPath (answering (Ok VUndefined)) contentPayload urlBase
       urlPath true None
     = ([ByPath contentPayload
           {| base := urlBase; url := urlPath;
              urlNoSlash := dropTrailingSlash urlPath |}],
        Ok no_content)
  /\ snd (fetchContentByPath (answering (Ok VUndefined)) contentPayload
            urlBase urlPath false None)
     = Throw (JsError "Cannot read properties of undefined (reading '_Content')").
Proof.
  cbv zeta; split; [|split; [|split; reflexivity]];
    rewrite fetchContentByPath_of_query; cbv zeta.
  - intros e He; unfold query; rewrite He.
    destruct variantKey as [[|c v]|]; reflexivity.
  - intros sdk Hsdk.
    assert (Hlogged : forall response,
               nullish response = false -> logged response = Ok response).
    { intros response Hn; unfold logged, get; now rewrite Hn. }
    assert (Hfound : forall response,
               nullish response = false ->
               exists result,
                 match get response "_Content" with
                 | Throw e => Throw e
                 | Ok _Content =>
                     Ok {| contentResponse := response;
                           found :=
                             truthy _Content
                             && truthy (opt_get _Content "item")
                             && truthy (opt_get (opt_get (opt_get _Content "item")
                                                   "_metadata") "key") |}
                 end = Ok result
                 /\ contentResponse result = response
                 /\ (found result = true <->
                     truthy (opt_get response "_Content") = true
                     /\ truthy (opt_get (opt_get response "_Content") "item")
                        = true
                     /\ truthy
                          (opt_get
                             (opt_get
                                (opt_get (opt_get response "_Content") "item")
                                "_metadata") "key") = true)).
    { intros response Hn; unfold get; rewrite Hn.
      eexists; split; [reflexivity|]; split; [reflexivity|]; simpl.
      rewrite !andb_true_iff; tauto. }
    unfold query; rewrite Hsdk.
    destruct variantKey as [[|c v]|]; simpl snd.
    + destruct (contentByPath sdk _) as [response|e]; [|reflexivity].
      intros Hn; rewrite (Hlogged _ Hn).
      destruct (enableDebugLogs || true); now apply Hfound.
    + destruct (contentByPathVariant sdk _) as [response|e]; [|reflexivity].
      intros Hn; rewrite (Hlogged _ Hn).
      destruct (enableDebugLogs || true); rewrite ?(Hlogged _ Hn);
        now apply Hfound.
    + destruct (contentByPath sdk _) as [response|e]; [|reflexivity].
      intros Hn; destruct (enableDebugLogs || false);
        rewrite ?(Hlogged _ Hn); now apply Hfound.
Qed.

(** X9. When the SDK can be built, [fetchContentByPath] makes exactly one
    query: the variant query when a variant key that is not empty is
    given, the plain query otherwise (also for the empty key).  The query
    carries the base and the path as given, and the path without its last
    slash, if it ends with one. *)
Theorem fetchContentByPath_query (variantKey : option string)
    (sdk : OptimizelySdk) :
  getOptimizelySdk contentPayload = Ok sdk ->
  fst (fetchContentByPath getOptimizelySdk contentPayload urlBase urlPath
         enableDebugLogs variantKey)
  = [ match variantKey with
      | Some (String c v) =>
          ByPathVariant contentPayload
            {| v_base := urlBase; v_url := urlPath;
               v_urlNoSlash := dropTrailingSlash urlPath;
               variation := String c v |}
      | _ =>
          ByPath contentPayload
            {| base := urlBase; url := urlPath;
               urlNoSlash := dropTrailingSlash urlPath |}
      end ]
  /\ (forall p, urlPath = p ++ "/" -> dropTrailingSlash urlPath = p)
  /\ ((forall p, urlPath <> p ++ "/") -> dropTrailingSlash urlPath = urlPath).
Proof.
  intros Hsdk; split; [|split].
  - rewrite fetchContentByPath_of_query; cbv zeta; simpl fst.
    unfold query; rewrite Hsdk.
    destruct variantKey as [[|c v]|]; reflexivity.
  - intros p ->; apply dropTrailingSlash_slash.
  - apply dropTrailingSlash_other.
Qed.

End ContentFetchFacts.

Section ContentFetchCases.
Import Js Text ContentFetch.
Local Open Scope string_scope.

Lemma fetchContentByPath_query_witness :
  fst (fetchContentByPath (answering (Ok VNull))
         {| ctx := "view"; key := ""; ver := ""; loc := "en";
            preview_token := ""; types := [] |}
         "https://example.com" "/en/about/" false (Some "b"))
  = [ ByPathVariant
        {| ctx := "view"; key := ""; ver := ""; loc := "en";
           preview_token := ""; types := [] |}
        {| v_base := "https://example.com"; v_url := "/en/about/";
           v_urlNoSlash := "/en/about"; variation := "b" |} ].
Proof.
  exact (proj1 (fetchContentByPath_query (answering (Ok VNull)) _
                  "https://example.com" "/en/about/" false (Some "b") _
                  eq_refl)).
Defined.

End ContentFetchCases.

(** ** The grammar of the header *)

Section HeaderGrammar.
Import Js Runtime Hmac Text Buffer Crypto.
Local Open Scope string_scope.

Lemma all_app (class : ascii -> bool) (s t : string) :
  all class (s ++ t) = all class s && all class t.
Proof.
  induction s as [|c s IH]; simpl; [reflexivity|].
  now rewrite IH, andb_assoc.
Qed.

(** Decimal printing gives digits, and at least one. *)
Lemma string_of_N_digits (n : N) :
  string_of_N n <> "" /\ all is_digit (string_of_N n) = true.
Proof.
  unfold string_of_N; split.
  - assert (Hn : N.to_uint n <> Decimal.Nil).
    { destruct n as [|p]; [discriminate | apply Unsigned.to_uint_nonnil]. }
    destruct (N.to_uint n); try discriminate; now destruct Hn.
  - induction (N.to_uint n); simpl; auto.
Qed.

Lemma hex_of_Zs_shape (l : list Z) :
  Forall (fun z => 0 <= z < 256)%Z l ->
  String.length (hex_of_Zs l) = 2 * List.length l
  /\ all is_lower_hex (hex_of_Zs l) = true.
Proof.
  assert (Hdigit : forall z, (0 <= z < 16)%Z -> is_lower_hex (hex_digit z) = true).
  { intros z Hz.
    assert (Hall : forallb (fun z => is_lower_hex (hex_digit z))
                     (List.map Z.of_nat (seq 0 16)) = true) by reflexivity.
    rewrite forallb_forall in Hall; apply Hall.
    apply in_map_iff; exists (Z.to_nat z); split; [lia | apply in_seq; lia]. }
  induction 1 as [|z l Hz _ [IH1 IH2]]; simpl; [split; reflexivity|].
  rewrite IH1, IH2, !Hdigit by (Z.div_mod_to_equations; lia).
  split; [lia | reflexivity].
Qed.

(** A SHA-256 digest has 32 bytes. *)
Lemma sha256_round_length (W st : list Z) (i : nat) :
  List.length st = 8 -> List.length (sha256_round W st i) = 8.
Proof.
  intros H; do 9 (destruct st as [|? st]; try discriminate); reflexivity.
Qed.

Lemma add32_length (x y : list Z) :
  List.length x = List.length y -> List.length (add32 x y) = List.length x.
Proof.
  revert y; induction x as [|a x IH]; intros [|b y]; simpl; try discriminate;
    auto.
Qed.

Lemma sha256_block_length (st blk : list Z) :
  List.length st = 8 -> List.length (sha256_block st blk) = 8.
Proof.
  intros H; unfold sha256_block.
  assert (Hf : forall l s, List.length s = 8 ->
                           List.length
                             (fold_left (sha256_round (sha256_schedule blk)) l s)
                           = 8).
  { induction l as [|i l IH]; intros s Hs; simpl; [exact Hs|].
    apply IH, sha256_round_length, Hs. }
  rewrite add32_length; [exact H | now rewrite Hf].
Qed.

Lemma sha256_Zs_length (msg : list Z) : List.length (sha256_Zs msg) = 32.
Proof.
  unfold sha256_Zs.
  assert (Hf : forall bs s, List.length s = 8 ->
                            List.length (fold_left sha256_block bs s) = 8).
  { induction bs as [|b bs IH]; intros s Hs; simpl; [exact Hs|].
    apply IH, sha256_block_length, Hs. }
  specialize (Hf (blocks (pad (be_bytes 8) msg)) sha256_H0 eq_refl).
  set (st := fold_left sha256_block _ _) in *; clearbody st.
  do 9 (destruct st as [|? st]; try discriminate).
  reflexivity.
Qed.

Lemma b64_of_32 (l : list Z) :
  List.length l = 32 -> String.length (b64_of_Zs l) = 44.
Proof.
  intros H; do 33 (destruct l as [|? l]; try discriminate); reflexivity.
Qed.

Lemma hmac_sha256_base64_shape (key : buffer) (msg : string) :
  String.length (hmac_sha256_base64 key msg) = 44
  /\ is_valid_base64 (hmac_sha256_base64 key msg) = true.
Proof.
  unfold hmac_sha256_base64; split;
    [|apply from_base64_toString_base64].
  unfold toString_base64; apply b64_of_32.
  unfold to_Zs, hmac_sha256, of_Zs, hmac_sha256_Zs.
  now rewrite !List.length_map, sha256_Zs_length.
Qed.

(** X10. On a host whose random source gives the sixteen bytes asked for,
    the header is 'epi-hmac ' appKey ':' timestamp ':' nonce ':' signature,
    where the timestamp is a non-empty string of decimal digits, the nonce
    has 32 lowercase hexadecimal digits, and the signature is 44
    characters of padded base64. *)
Theorem createHmacAuthHeader_grammar (h : Host) (config : OptimizelyGraphConfig)
    (method path : string) (body : option string) :
  List.length (randomBytes h 16) = 16 ->
  exists timestamp nonce signature,
    createHmacAuthHeader config method path body h
    = ([], Ok {| authorization :=
                   "epi-hmac " ++ appKey config ++ ":" ++ timestamp ++ ":"
                     ++ nonce ++ ":" ++ signature |})
    /\ timestamp <> "" /\ all is_digit timestamp = true
    /\ String.length nonce = 32 /\ all is_lower_hex nonce = true
    /\ String.length signature = 44 /\ is_valid_base64 signature = true.
Proof.
  intros Hrnd.
  exists (string_of_N (Date_now h)), (toString_hex (randomBytes h 16)).
  eexists; split; [apply createHmacAuthHeader_run|].
  destruct (string_of_N_digits (Date_now h)) as [T1 T2].
  destruct (hex_of_Zs_shape (to_Zs (randomBytes h 16)) (to_Zs_range _))
    as [N1 N2].
  destruct (hmac_sha256_base64_shape
              (from_base64 (secret config))
              (signatureData config method path (Date_now h)
                 (toString_hex (randomBytes h 16)) (default "" body)))
    as [S1 S2].
  unfold toString_hex; rewrite N1; unfold to_Zs; rewrite List.length_map, Hrnd.
  repeat split; assumption.
Qed.

Lemma createHmacAuthHeader_grammar_witness :
  exists timestamp nonce signature,
    createHmacAuthHeader Mock.config "PUT" "/p" None Mock.ok200
    = ([], Ok {| authorization :=
                   "epi-hmac ak1:" ++ timestamp ++ ":" ++ nonce ++ ":"
                     ++ signature |})
    /\ String.length nonce = 32 /\ String.length signature = 44.
Proof.
  destruct (createHmacAuthHeader_grammar Mock.ok200 Mock.config "PUT" "/p"
              None eq_refl)
    as (t & n & sg & H & _ & _ & Hn & _ & Hs & _).
  exists t, n, sg; repeat split; assumption.
Defined.

End HeaderGrammar.

(** ** More on the dispatcher *)

Section DispatcherHeaders.
Import Js Runtime Hmac Wire Text.
Local Open Scope string_scope.

Lemma append_assoc (s t r : string) : (s ++ t) ++ r = s ++ t ++ r.
Proof. induction s as [|c s IH]; simpl; [reflexivity | now rewrite IH]. Qed.

Lemma append_nil_r (s : string) : s ++ "" = s.
Proof. induction s as [|c s IH]; simpl; [reflexivity | now rewrite IH]. Qed.

Lemma obj_get_set_other (o : list (string * string)) (k k' v : string) :
  k <> k' -> obj_get (obj_set o k' v) k = obj_get o k.
Proof.
  intros Hk; induction o as [|[k0 v0] o IH]; simpl.
  - destruct (String.eqb_spec k k'); [contradiction | reflexivity].
  - destruct (String.eqb_spec k' k0) as [->|H0]; simpl.
    + destruct (String.eqb_spec k k0); [contradiction | reflexivity].
    + destruct (String.eqb_spec k k0); [reflexivity | exact IH].
Qed.

Lemma obj_get_absent (o : list (string * string)) (k : string) :
  ~ In k (List.map fst o) -> obj_get o k = None.
Proof.
  induction o as [|[k0 v0] o IH]; simpl; [reflexivity|]; intros H.
  destruct (String.eqb_spec k k0) as [->|_]; [tauto | apply IH; tauto].
Qed.

(** A spread of an object (its keys are distinct) gives the value of the
    source for the keys of the source, and leaves the others. *)
Lemma obj_get_spread (o src : list (string * string)) (k : string) :
  NoDup (List.map fst src) ->
  obj_get (spread o src) k
  = match obj_get src k with Some v => Some v | None => obj_get o k end.
Proof.
  unfold spread; revert o; induction src as [|[k0 v0] src IH]; intros o Hnd;
    simpl; [reflexivity|].
  inversion_clear Hnd as [|? ? Hnotin Hnd'].
  rewrite (IH _ Hnd').
  destruct (String.eqb_spec k k0) as [->|Hk].
  - now rewrite (obj_get_absent src k0 Hnotin), obj_get_set.
  - destruct (obj_get src k); [reflexivity | now apply obj_get_set_other].
Qed.

Lemma in_obj_set (o : list (string * string)) (k v x : string) :
  In x (List.map fst (obj_set o k v)) -> x = k \/ In x (List.map fst o).
Proof.
  induction o as [|[k0 v0] o IH]; simpl; [intuition congruence|].
  destruct (String.eqb_spec k k0) as [->|_]; simpl; intuition congruence.
Qed.

Lemma obj_set_NoDup (o : list (string * string)) (k v : string) :
  NoDup (List.map fst o) -> NoDup (List.map fst (obj_set o k v)).
Proof.
  induction o as [|[k0 v0] o IH]; simpl; intros Hnd.
  - constructor; [tauto | constructor].
  - inversion_clear Hnd as [|? ? Hnotin Hnd'].
    destruct (String.eqb_spec k k0) as [->|Hk]; simpl;
      constructor; auto.
    intros Hin; apply in_obj_set in Hin as [->|Hin]; [now apply Hk | tauto].
Qed.

Lemma spread_NoDup (o src : list (string * string)) :
  NoDup (List.map fst o) -> NoDup (List.map fst (spread o src)).
Proof.
  unfold spread; revert o; induction src as [|[k0 v0] src IH]; intros o Hnd;
    simpl; [exact Hnd | now apply IH, obj_set_NoDup].
Qed.

Variable h : Host.
Variable config : OptimizelyGraphConfig.

(** The headers of a request, read as a map. *)
Lemma request_headers (options : RequestOptions) (u : URL) (name : string) :
  NoDup (List.map fst (default [] (opt_headers options))) ->
  obj_get (req_headers (request h config options u)) name
  = if String.eqb name "authorization"
    then Some (signed h config (default "GET" (opt_method options))
                 (pathWithQuery (final_url options u))
                 (default "" (opt_body options)))
    else match obj_get (default [] (opt_headers options)) name with
         | Some v => Some v
         | None => if String.eqb name "Content-Type"
                   then Some "text/plain" else None
         end.
Proof.
  intros Hnd; unfold request; cbn [req_headers].
  set (sig := signed _ _ _ _ _).
  change (spread ?o [("authorization", sig)])
    with (obj_set o "authorization" sig).
  destruct (String.eqb_spec name "authorization") as [->|Hn];
    [apply obj_get_set|].
  rewrite obj_get_set_other, obj_get_spread by assumption.
  reflexivity.
Qed.

(** X11. The headers of the request, read as a map from names to values:
    'authorization' is always the header of the signer, whatever the
    caller passed under that name; every other header of the caller is
    sent with the caller's value; 'Content-Type' is 'text/plain' unless
    the caller gave one; no other header is sent.  Names are compared
    exactly. *)
Theorem makeOptimizelyGraphRequest_headers (endpoint : string)
    (options : RequestOptions) (u : URL) (name : string) :
  URL_new h endpoint (gatewayUrl config) = Ok u ->
  NoDup (List.map fst (default [] (opt_headers options))) ->
  exists rq,
    sent (makeOptimizelyGraphRequest config endpoint options) h = [rq]
    /\ obj_get (req_headers rq) name
       = if String.eqb name "authorization"
         then Some (signed h config (default "GET" (opt_method options))
                      (pathWithQuery (final_url options u))
                      (default "" (opt_body options)))
         else match obj_get (default [] (opt_headers options)) name with
              | Some v => Some v
              | None => if String.eqb name "Content-Type"
                        then Some "text/plain" else None
              end.
Proof.
  intros Hu Hnd; exists (request h config options u); split.
  - unfold sent; now rewrite (makeOptimizelyGraphRequest_run _ _ _ _ _ Hu).
  - now apply request_headers.
Qed.

(** Appending parameters changes the query and nothing else. *)
Lemma fold_searchParams_fixed (qs : list (string * string)) (u : URL) :
  let v := fold_left searchParams_append qs u in
  url_origin v = url_origin u
  /\ url_pathname v = url_pathname u
  /\ url_fragment v = url_fragment u
  /\ url_searchParams v = (url_searchParams u ++ qs)%list.
Proof.
  revert u; induction qs as [|kv qs IH]; intros u; cbn [fold_left]; cbv zeta.
  - now rewrite app_nil_r.
  - destruct (IH (searchParams_append u kv)) as (-> & -> & -> & ->).
    unfold searchParams_append; cbn; now rewrite <- app_assoc.
Qed.

Lemma serialize_nonempty (l : list (string * string)) :
  l <> [] -> contains "=" (urlencoded_serialize l) = true.
Proof.
  unfold urlencoded_serialize; destruct l as [|kv l]; [congruence|intros _].
  cbn [List.map String.concat].
  destruct (List.map _ l);
    rewrite ?contains_app; cbn; rewrite ?orb_true_r; reflexivity.
Qed.

Lemma fold_searchParams_query (qs : list (string * string)) (u : URL) :
  qs <> [] ->
  url_query (fold_left searchParams_append qs u)
  = Some (urlencoded_serialize (url_searchParams u ++ qs)).
Proof.
  destruct qs as [|kv qs] using rev_ind; [congruence|intros _; clear IHqs].
  rewrite fold_left_app; cbn [fold_left].
  destruct (fold_searchParams_fixed qs u) as (_ & _ & _ & Hp).
  cbv zeta in Hp; set (v := fold_left searchParams_append qs u) in *.
  unfold searchParams_append; cbn [url_query].
  rewrite Hp, <- app_assoc.
  set (q := urlencoded_serialize _).
  assert (Hq : contains "=" q = true).
  { apply serialize_nonempty; intros E.
    apply app_eq_nil in E as [_ E]; apply app_eq_nil in E as [_ E].
    discriminate. }
  destruct (String.eqb_spec q "") as [E|_]; [|reflexivity].
  rewrite E in Hq; discriminate.
Qed.

(** With parameters, what is signed is what is requested. *)
Lemma final_url_params (options : RequestOptions) (u : URL) :
  default [] (opt_queryParams options) <> [] ->
  let path :=
    url_pathname u ++ "?"
      ++ urlencoded_serialize
           (url_searchParams u ++ default [] (opt_queryParams options)) in
  pathWithQuery (final_url options u) = path
  /\ url_href (final_url options u)
     = url_origin u ++ path
         ++ match url_fragment u with None => "" | Some f => "#" ++ f end.
Proof.
  intros Hqs; cbv zeta; unfold pathWithQuery, url_href, url_search, final_url.
  rewrite (fold_searchParams_query _ u Hqs).
  destruct (fold_searchParams_fixed (default [] (opt_queryParams options)) u)
    as (-> & -> & -> & _).
  set (q := urlencoded_serialize _).
  assert (Hq : contains "=" q = true).
  { apply serialize_nonempty; intros E.
    apply app_eq_nil in E as [_ E]; contradiction. }
  destruct (String.eqb_spec q "") as [E|_];
    [rewrite E in Hq; discriminate|].
  now rewrite !append_assoc.
Qed.

(** X12. When query parameters are given, they are appended, in order, to
    those of the endpoint; the path that is signed is the path of the
    endpoint, '?' and the form-encoded parameters, and the URL requested
    is the origin followed by exactly that path (and the fragment).  When
    none is given and the endpoint ends with an empty query, the URL
    requested ends with '?' and the '?' is not signed. *)
Theorem makeOptimizelyGraphRequest_signed_path (endpoint : string)
    (options : RequestOptions) (u : URL) :
  URL_new h endpoint (gatewayUrl config) = Ok u ->
  let method := default "GET" (opt_method options) in
  let body := default "" (opt_body options) in
  let queryParams := default [] (opt_queryParams options) in
  let fragment :=
    match url_fragment u with None => "" | Some f => "#" ++ f end in
  exists rq,
    sent (makeOptimizelyGraphRequest config endpoint options) h = [rq]
    /\ (queryParams <> [] ->
        let path :=
          url_pathname u ++ "?"
            ++ urlencoded_serialize (url_searchParams u ++ queryParams) in
        req_url rq = url_origin u ++ path ++ fragment
        /\ obj_get (req_headers rq) "authorization"
           = Some (signed h config method path body))
    /\ (queryParams = [] -> url_query u = Some "" ->
        req_url rq = url_origin u ++ url_pathname u ++ "?" ++ fragment
        /\ obj_get (req_headers rq) "authorization"
           = Some (signed h config method (url_pathname u) body)).
Proof.
  intros Hu method body queryParams fragment.
  exists (request h config options u); split; [|split].
  - unfold sent; now rewrite (makeOptimizelyGraphRequest_run _ _ _ _ _ Hu).
  - intros Hqs; cbv zeta.
    destruct (final_url_params options u Hqs) as [Hp Hh]; cbv zeta in Hp, Hh.
    unfold request; cbn [req_url req_headers]; rewrite Hp, Hh.
    split; [reflexivity | apply obj_get_set].
  - intros Hqs Hq.
    assert (Hv : final_url options u = u)
      by (unfold final_url; fold queryParams; now rewrite Hqs).
    unfold request; cbn [req_url req_headers]; rewrite Hv; split.
    + unfold url_href; now rewrite Hq.
    + unfold spread at 1; cbn [fold_left fst snd]; rewrite obj_get_set.
      unfold pathWithQuery, url_search; rewrite Hq; cbn [String.eqb].
      now rewrite append_nil_r.
Qed.

End DispatcherHeaders.

(** ** More on the synonym upload *)

Section UploadPath.
Import Js Runtime Hmac Wire Text.
Local Open Scope string_scope.

(** The form encoding leaves no delimiter of a URL or of a query. *)
Lemma urlencode_char_reserved (d x : ascii) :
  In d ["&"; "="; "?"; "#"; " "; "/"]%char ->
  contains d (urlencode_char x) = false.
Proof.
  intros Hd.
  assert (Hall : forallb
                   (fun n =>
                      forallb
                        (fun d =>
                           negb (contains d (urlencode_char (ascii_of_nat n))))
                        ["&"; "="; "?"; "#"; " "; "/"]%char)
                   (seq 0 256) = true) by (vm_compute; reflexivity).
  rewrite forallb_forall in Hall.
  specialize (Hall (nat_of_ascii x)).
  rewrite ascii_nat_embedding, forallb_forall in Hall.
  apply negb_true_iff, Hall; [|exact Hd].
  apply in_seq; pose proof (nat_ascii_bounded x); lia.
Qed.

Lemma urlencode_reserved (d : ascii) (s : string) :
  In d ["&"; "="; "?"; "#"; " "; "/"]%char ->
  contains d (urlencode s) = false.
Proof.
  intros Hd; induction s as [|x s IH]; simpl; [reflexivity|].
  now rewrite contains_app, IH, urlencode_char_reserved.
Qed.

Variable h : Host.
Variable config : OptimizelyGraphConfig.

(** X13. Whatever the slot and the routing, the upload sends one PUT whose
    path is that of the resource with the query
    synonym_slot=<slot>&language_routing=<routing, form-encoded>, slot 1
    and routing 'standard' by default; it is signed over that path and
    the synonym text, and sent as text/plain.  The encoded routing holds
    none of '&', '=', '?', '#', '/' and no space: a routing cannot add a
    parameter or change the path. *)
Theorem uploadSynonyms_path (synonyms : string) (options : SynonymOptions)
    (u : URL) :
  URL_new h "/resources/synonyms" (gatewayUrl config) = Ok u ->
  url_searchParams u = [] ->
  let slot := slot_string (default Slot1 (synonymSlot options)) in
  let routing := default "standard" (languageRouting options) in
  let path :=
    url_pathname u ++ "?synonym_slot=" ++ slot ++ "&language_routing="
      ++ urlencode routing in
  sent (uploadSynonyms config synonyms options) h
  = [ {| req_url :=
           url_origin u ++ path
             ++ match url_fragment u with None => "" | Some f => "#" ++ f end;
         req_method := "PUT";
         req_headers := [("Content-Type", "text/plain");
                         ("authorization",
                          signed h config "PUT" path synonyms)];
         req_body := Some synonyms |} ]
  /\ forall d, In d ["&"; "="; "?"; "#"; " "; "/"]%char ->
               contains d (urlencode routing) = false.
Proof.
  intros Hu Hs slot routing path; split;
    [|intros d Hd; now apply urlencode_reserved].
  pose proof (uploadSynonyms_run h config synonyms options) as Hrun.
  rewrite Hu in Hrun; cbv zeta in Hrun; destruct Hrun as (res & Hrun & _).
  unfold sent; rewrite Hrun; cbn [fst].
  destruct (final_url_params (put_options synonyms options) u) as [Hp Hh];
    [discriminate|].
  cbv zeta in Hp, Hh.
  assert (Hq : urlencoded_serialize
                 (url_searchParams u
                    ++ default [] (opt_queryParams (put_options synonyms options)))
               = "synonym_slot=" ++ slot ++ "&language_routing="
                   ++ urlencode routing).
  { rewrite Hs; unfold urlencoded_serialize, put_options;
      cbn [app List.map String.concat fst snd default opt_queryParams].
    fold slot routing.
    assert (E1 : urlencode "synonym_slot" = "synonym_slot") by reflexivity.
    assert (E2 : urlencode "language_routing" = "language_routing")
      by reflexivity.
    assert (E3 : urlencode slot = slot)
      by (subst slot; destruct (synonymSlot options) as [[]|]; reflexivity).
    rewrite E1, E2, E3, !append_assoc; reflexivity. }
  rewrite Hq in Hp, Hh.
  unfold request; rewrite Hp, Hh; reflexivity.
Qed.

(** X14. The result of an upload has an error exactly when it is not a
    success; the message of a success names the slot and the routing as
    they were given; at most one request is sent, and none exactly when
    the gateway URL does not parse, which is reported as a network
    error with the message of the parser. *)
Theorem uploadSynonyms_outcomes (synonyms : string) (options : SynonymOptions) :
  let slot := slot_string (default Slot1 (synonymSlot options)) in
  let routing := default "standard" (languageRouting options) in
  exists res,
    outcome (uploadSynonyms config synonyms options) h = Ok res
    /\ (success res = true <-> error res = None)
    /\ (success res = true ->
        message res
        = "Synonyms successfully uploaded to slot " ++ slot
            ++ " for language routing: " ++ routing)
    /\ (success res = false ->
        message res = "Network error"
        \/ message res = "Failed to upload synonyms")
    /\ List.length (sent (uploadSynonyms config synonyms options) h) <= 1
    /\ (sent (uploadSynonyms config synonyms options) h = [] <->
        exists e, URL_new h "/resources/synonyms" (gatewayUrl config) = Throw e)
    /\ (forall e,
           URL_new h "/resources/synonyms" (gatewayUrl config) = Throw e ->
           res = {| success := false;
                    message := "Network error";
                    error := Some (message_or "Unknown error" e) |}).
Proof.
  intros slot routing.
  unfold outcome, sent, uploadSynonyms, try_catch, bind; cbv zeta.
  fold slot routing.
  destruct (URL_new h "/resources/synonyms" (gatewayUrl config)) as [u|e] eqn:Hu.
  - pose proof (makeOptimizelyGraphRequest_run h config _
                  (put_options synonyms options) u Hu) as Hrun.
    unfold put_options in Hrun at 1; fold slot routing in Hrun.
    rewrite Hrun; clear Hrun.
    set (rq := request h config (put_options synonyms options) u).
    assert (Hno : ([rq] = [] <-> exists e, Ok u = @Throw URL e))
      by (split; [discriminate | intros [e He]; discriminate]).
    destruct (fetch h rq) as [r|e]; [destruct (ok r)|];
      [| unfold lift; destruct (text r) as [t|e] |];
      cbn; eexists; (split; [reflexivity|]); cbn;
      repeat split; auto; try discriminate; try lia;
      try (intros [e' He']; discriminate); try apply Hno;
      intros e' He'; discriminate.
  - rewrite (makeOptimizelyGraphRequest_bad_url h config _ _ e Hu).
    cbn; eexists; (split; [reflexivity|]); cbn.
    repeat split; auto; try discriminate; try lia; eauto.
    intros e' He'; now injection He' as <-.
Qed.

End UploadPath.

(** ** Requests of the admin API *)

Section ApiRequest.
Import Js Runtime Hmac Wire Text GraphUtils.
Local Open Scope string_scope.

Variable h : Host.

Lemma getOptimizelyGraphConfig_pair :
  getOptimizelyGraphConfig h = ([], outcome getOptimizelyGraphConfig h).
Proof.
  unfold outcome, getOptimizelyGraphConfig, bind, ask, throw, ret; cbn.
  destruct (falsy (env h "OPTIMIZELY_GRAPH_APP_KEY")
            || falsy (env h "OPTIMIZELY_GRAPH_SECRET")); reflexivity.
Qed.

(** X15. With a configuration and an endpoint that parses,
    [makeHmacApiRequest] sends one request.  A GET (the default) has no
    body and is signed over the empty body, whatever body was passed;
    otherwise a string is sent as it is, any other value as its JSON, and
    no value as the empty string, and the signature digests what is sent.
    The Content-Type is the caller's if there is one, else 'text/plain'
    for an endpoint that contains '/synonyms' and 'application/json' for
    every other; 'authorization' is always the signer's. *)
Theorem makeHmacApiRequest_request (endpoint : string)
    (options : ApiRequestOptions) (c : OptimizelyGraphConfig) (u : URL)
    (name : string) :
  outcome getOptimizelyGraphConfig h = Ok c ->
  URL_new h endpoint (gatewayUrl c) = Ok u ->
  NoDup (List.map fst (default [] (api_headers options))) ->
  let method := default "GET" (api_method options) in
  let payload :=
    if String.eqb method "GET" then ""
    else match api_body options with
         | VString s => s
         | body => default "" (stringify body)
         end in
  let contentType :=
    if includes endpoint "/synonyms" then "text/plain"
    else "application/json" in
  let url :=
    fold_left searchParams_append (default [] (api_queryParams options)) u in
  exists rq,
    sent (makeHmacApiRequest endpoint options) h = [rq]
    /\ req_url rq = url_href url
    /\ req_method rq = method
    /\ req_body rq = (if String.eqb method "GET" then None else Some payload)
    /\ obj_get (req_headers rq) name
       = if String.eqb name "authorization"
         then Some (signed h c method (pathWithQuery url) payload)
         else match obj_get (default [] (api_headers options)) name with
              | Some v => Some v
              | None => if String.eqb name "Content-Type"
                        then Some contentType else None
              end.
Proof.
  intros Hc Hu Hnd method payload contentType url.
  unfold sent, makeHmacApiRequest, bind.
  rewrite getOptimizelyGraphConfig_pair, Hc; cbv zeta.
  fold method contentType.
  set (opts := {| opt_method := Some method;
                  opt_body := _; opt_headers := _; opt_queryParams := _ |}).
  rewrite (makeOptimizelyGraphRequest_run h c endpoint opts u Hu); cbn [fst app].
  exists (request h c opts u); split; [reflexivity|].
  assert (Hbody : default "" (opt_body opts) = payload).
  { subst opts payload; cbn [opt_body].
    destruct (String.eqb method "GET"); cbn [negb]; [reflexivity|].
    now destruct (api_body options). }
  split; [reflexivity|]. split; [reflexivity|]. split.
  - unfold request; cbn [req_body]; rewrite Hbody.
    subst opts; cbn [opt_method default].
    now destruct (String.eqb method "GET").
  - rewrite request_headers
      by (subst opts; cbn [opt_headers default]; apply spread_NoDup;
          repeat constructor; simpl; tauto).
    rewrite Hbody; subst opts; cbn [opt_headers opt_method default].
    destruct (String.eqb name "authorization"); [reflexivity|].
    rewrite obj_get_spread by assumption.
    destruct (obj_get (default [] (api_headers options)) name);
      [reflexivity|].
    cbn [obj_get]; now destruct (String.eqb name "Content-Type").
Qed.

(** X16. Without an application key or without a secret,
    [makeHmacApiRequest] throws the configuration error and sends
    nothing, whatever the endpoint and the options. *)
Theorem makeHmacApiRequest_unconfigured (endpoint : string)
    (options : ApiRequestOptions) :
  falsy (env h "OPTIMIZELY_GRAPH_APP_KEY")
  || falsy (env h "OPTIMIZELY_GRAPH_SECRET") = true ->
  makeHmacApiRequest endpoint options h
  = ([], Throw (JsError "Missing required environment variables: OPTIMIZELY_GRAPH_APP_KEY and OPTIMIZELY_GRAPH_SECRET")).
Proof.
  intros Hm; unfold makeHmacApiRequest, bind.
  rewrite getOptimizelyGraphConfig_pair.
  unfold outcome, getOptimizelyGraphConfig, bind, ask, throw, ret; cbn.
  now rewrite Hm.
Qed.

End ApiRequest.

(** ** More on the content search *)

Section SearchRequest.
Import Js Runtime Hmac Wire Text GraphUtils.
Local Open Scope string_scope.

Variable h : Host.

Lemma truthy_or (a b : value) : truthy (or a b) = truthy a || truthy b.
Proof. unfold or; destruct (truthy a) eqn:E; [now rewrite E | reflexivity]. Qed.

Lemma stringify_truthy (v : value) :
  truthy v = true -> exists r, stringify v = Some r.
Proof. destruct v as [| |[]| | | |]; simpl; eauto; discriminate. Qed.

(** X17. The search sends one POST to the endpoint /content/v2 with no
    query parameter added.  Its body is the JSON object of the query text
    and the variables, in that order, where variables that are missing
    or falsy are the empty object; it is sent as application/json, and
    the signature is over POST, the path and that body. *)
Theorem searchContent_request (config : OptimizelyGraphConfig)
    (query : string) (variables : value) (u : URL) :
  URL_new h "/content/v2" (gatewayUrl config) = Ok u ->
  exists vars,
    stringify (if truthy variables then variables else VObject [])
    = Some vars
    /\ (truthy variables = false -> vars = "{}")
    /\ let body :=
         "{" ++ quote "query" ++ ":" ++ quote query ++ ","
           ++ quote "variables" ++ ":" ++ vars ++ "}" in
       sent (searchContent config query variables) h
       = [ {| req_url := url_href u;
              req_method := "POST";
              req_headers :=
                [("Content-Type", "application/json");
                 ("authorization",
                  signed h config "POST" (pathWithQuery u) body)];
              req_body := Some body |} ].
Proof.
  intros Hu.
  assert (Hv : exists vars,
             stringify (or variables (VObject [])) = Some vars
             /\ (truthy variables = false -> vars = "{}")).
  { unfold or; destruct (truthy variables) eqn:Ht.
    - destruct (stringify_truthy _ Ht) as [r Hr]; exists r; split;
        [exact Hr | discriminate].
    - exists "{}"; split; reflexivity. }
  destruct Hv as (vars & Hvars & Hempty); exists vars.
  split; [exact Hvars|]. split; [exact Hempty|]. cbv zeta.
  pose proof (searchContent_run h config query variables) as Hrun.
  rewrite Hu in Hrun; cbv zeta in Hrun; destruct Hrun as (res & Hrun & _).
  unfold sent; rewrite Hrun; cbn [fst].
  unfold request, post_options, final_url;
    cbn [opt_method opt_body opt_headers opt_queryParams default fold_left
         stringify flat_map snd fst app].
  rewrite Hvars; cbn [app String.concat default].
  rewrite !append_assoc.
  reflexivity.
Qed.

(** On an item that is [null] or [undefined] the first property read
    throws; every other item is normalized. *)
Lemma transformContentItem_nullish (item : value) :
  nullish item = true ->
  transformContentItem item h
  = ([], Throw (JsError ("Cannot read properties of " ++ type_of_nullish item
                           ++ " (reading 'Url')"))).
Proof.
  intros Hn; unfold transformContentItem, bind, lift, get; now rewrite Hn.
Qed.

Lemma mapM_transformContentItem_nullish (raw : list value) :
  Exists (fun item => nullish item = true) raw ->
  exists item,
    In item raw /\ nullish item = true
    /\ outcome (mapM transformContentItem raw) h
       = Throw (JsError ("Cannot read properties of " ++ type_of_nullish item
                           ++ " (reading 'Url')")).
Proof.
  unfold outcome; induction raw as [|x raw IH]; intros Hex;
    [inversion Hex|].
  cbn [mapM]; unfold bind.
  destruct (nullish x) eqn:Hx.
  - exists x; rewrite (transformContentItem_nullish x Hx).
    repeat split; [now left | assumption].
  - rewrite (transformContentItem_run h x Hx); cbv zeta.
    inversion_clear Hex as [? ? Hx'|? ? Hex']; [congruence|].
    destruct (IH Hex') as (item & Hin & Hnull & Hthrow).
    exists item; split; [now right|]; split; [assumption|].
    destruct (mapM transformContentItem raw h) as [t r]; cbn in *.
    now rewrite Hthrow.
Qed.

(** X18. One item that is [null] spoils the search: when the response is
    a success without errors and its item list holds a [null] (or an
    [undefined]) among any number of items, the result has no items at
    all and the error is the message of the TypeError raised at the
    first property read of that item. *)
Theorem searchContent_null_item (config : OptimizelyGraphConfig)
    (query : string) (variables : value) (rq : Request) (r : Response)
    (result : value) (raw : list value) :
  sent (searchContent config query variables) h = [rq] ->
  fetch h rq = Ok r ->
  ok r = true ->
  json r = Ok result ->
  nullish result = false ->
  truthy (opt_get result "errors") = false ->
  extracted result = VArray raw ->
  Exists (fun item => nullish item = true) raw ->
  exists item,
    In item raw /\ nullish item = true
    /\ outcome (searchContent config query variables) h
       = Ok {| items := [];
               error := Some ("Cannot read properties of "
                                ++ type_of_nullish item
                                ++ " (reading 'Url')") |}.
Proof.
  intros Hsent Hf Hok Hj Hres Herr Hraw Hex.
  pose proof (searchContent_run h config query variables) as Hrun.
  unfold sent, outcome in *.
  destruct (URL_new h "/content/v2" (gatewayUrl config)) as [u|e].
  - cbv zeta in Hrun; destruct Hrun as (res & Hrun & Hread).
    rewrite Hrun in Hsent |- *; cbn [fst snd] in *.
    injection Hsent as <-.
    rewrite Hf, Hok, Hj in Hread.
    unfold read_result in Hread.
    rewrite (get_ok _ _ Hres), Herr, Hraw in Hread; cbn [as_array] in Hread.
    destruct (mapM_transformContentItem_nullish raw Hex)
      as (item & Hin & Hnull & Hthrow).
    rewrite Hthrow in Hread; subst res.
    exists item; repeat split; assumption.
  - rewrite Hrun in Hsent; discriminate.
Qed.

(** X19. [transformContentItem] throws a TypeError on [null] and
    [undefined], and on every other value returns an item whose name,
    content type and language are never empty: they default to
    'Untitled', 'Unknown' and 'Unknown'.  The URL is built from base and
    default when both are present and parse together; in every other
    case it is the [Url] of the item or, failing that, the default. *)
Theorem transformContentItem_defaults (item : value) :
  let url_default :=
    opt_get (opt_get (opt_get item "_metadata") "url") "default" in
  let url_base :=
    opt_get (opt_get (opt_get item "_metadata") "url") "base" in
  (nullish item = true ->
   exists msg, transformContentItem item h = ([], Throw (JsError msg)))
  /\ (nullish item = false ->
      exists normalized,
        transformContentItem item h = ([], Ok normalized)
        /\ truthy (name normalized) = true
        /\ truthy (contentType normalized) = true
        /\ truthy (language normalized) = true
        /\ (forall u,
               truthy url_base = true -> truthy url_default = true ->
               URL_new h (toString url_default) (toString url_base) = Ok u ->
               url normalized = VString (url_href u))
        /\ ((truthy url_base && truthy url_default = false
             \/ exists e,
                 URL_new h (toString url_default) (toString url_base)
                 = Throw e) ->
            url normalized
            = (if truthy (opt_get item "Url") then opt_get item "Url"
               else url_default))).
Proof.
  intros url_default url_base; split; intros Hn.
  - eexists; now apply transformContentItem_nullish.
  - eexists; split; [apply (transformContentItem_run h item Hn)|].
    cbn [name contentType language url]; fold url_default url_base.
    rewrite !truthy_or; cbn [truthy String.eqb negb]; rewrite !orb_true_r.
    repeat split.
    + intros u Hb Hd Hu; now rewrite Hb, Hd, Hu.
    + intros [Hb|[e He]]; [now rewrite Hb|].
      rewrite He; now destruct (truthy url_base && truthy url_default).
Qed.

End SearchRequest.

(** ** The guard of the admin dashboard *)

Section AdminFacts.
Import Text AdminAuth.
Local Open Scope string_scope.

Lemma split_ne_free (sep : ascii) (a : string) :
  contains sep a = false -> JsString.split_ne sep a = (a, []).
Proof.
  induction a as [|x a IH]; simpl; [reflexivity|]; intros H.
  apply orb_false_elim in H as [Hx Ha]; now rewrite (IH Ha), Hx.
Qed.

Lemma split_ne_app (sep : ascii) (a r : string) :
  contains sep a = false ->
  JsString.split_ne sep (a ++ String sep r) = (a, JsString.split sep r).
Proof.
  unfold JsString.split; induction a as [|x a IH]; simpl; intros H.
  - rewrite Ascii.eqb_refl; now destruct (JsString.split_ne sep r).
  - apply orb_false_elim in H as [Hx Ha]; now rewrite (IH Ha), Hx.
Qed.

Lemma prefix_colon (rest : string) :
  String.prefix ":" rest = true -> exists t, rest = String ":" t.
Proof.
  destruct rest as [|c t]; [discriminate|].
  change (String.prefix ":" (String c t))
    with (if ascii_dec ":" c then String.prefix "" t else false).
  destruct (ascii_dec ":" c) as [<-|_]; [eauto | discriminate].
Qed.

(** The first two parts of a split, put back together. *)
Lemma split_two (sep : ascii) (s a b : string) (l : list string) :
  JsString.split_ne sep s = (a, b :: l) ->
  exists rest,
    s = a ++ String sep (b ++ rest)
    /\ (rest = "" \/ String.prefix (String sep "") rest = true).
Proof.
  intros Hs; pose proof (concat_split sep s) as Hc.
  unfold JsString.split in Hc; rewrite Hs in Hc; rewrite <- Hc.
  cbn [String.concat]; destruct l as [|p l].
  - exists ""; split; [now rewrite append_nil_r | now left].
  - exists (String sep (String.concat (String sep "") (p :: l))).
    split; [reflexivity|right].
    set (t := String.concat _ _).
    change (String.prefix (String sep "") (String sep t))
      with (if ascii_dec sep sep then String.prefix "" t else false).
    destruct (ascii_dec sep sep); [now destruct t | contradiction].
Qed.

Variable env : Env.
Variable request : AdminRequest.

Lemma isAdminConfigured_iff :
  isAdminConfigured env = true <->
  exists user pass,
    env "ADMIN_DASHBOARD_USERNAME" = Some user /\ user <> ""
    /\ env "ADMIN_DASHBOARD_PASSWORD" = Some pass /\ pass <> "".
Proof.
  unfold isAdminConfigured, Hmac.falsy.
  destruct (env "ADMIN_DASHBOARD_USERNAME") as [user|];
    destruct (env "ADMIN_DASHBOARD_PASSWORD") as [pass|]; simpl;
    try destruct (String.eqb_spec user ""); try destruct (String.eqb_spec pass "");
    simpl; split; try discriminate;
    try (intros (a & b & H1 & H2 & H3 & H4); congruence).
  intros _; eauto 6.
Qed.

Lemma checkAdminAuth_cases :
  if isAdminConfigured env
  then checkAdminAuth env request = None
       \/ checkAdminAuth env request = Some unauthorized
  else checkAdminAuth env request = Some not_found.
Proof.
  unfold checkAdminAuth; destruct (isAdminConfigured env); cbn [negb];
    [|reflexivity].
  destruct (parseBasicAuth _); [|now right].
  destruct (differ _ _ || differ _ _); [now right | now left].
Qed.

(** What a request that passes has sent. *)
Lemma checkAdminAuth_None_inv (user pass : string) :
  env "ADMIN_DASHBOARD_USERNAME" = Some user ->
  env "ADMIN_DASHBOARD_PASSWORD" = Some pass ->
  checkAdminAuth env request = None ->
  exists header rest,
    header_authorization request = Some header
    /\ String.prefix "Basic " header = true
    /\ atob (drop 6 header) = Some (user ++ ":" ++ pass ++ rest)
    /\ (rest = "" \/ String.prefix ":" rest = true)
    /\ contains ":" user = false
    /\ contains ":" pass = false.
Proof.
  intros Hu Hp; unfold checkAdminAuth.
  destruct (negb (isAdminConfigured env)); [discriminate|].
  rewrite Hu, Hp; unfold parseBasicAuth.
  destruct (header_authorization request) as [header|] eqn:Hh;
    [|discriminate].
  destruct (String.eqb header "" || negb (String.prefix "Basic " header))
    eqn:Hb; [discriminate|].
  apply orb_false_elim in Hb as [_ Hb]; apply negb_false_iff in Hb.
  destruct (atob (drop 6 header)) as [credentials|] eqn:Ha; [|discriminate].
  pose proof (split_ne_parts ":" credentials) as [Hfree1 Hfree2].
  destruct (JsString.split_ne ":" credentials) as [name rest] eqn:Hs.
  cbn [username password fst snd] in *.
  destruct (differ (Some name) (Some user) || differ (hd_error rest) (Some pass))
    eqn:Hd; [discriminate|intros _].
  apply orb_false_elim in Hd as [Hd1 Hd2].
  destruct rest as [|p rest]; [discriminate|].
  cbn in Hd1, Hd2.
  apply negb_false_iff, String.eqb_eq in Hd1, Hd2; subst name p.
  destruct (split_two _ _ _ _ _ Hs) as (r & -> & Hr).
  inversion_clear Hfree2 as [|? ? Hpass _].
  exists header, r; repeat split; auto.
Qed.

Lemma checkAdminAuth_None_intro (user pass header rest : string) :
  env "ADMIN_DASHBOARD_USERNAME" = Some user -> user <> "" ->
  env "ADMIN_DASHBOARD_PASSWORD" = Some pass -> pass <> "" ->
  header_authorization request = Some header ->
  String.prefix "Basic " header = true ->
  atob (drop 6 header) = Some (user ++ ":" ++ pass ++ rest) ->
  rest = "" \/ String.prefix ":" rest = true ->
  contains ":" user = false ->
  contains ":" pass = false ->
  checkAdminAuth env request = None.
Proof.
  intros Hu Hu' Hp Hp' Hh Hb Ha Hr Hcu Hcp.
  assert (Hc : isAdminConfigured env = true)
    by (apply isAdminConfigured_iff; eauto 6).
  unfold checkAdminAuth; rewrite Hc, Hu, Hp, Hh; cbn [negb].
  unfold parseBasicAuth; rewrite Hb, Ha.
  destruct header as [|c header]; [discriminate|]; cbn [String.eqb orb negb].
  change (user ++ ":" ++ pass ++ rest)
    with (user ++ String ":" (pass ++ rest)).
  rewrite (split_ne_app ":" user _ Hcu); cbn [username password].
  assert (Hhd : hd_error (JsString.split ":" (pass ++ rest)) = Some pass).
  { unfold JsString.split; destruct Hr as [->|Hr].
    - now rewrite append_nil_r, (split_ne_free ":" pass Hcp).
    - apply prefix_colon in Hr as [t ->].
      now rewrite (split_ne_app ":" pass t Hcp). }
  rewrite Hhd; cbn [differ]; now rewrite !String.eqb_refl.
Qed.

(** X20. An installation without a user name or without a password
    answers 404 'Not found' to every request, whatever its credentials,
    and only such an installation answers 404.  A configured one lets the
    request pass or answers 401 'Unauthorized'; it answers 401 to a
    request without authorization header and to one whose header does
    not start with 'Basic '.  [requireAdminAuth] is the same check. *)
Theorem checkAdminAuth_outcomes :
  (checkAdminAuth env request = Some not_found
   <-> isAdminConfigured env = false)
  /\ (isAdminConfigured env = true ->
      checkAdminAuth env request = None
      \/ checkAdminAuth env request = Some unauthorized)
  /\ (isAdminConfigured env = true ->
      (header_authorization request = None
       \/ exists header,
           header_authorization request = Some header
           /\ String.prefix "Basic " header = false) ->
      checkAdminAuth env request = Some unauthorized)
  /\ requireAdminAuth env request = checkAdminAuth env request.
Proof.
  pose proof checkAdminAuth_cases as Hcases.
  split; [|split; [|split; [|reflexivity]]].
  - destruct (isAdminConfigured env); split; try discriminate; auto.
    intros H; destruct Hcases as [Hc|Hc]; rewrite Hc in H; discriminate.
  - intros Hc; now rewrite Hc in Hcases.
  - intros Hc Hh; unfold checkAdminAuth, parseBasicAuth; rewrite Hc.
    destruct Hh as [->|(header & -> & ->)]; cbn [negb]; [reflexivity|].
    now rewrite orb_true_r.
Qed.

(** X21. With a user name and a password configured, a request passes
    exactly when its header is 'Basic ' followed by base64 that decodes
    to the user name, a colon and the password, alone or followed by a
    colon and anything, and neither holds a colon: what comes after a
    second colon is not compared. *)
Theorem checkAdminAuth_accepts (user pass : string) :
  env "ADMIN_DASHBOARD_USERNAME" = Some user -> user <> "" ->
  env "ADMIN_DASHBOARD_PASSWORD" = Some pass -> pass <> "" ->
  (checkAdminAuth env request = None
   <-> exists header rest,
        header_authorization request = Some header
        /\ String.prefix "Basic " header = true
        /\ atob (drop 6 header) = Some (user ++ ":" ++ pass ++ rest)
        /\ (rest = "" \/ String.prefix ":" rest = true)
        /\ contains ":" user = false
        /\ contains ":" pass = false).
Proof.
  intros Hu Hu' Hp Hp'; split.
  - now apply checkAdminAuth_None_inv.
  - intros (header & rest & Hh & Hb & Ha & Hr & Hcu & Hcp).
    now apply (checkAdminAuth_None_intro user pass header rest).
Qed.

(** X22. A configured user name or password that holds a colon locks
    the dashboard: every request is answered 401, whatever it sends,
    because the credentials received are cut at every colon. *)
Theorem checkAdminAuth_colon_lockout (user pass : string) :
  env "ADMIN_DASHBOARD_USERNAME" = Some user -> user <> "" ->
  env "ADMIN_DASHBOARD_PASSWORD" = Some pass -> pass <> "" ->
  contains ":" user || contains ":" pass = true ->
  checkAdminAuth env request = Some unauthorized.
Proof.
  intros Hu Hu' Hp Hp' Hcolon.
  pose proof checkAdminAuth_cases as Hcases.
  assert (Hc : isAdminConfigured env = true)
    by (apply isAdminConfigured_iff; eauto 6).
  rewrite Hc in Hcases; destruct Hcases as [Hnone|Hun]; [|exact Hun].
  destruct (checkAdminAuth_None_inv user pass Hu Hp Hnone)
    as (_ & _ & _ & _ & _ & _ & Hcu & Hcp).
  rewrite Hcu, Hcp in Hcolon; discriminate.
Qed.

End AdminFacts.

(** ** The responses and the handlers of the admin API *)

Section ResponseFacts.
Import Js Runtime Hmac GraphUtils ApiResponses ApiWire Wire Text.
Local Open Scope string_scope.

Lemma new_Response_constructible (body : string) (status : N)
    (headers : list (string * string)) :
  constructible status = true ->
  new_Response body status headers
  = Ok {| http_status := to_unsigned_short status; http_body := body;
          http_headers := headers |}.
Proof.
  unfold constructible, new_Response; cbv zeta.
  set (code := to_unsigned_short status); intros H.
  apply andb_true_iff in H as [H H3]; apply andb_true_iff in H as [H1 H2].
  apply N.leb_le in H1, H2; apply negb_true_iff in H3; rewrite H3.
  destruct (N.ltb_spec code 200); [lia|].
  destruct (N.ltb_spec 599 code); [lia|]; reflexivity.
Qed.

Lemma new_Response_refused (body : string) (status : N)
    (headers : list (string * string)) :
  constructible status = false ->
  exists e, new_Response body status headers = Throw e.
Proof.
  unfold constructible, new_Response; cbv zeta.
  set (code := to_unsigned_short status); intros H.
  destruct (N.ltb_spec code 200); [cbn [orb]; eauto|].
  destruct (N.ltb_spec 599 code); [cbn [orb]; eauto|]; cbn [orb].
  destruct (null_body_status code); [eauto|].
  destruct (N.leb_spec 200 code); [|lia].
  destruct (N.leb_spec code 599); [|lia]; discriminate.
Qed.

Lemma constructible_iff (status : N) :
  let code := (status mod 65536)%N in
  constructible status = true
  <-> (200 <= code <= 599)%N /\ code <> 204%N /\ code <> 205%N
      /\ code <> 304%N.
Proof.
  unfold constructible, null_body_status, to_unsigned_short; cbv zeta.
  set (code := (status mod 65536)%N).
  rewrite !andb_true_iff, negb_true_iff, !orb_false_iff, !N.leb_le,
    !N.eqb_neq.
  split; [intros [[H1 H2] ((((H3 & H4) & H5) & H6) & H7)]; auto|].
  intros ((H1 & H2) & H3 & H4 & H5); repeat split; auto; lia.
Qed.

Lemma createErrorResponse_run (error : string) (status : option N) :
  createErrorResponse error status
  = new_Response (error_body error) (default 400%N status) json_headers.
Proof. reflexivity. Qed.

Lemma handleApiError_run (e : exn) : handleApiError e = Ok (failure e).
Proof. reflexivity. Qed.

(** X23. [createSuccessResponse] never fails and answers 200 with the
    JSON of an object that starts with success true.  The message is part
    of it unless it is missing or empty, and the data unless they are
    falsy: a payload that is 0, false, the empty string or null is left
    out like a payload that was never given, while an empty list is
    kept. *)
Theorem createSuccessResponse_body (data : value) (message : option string) :
  (exists body,
      createSuccessResponse data message
      = Ok {| http_status := 200; http_body := body;
              http_headers := [("Content-Type", "application/json")] |}
      /\ String.prefix ("{" ++ quote "success" ++ ":true") body = true)
  /\ (truthy data = false ->
      createSuccessResponse data message
      = createSuccessResponse VUndefined message)
  /\ createSuccessResponse data (Some "") = createSuccessResponse data None
  /\ (truthy data = false -> falsy message = true ->
      createSuccessResponse data message
      = Ok {| http_status := 200;
              http_body := "{" ++ quote "success" ++ ":true}";
              http_headers := [("Content-Type", "application/json")] |})
  /\ (forall m d,
         message = Some m -> m <> "" -> truthy data = true ->
         stringify data = Some d ->
         createSuccessResponse data message
         = Ok {| http_status := 200;
                 http_body :=
                   "{" ++ quote "success" ++ ":true," ++ quote "message"
                     ++ ":" ++ quote m ++ "," ++ quote "data" ++ ":" ++ d
                     ++ "}";
                 http_headers := [("Content-Type", "application/json")] |})
  /\ createSuccessResponse (VArray []) None
     = Ok {| http_status := 200;
             http_body := "{" ++ quote "success" ++ ":true," ++ quote "data"
                            ++ ":[]}";
             http_headers := [("Content-Type", "application/json")] |}.
Proof.
  unfold createSuccessResponse, when_truthy.
  repeat split.
  - eexists; split; [reflexivity|].
    unfold stringify_object.
    set (rest := (_ ++ (if truthy data then _ else _))%list).
    cbn [app stringify flat_map snd fst default].
    destruct (flat_map _ rest); reflexivity.
  - intros ->; reflexivity.
  - intros ->; destruct message as [[|c m]|]; try discriminate; reflexivity.
  - intros m d -> Hm Hd Hs; destruct m as [|c m]; [congruence|].
    rewrite Hd; unfold stringify_object;
      cbn [truthy String.eqb negb app stringify flat_map snd fst default].
    rewrite Hs; cbn [app String.concat default]; rewrite !append_assoc.
    reflexivity.
Qed.

(** X24. For a status that is a whole number and not negative, 400 by
    default, [createErrorResponse] answers with the status that the
    constructor of Response makes of it, the status modulo 65536, and the
    JSON of success false and the error.  It throws, instead of
    answering, exactly when that converted status is outside 200..599 or
    is 204, 205 or 304: 65736 is answered as 200, and 600 throws.
    [handleApiError] always answers, with status 500 and the message of
    the error, or 'Unknown error occurred' for a value that is not an
    Error. *)
Theorem createErrorResponse_status (error : string) (status : option N) :
  let code := (default 400%N status mod 65536)%N in
  ((exists response, createErrorResponse error status = Ok response)
   <-> (200 <= code <= 599)%N /\ code <> 204%N /\ code <> 205%N
       /\ code <> 304%N)
  /\ (forall response,
         createErrorResponse error status = Ok response ->
         response
         = {| http_status := code;
              http_body :=
                "{" ++ quote "success" ++ ":false," ++ quote "error" ++ ":"
                  ++ quote error ++ "}";
              http_headers := [("Content-Type", "application/json")] |})
  /\ createErrorResponse error None
     = createErrorResponse error (Some 400%N)
  /\ createErrorResponse error (Some 65736%N)
     = createErrorResponse error (Some 200%N)
  /\ (exists e, createErrorResponse error (Some 600%N) = Throw e)
  /\ (forall e,
         handleApiError e
         = Ok {| http_status := 500;
                 http_body :=
                   "{" ++ quote "success" ++ ":false," ++ quote "error"
                     ++ ":"
                     ++ quote (match e with
                               | JsError m => m
                               | NonError _ => "Unknown error occurred"
                               end) ++ "}";
                 http_headers := [("Content-Type", "application/json")] |}).
Proof.
  intros code; rewrite createErrorResponse_run.
  pose proof (constructible_iff (default 400%N status)) as Hc.
  cbv zeta in Hc; fold code in Hc.
  split; [|split; [|split; [|split; [|split]]]].
  - rewrite <- Hc; destruct (constructible (default 400%N status)) eqn:E.
    + rewrite new_Response_constructible by assumption; split; eauto.
    + destruct (new_Response_refused (error_body error)
                  (default 400%N status) json_headers E) as [e ->].
      split; [intros [r Hr]; discriminate | discriminate].
  - intros response; destruct (constructible (default 400%N status)) eqn:E.
    + rewrite new_Response_constructible by assumption.
      now intros H; injection H as <-.
    + destruct (new_Response_refused (error_body error)
                  (default 400%N status) json_headers E) as [e ->];
        discriminate.
  - reflexivity.
  - reflexivity.
  - eexists; reflexivity.
  - intros e; rewrite handleApiError_run; now destruct e.
Qed.

End ResponseFacts.

Section HandlerFacts.
Import Js Runtime Hmac GraphUtils ApiResponses ApiWire Wire Text.
Local Open Scope string_scope.

Variable h : Host.

(** A handler is a [try] whose [catch] answers 500: it always answers. *)
Lemma guarded_run (m : IO HttpResponse) :
  try_catch m (fun error => lift (handleApiError error)) h
  = (fst (m h),
     Ok match snd (m h) with
        | Ok response => response
        | Throw e => failure e
        end).
Proof.
  unfold try_catch, lift; destruct (m h) as [t [response|e]]; cbn;
    [reflexivity | now rewrite app_nil_r].
Qed.

(** The run of [makeHmacApiRequest]. *)
Lemma makeHmacApiRequest_run (endpoint : string) (options : ApiRequestOptions) :
  makeHmacApiRequest endpoint options h
  = match outcome getOptimizelyGraphConfig h with
    | Throw e => ([], Throw e)
    | Ok c =>
        match URL_new h endpoint (gatewayUrl c) with
        | Throw e => ([], Throw e)
        | Ok u =>
            let rq := request h c (dispatched endpoint options) u in
            ([rq], fetch h rq)
        end
    end.
Proof.
  unfold makeHmacApiRequest, bind; rewrite getOptimizelyGraphConfig_pair.
  destruct (outcome getOptimizelyGraphConfig h) as [c|e]; [|reflexivity].
  cbv zeta; fold (dispatched endpoint options).
  destruct (URL_new h endpoint (gatewayUrl c)) as [u|e] eqn:Hu.
  - now rewrite (makeOptimizelyGraphRequest_run h c _ _ u Hu).
  - now rewrite (makeOptimizelyGraphRequest_bad_url h c _ _ e Hu).
Qed.

Lemma createSuccessResponse_ok (data : value) (message : option string) :
  exists body,
    createSuccessResponse data message
    = Ok {| http_status := 200; http_body := body;
            http_headers := json_headers |}.
Proof. eexists; reflexivity. Qed.

Lemma createErrorResponse_headers (error : string) (status : option N) :
  http_headers
    match createErrorResponse error status with
    | Ok response => response
    | Throw e => failure e
    end
  = json_headers.
Proof.
  rewrite createErrorResponse_run.
  destruct (constructible (default 400%N status)) eqn:E.
  - now rewrite new_Response_constructible.
  - now destruct (new_Response_refused (error_body error)
                    (default 400%N status) json_headers E) as [e ->].
Qed.

Ltac answer :=
  eexists; split; [reflexivity|]; cbn [fst snd app List.length];
  repeat split; auto using createErrorResponse_headers; try lia;
  try discriminate.

(** X25. The handlers GET and DELETE of the pinned collections and GET of
    the pinned items never throw: each returns a response of type JSON
    after at most one request to the Graph, and when it has sent none
    (a missing identifier, a body that is not JSON, a missing
    configuration) the response is 400 or 500. *)
Theorem handlers_answer (request_json : result value)
    (collectionId : option string) :
  answers h PinnedCollections.GET
  /\ answers h (PinnedCollections.DELETE request_json)
  /\ answers h (PinnedItems.GET collectionId).
Proof.
  unfold answers, outcome, sent; split; [|split].
  - unfold PinnedCollections.GET; rewrite guarded_run; cbn [fst snd].
    unfold bind; rewrite makeHmacApiRequest_run.
    destruct (outcome getOptimizelyGraphConfig h) as [c|e]; [|answer].
    destruct (URL_new h _ (gatewayUrl c)) as [u|e]; [|answer].
    cbv zeta; destruct (fetch h _) as [r|e]; [|answer].
    unfold lift; destruct (ok r); cbn [negb].
    + destruct (json r) as [v|e]; [|answer].
      destruct (createSuccessResponse_ok (PinnedCollections.as_list v) None)
        as [body ->]; answer.
    + destruct (text r) as [t|e]; answer.
  - unfold PinnedCollections.DELETE; rewrite guarded_run; cbn [fst snd].
    unfold bind, lift; destruct request_json as [body|e]; [|answer].
    destruct (get body "id") as [id|e]; [|answer].
    destruct (truthy id); cbn [negb];
      [|eexists; split; [reflexivity|]; cbn; auto using le_0_n].
    rewrite makeHmacApiRequest_run.
    destruct (outcome getOptimizelyGraphConfig h) as [c|e]; [|answer].
    destruct (URL_new h _ (gatewayUrl c)) as [u|e]; [|answer].
    cbv zeta; destruct (fetch h _) as [r|e]; [|answer].
    destruct (ok r); cbn [negb]; [answer|].
    destruct (text r) as [t|e]; answer.
  - unfold PinnedItems.GET; rewrite guarded_run; cbn [fst snd].
    destruct (falsy collectionId);
      [eexists; split; [reflexivity|]; cbn; auto using le_0_n|].
    unfold bind; rewrite makeHmacApiRequest_run.
    destruct (outcome getOptimizelyGraphConfig h) as [c|e]; [|answer].
    destruct (URL_new h _ (gatewayUrl c)) as [u|e]; [|answer].
    cbv zeta; destruct (fetch h _) as [r|e]; [|answer].
    unfold lift; destruct (ok r); cbn [negb].
    + destruct (json r) as [v|e]; [|answer].
      destruct (createSuccessResponse_ok (PinnedCollections.as_list v) None)
        as [body ->]; answer.
    + destruct (text r) as [t|e]; answer.
Qed.

(** The request of a handler that passes only a method. *)
Lemma request_only_method (c : OptimizelyGraphConfig) (endpoint method : string)
    (u : URL) :
  let rq :=
    request h c (dispatched endpoint (PinnedCollections.only_method method)) u in
  req_url rq = url_href u
  /\ req_method rq = method
  /\ req_body rq = (if String.eqb method "GET" then None else Some "")
  /\ obj_get (req_headers rq) "authorization"
     = Some (signed h c method (pathWithQuery u) "").
Proof.
  cbv zeta; unfold request, dispatched, PinnedCollections.only_method;
    cbn [opt_method opt_body opt_headers opt_queryParams api_method api_body
         api_headers api_queryParams default final_url fold_left req_url
         req_method req_body req_headers stringify].
  repeat split.
  - now destruct (String.eqb method "GET").
  - unfold spread at 1; cbn [fold_left fst snd]; rewrite obj_get_set.
    now destruct (String.eqb method "GET").
Qed.

(** X26. With a configuration and a gateway that parses, the GET of the
    pinned collections sends one signed GET without body to
    /api/pinned/collections.  A success whose body is JSON is answered
    200 with the collections as data, wrapped in a list unless they are
    one; a body that is not JSON is answered 500.  A failure is answered
    with the status of the Graph, as the constructor of Response converts
    it (modulo 65536: the status itself when it is below 65536), and a
    message that quotes it, or with 500 when the converted status cannot
    be the status of a response with a body (below 200, above 599, or
    204, 205, 304). *)
Theorem pinned_collections_GET (c : OptimizelyGraphConfig) (u : URL)
    (r : Response) :
  outcome getOptimizelyGraphConfig h = Ok c ->
  URL_new h "/api/pinned/collections" (gatewayUrl c) = Ok u ->
  let rq :=
    {| req_url := url_href u;
       req_method := "GET";
       req_headers :=
         [("Content-Type", "application/json");
          ("authorization", signed h c "GET" (pathWithQuery u) "")];
       req_body := None |} in
  fetch h rq = Ok r ->
  sent PinnedCollections.GET h = [rq]
  /\ (ok r = true ->
      (forall v,
          json r = Ok v ->
          outcome PinnedCollections.GET h
          = createSuccessResponse
              (match v with VArray _ => v | _ => VArray [v] end) None)
      /\ (forall e,
             json r = Throw e ->
             outcome PinnedCollections.GET h = Ok (failure e)))
  /\ (ok r = false ->
      forall t,
        text r = Ok t ->
        let error :=
          "Failed to fetch collections: " ++ string_of_N (Runtime.status r)
            ++ " " ++ statusText r ++ " - " ++ t in
        let code := (Runtime.status r mod 65536)%N in
        ((200 <= code <= 599)%N /\ code <> 204%N /\ code <> 205%N
         /\ code <> 304%N ->
         outcome PinnedCollections.GET h
         = Ok {| http_status := code;
                 http_body := error_body error;
                 http_headers := json_headers |})
        /\ ((599 < code)%N \/ (code < 200)%N \/ code = 204%N
            \/ code = 205%N \/ code = 304%N ->
            exists e,
              outcome PinnedCollections.GET h = Ok (failure e))
        /\ ((300 <= Runtime.status r <= 599)%N ->
            code = Runtime.status r)).
Proof.
  intros Hc Hu rq Hf.
  assert (Hrq : request h c
                  (dispatched "/api/pinned/collections"
                     (PinnedCollections.only_method "GET")) u = rq)
    by reflexivity.
  unfold outcome, sent, PinnedCollections.GET; rewrite guarded_run.
  unfold bind; rewrite makeHmacApiRequest_run, Hc, Hu; cbv zeta.
  rewrite Hrq, Hf; cbn [fst snd]; unfold lift.
  split; [|split].
  - destruct (negb (ok r)); [destruct (text r) | destruct (json r)];
      reflexivity.
  - intros ->; cbn [negb]; split.
    + intros v ->; cbn [fst snd].
      destruct (createSuccessResponse_ok (PinnedCollections.as_list v) None)
        as [body Hb].
      unfold PinnedCollections.as_list in Hb; rewrite Hb.
      unfold PinnedCollections.as_list; now rewrite Hb.
    + now intros e ->.
  - intros -> t ->; cbn [negb fst snd app]; cbv zeta.
    rewrite createErrorResponse_run; cbn [default].
    pose proof (constructible_iff (Runtime.status r)) as Hcode.
    cbv zeta in Hcode; split; [|split].
    + intros H; rewrite new_Response_constructible; [reflexivity|].
      now apply Hcode.
    + intros H.
      destruct (new_Response_refused
                  (error_body
                     ("Failed to fetch collections: "
                        ++ string_of_N (Runtime.status r) ++ " "
                        ++ statusText r ++ " - " ++ t))
                  (Runtime.status r) json_headers) as [e ->]; [|eauto].
      destruct (constructible (Runtime.status r)) eqn:E; [|reflexivity].
      pose proof (proj1 Hcode eq_refl) as Hr.
      set (code := (_ mod _)%N) in *; lia.
    + intros H; apply N.mod_small; lia.
Qed.

(** X27. The DELETE of a pinned collection answers 500 to a body that is
    not JSON or is null, and 400 to a body without a truthy id, and sends
    nothing in these cases.  With an id that is a string it gives the
    URL parser the text /api/pinned/collections/ followed by the id as it
    was received, neither checked nor encoded by the handler, and sends
    one signed DELETE, with an empty body, to the URL the parser makes of
    it, whatever that is; a success of the Graph is answered 200 with a
    message and no data. *)
Theorem pinned_collections_DELETE (request_json : result value) :
  (forall e,
      request_json = Throw e ->
      PinnedCollections.DELETE request_json h = ([], Ok (failure e)))
  /\ (forall body,
         request_json = Ok body -> nullish body = true ->
         PinnedCollections.DELETE request_json h
         = ([], Ok (failure
                      (JsError ("Cannot read properties of "
                                  ++ type_of_nullish body
                                  ++ " (reading 'id')")))))
  /\ (forall body,
         request_json = Ok body -> nullish body = false ->
         truthy (opt_get body "id") = false ->
         PinnedCollections.DELETE request_json h
         = ([], Ok {| http_status := 400;
                      http_body := error_body "Collection ID is required";
                      http_headers := json_headers |}))
  /\ (forall body id c u,
         request_json = Ok body -> opt_get body "id" = VString id ->
         id <> "" ->
         outcome getOptimizelyGraphConfig h = Ok c ->
         URL_new h ("/api/pinned/collections/" ++ id) (gatewayUrl c) = Ok u ->
         exists rq,
           sent (PinnedCollections.DELETE request_json) h = [rq]
           /\ req_url rq = url_href u
           /\ req_method rq = "DELETE"
           /\ req_body rq = Some ""
           /\ obj_get (req_headers rq) "authorization"
              = Some (signed h c "DELETE" (pathWithQuery u) "")
           /\ (forall r,
                  fetch h rq = Ok r -> ok r = true ->
                  outcome (PinnedCollections.DELETE request_json) h
                  = Ok {| http_status := 200;
                          http_body :=
                            "{" ++ quote "success" ++ ":true,"
                              ++ quote "message" ++ ":"
                              ++ quote "Collection deleted successfully"
                              ++ "}";
                          http_headers := json_headers |})).
Proof.
  unfold outcome, sent, PinnedCollections.DELETE; rewrite guarded_run.
  unfold bind, lift; split; [|split; [|split]].
  - now intros e ->.
  - intros body -> Hn; unfold get; now rewrite Hn.
  - intros body -> Hn Hid; rewrite (get_ok _ _ Hn), Hid; reflexivity.
  - intros body id c u -> Hid Hne Hc Hu.
    assert (Hn : nullish body = false)
      by (destruct body; try reflexivity; discriminate).
    rewrite (get_ok _ _ Hn), Hid.
    assert (Ht : truthy (VString id) = true)
      by (destruct id; [congruence | reflexivity]).
    rewrite Ht; cbn [negb toString].
    change (outcome getOptimizelyGraphConfig h = Ok c) in Hc.
    rewrite makeHmacApiRequest_run, Hc, Hu; cbv zeta.
    set (rq := request h c _ u).
    destruct (request_only_method c ("/api/pinned/collections/" ++ id)
                "DELETE" u) as (R1 & R2 & R3 & R4); fold rq in R1, R2, R3, R4.
    exists rq; split; [|split; [exact R1|split; [exact R2|split;
      [exact R3|split; [exact R4|]]]]].
    + destruct (fetch h rq) as [r|e]; [|reflexivity].
      destruct (negb (ok r)); [destruct (text r)|]; reflexivity.
    + intros r -> ->; reflexivity.
Qed.

(** X28. The GET of the pinned items answers 400, and sends nothing, when
    the collection id is missing or empty.  Otherwise it gives the URL
    parser the text /api/pinned/collections/, the id as it was received
    (neither checked nor encoded by the handler) and /items, and sends
    one signed GET without body to the URL the parser makes of it,
    whatever that is; a success whose body is JSON is answered 200 with
    the items as data. *)
Theorem pinned_items_GET (collectionId : option string) :
  (falsy collectionId = true ->
   PinnedItems.GET collectionId h
   = ([], Ok {| http_status := 400;
                http_body := error_body "Collection ID is required";
                http_headers := json_headers |}))
  /\ (forall id c u,
         collectionId = Some id -> id <> "" ->
         outcome getOptimizelyGraphConfig h = Ok c ->
         URL_new h ("/api/pinned/collections/" ++ id ++ "/items")
           (gatewayUrl c) = Ok u ->
         exists rq,
           sent (PinnedItems.GET collectionId) h = [rq]
           /\ req_url rq = url_href u
           /\ req_method rq = "GET"
           /\ req_body rq = None
           /\ obj_get (req_headers rq) "authorization"
              = Some (signed h c "GET" (pathWithQuery u) "")
           /\ (forall r v,
                  fetch h rq = Ok r -> ok r = true -> json r = Ok v ->
                  outcome (PinnedItems.GET collectionId) h
                  = createSuccessResponse
                      (match v with VArray _ => v | _ => VArray [v] end)
                      None)).
Proof.
  unfold outcome, sent, PinnedItems.GET; rewrite guarded_run; split.
  - now intros ->.
  - intros id c u -> Hne Hc Hu.
    assert (Hf : falsy (Some id) = false)
      by (destruct id; [congruence | reflexivity]).
    rewrite Hf; cbn [default]; unfold bind, lift.
    change (outcome getOptimizelyGraphConfig h = Ok c) in Hc.
    rewrite makeHmacApiRequest_run, Hc, Hu; cbv zeta.
    set (rq := request h c _ u).
    destruct (request_only_method c
                ("/api/pinned/collections/" ++ id ++ "/items") "GET" u)
      as (R1 & R2 & R3 & R4); fold rq in R1, R2, R3, R4.
    exists rq; split; [|split; [exact R1|split; [exact R2|split;
      [exact R3|split; [exact R4|]]]]].
    + destruct (fetch h rq) as [r|e]; [|reflexivity].
      destruct (negb (ok r)); [destruct (text r) | destruct (json r)];
        reflexivity.
    + intros r v -> -> ->; cbn [negb fst snd].
      destruct (createSuccessResponse_ok (PinnedCollections.as_list v) None)
        as [body Hb].
      unfold PinnedCollections.as_list in Hb; rewrite Hb.
      unfold PinnedCollections.as_list; now rewrite Hb.
Qed.

End HandlerFacts.

(** ** The theorems above, on the sample requests *)

Section MoreCases.
Import Js Runtime Hmac Wire Text GraphUtils AdminAuth ApiResponses ApiWire.
Local Open Scope string_scope.

Lemma makeOptimizelyGraphRequest_headers_witness :
  exists rq,
    sent (makeOptimizelyGraphRequest Mock.config "/content/v2" Sample.traced)
      Mock.ok200 = [rq]
    /\ obj_get (req_headers rq) "Content-Type" = Some "application/json".
Proof.
  assert (Hnd : NoDup (List.map fst
                         (default [] (opt_headers Sample.traced))))
    by (repeat constructor; simpl; intuition discriminate).
  destruct (makeOptimizelyGraphRequest_headers Mock.ok200 Mock.config
              "/content/v2" Sample.traced _ "Content-Type" eq_refl Hnd)
    as (rq & H1 & H2).
  exists rq; split; [exact H1 | exact H2].
Defined.

Lemma makeOptimizelyGraphRequest_signed_path_witness :
  exists rq,
    sent (makeOptimizelyGraphRequest Mock.config "/content/v2" Sample.traced)
      Mock.ok200 = [rq]
    /\ req_url rq = "https://cg.example.com/content/v2?q=a+b"
    /\ obj_get (req_headers rq) "authorization"
       = Some (signed Mock.ok200 Mock.config "POST" "/content/v2?q=a+b" "{}").
Proof.
  destruct (makeOptimizelyGraphRequest_signed_path Mock.ok200 Mock.config
              "/content/v2" Sample.traced _ eq_refl)
    as (rq & H1 & H2 & _).
  exists rq; split; [exact H1|].
  apply H2; discriminate.
Defined.

Lemma uploadSynonyms_path_witness :
  sent (uploadSynonyms Mock.config "a, b"
          {| synonymSlot := Some Slot2; languageRouting := Some "en&x=1" |})
    Mock.ok200
  = [ {| req_url := "https://cg.example.com/resources/synonyms?synonym_slot=2&language_routing=en%26x%3D1";
         req_method := "PUT";
         req_headers :=
           [("Content-Type", "text/plain");
            ("authorization",
             signed Mock.ok200 Mock.config "PUT"
               "/resources/synonyms?synonym_slot=2&language_routing=en%26x%3D1"
               "a, b")];
         req_body := Some "a, b" |} ].
Proof.
  exact (proj1 (uploadSynonyms_path Mock.ok200 Mock.config "a, b"
                  {| synonymSlot := Some Slot2;
                     languageRouting := Some "en&x=1" |} _
                  eq_refl eq_refl)).
Defined.

Lemma makeHmacApiRequest_request_witness :
  exists rq,
    sent (makeHmacApiRequest "/api/pinned/items" Sample.delete_item)
      Mock.ok200 = [rq]
    /\ req_method rq = "DELETE"
    /\ req_body rq = Some ("{" ++ quote "id" ++ ":7}")
    /\ obj_get (req_headers rq) "Content-Type" = Some "application/json".
Proof.
  destruct (makeHmacApiRequest_request Mock.ok200 "/api/pinned/items"
              Sample.delete_item _ _ "Content-Type" eq_refl eq_refl
              (NoDup_nil _))
    as (rq & H1 & _ & H2 & H3 & H4).
  exists rq; split; [exact H1|]. split; [exact H2|].
  split; [exact H3 | exact H4].
Defined.

Lemma makeHmacApiRequest_unconfigured_witness :
  makeHmacApiRequest "/api/pinned/items" Sample.delete_item
    Sample.unconfigured
  = ([], Throw (JsError "Missing required environment variables: OPTIMIZELY_GRAPH_APP_KEY and OPTIMIZELY_GRAPH_SECRET")).
Proof.
  exact (makeHmacApiRequest_unconfigured Sample.unconfigured
           "/api/pinned/items" Sample.delete_item eq_refl).
Defined.

Lemma searchContent_request_witness :
  exists rq,
    sent (searchContent Mock.config "query Q" VNull) Mock.ok200 = [rq]
    /\ req_body rq
       = Some ("{" ++ quote "query" ++ ":" ++ quote "query Q" ++ ","
                 ++ quote "variables" ++ ":{}}").
Proof.
  destruct (searchContent_request Mock.ok200 Mock.config "query Q" VNull _
              eq_refl) as (vars & _ & Hv & Hs).
  rewrite (Hv eq_refl) in Hs; cbv zeta in Hs.
  eexists; split; [exact Hs | reflexivity].
Defined.

Lemma searchContent_null_item_witness :
  outcome (searchContent Mock.config "query Q" VUndefined) Sample.null_item
  = Ok {| items := [];
          error := Some "Cannot read properties of null (reading 'Url')" |}.
Proof.
  assert (Hex : Exists (fun item => nullish item = true)
                  [Mock.keyed_item; VNull])
    by (right; left; reflexivity).
  destruct (searchContent_null_item Sample.null_item Mock.config "query Q"
              VUndefined _ _ Sample.null_item_result
              [Mock.keyed_item; VNull]
              eq_refl eq_refl eq_refl eq_refl eq_refl eq_refl eq_refl Hex)
    as (item & Hin & Hnull & Hout).
  destruct Hin as [<-|[<-|[]]]; [discriminate | exact Hout].
Defined.

Lemma checkAdminAuth_accepts_witness :
  checkAdminAuth (Sample.dashboard "s3cret")
    (Sample.basic "admin:s3cret:extra") = None.
Proof.
  apply (checkAdminAuth_accepts (Sample.dashboard "s3cret")
           (Sample.basic "admin:s3cret:extra") "admin" "s3cret");
    [reflexivity | discriminate | reflexivity | discriminate |].
  exists ("Basic " ++ btoa "admin:s3cret:extra"), ":extra".
  repeat split; try reflexivity; right; reflexivity.
Defined.

Lemma checkAdminAuth_colon_lockout_witness :
  checkAdminAuth (Sample.dashboard "s3:cret") (Sample.basic "admin:s3:cret")
  = Some unauthorized.
Proof.
  apply (checkAdminAuth_colon_lockout (Sample.dashboard "s3:cret")
           (Sample.basic "admin:s3:cret") "admin" "s3:cret");
    [reflexivity | discriminate | reflexivity | discriminate | reflexivity].
Defined.

(** The guard on the sample dashboard: the right credentials pass, a
    wrong password, a missing header and text that is not base64 are
    answered 401, and an installation without credentials answers 404. *)
Example checkAdminAuth_samples :
  checkAdminAuth (Sample.dashboard "s3cret") (Sample.basic "admin:s3cret")
  = None
  /\ checkAdminAuth (Sample.dashboard "s3cret") (Sample.basic "admin:guess")
     = Some unauthorized
  /\ checkAdminAuth (Sample.dashboard "s3cret") (Sample.basic "admin")
     = Some unauthorized
  /\ checkAdminAuth (Sample.dashboard "s3cret")
       {| header_authorization := None |}
     = Some unauthorized
  /\ checkAdminAuth (Sample.dashboard "s3cret")
       {| header_authorization := Some "Basic %%%" |}
     = Some unauthorized
  /\ checkAdminAuth (Sample.dashboard "") (Sample.basic "admin:")
     = Some not_found.
Proof. repeat split; vm_compute; reflexivity. Qed.

Lemma pinned_collections_GET_witness :
  outcome PinnedCollections.GET Mock.ok200
  = Ok {| http_status := 200;
          http_body := "{" ++ quote "success" ++ ":true," ++ quote "data"
                         ++ ":[null]}";
          http_headers := json_headers |}.
Proof.
  destruct (pinned_collections_GET Mock.ok200 _ _ _ eq_refl eq_refl eq_refl)
    as (_ & H & _).
  exact (proj1 (H eq_refl) VNull eq_refl).
Defined.

(** The handlers on the sample servers: a failure of the Graph is passed
    on with its status, a 304 of the Graph cannot be passed on and
    becomes a 500, a body without id is refused before anything is
    sent, and without configuration the answer is 500. *)
Example pinned_samples :
  PinnedCollections.DELETE (Ok (VObject [("id", VString "c1")]))
    Mock.bad_gateway
  = ([ {| req_url := "https://cg.optimizely.com/api/pinned/collections/c1";
          req_method := "DELETE";
          req_headers :=
            [("Content-Type", "application/json");
             ("authorization",
              signed Mock.bad_gateway Mock.config "DELETE"
                "/api/pinned/collections/c1" "")];
          req_body := Some "" |} ],
      Ok {| http_status := 502;
            http_body :=
              error_body
                "Failed to delete collection: 502 Bad Gateway - upstream down";
            http_headers := json_headers |})
  /\ (exists response,
         outcome (PinnedItems.GET (Some "c1"))
           (Mock.server (Ok (Mock.respond 304 "Not Modified" "" (Ok VNull))))
         = Ok response
         /\ http_status response = 500%N)
  /\ PinnedCollections.DELETE (Ok (VObject [("name", VString "c1")]))
       Mock.ok200
     = ([], Ok {| http_status := 400;
                  http_body := error_body "Collection ID is required";
                  http_headers := json_headers |})
  /\ PinnedCollections.GET Sample.unconfigured
     = ([], Ok (failure (JsError "Missing required environment variables: OPTIMIZELY_GRAPH_APP_KEY and OPTIMIZELY_GRAPH_SECRET"))).
Proof.
  split; [vm_compute; reflexivity|].
  split; [eexists; split; [vm_compute; reflexivity | reflexivity]|].
  split; vm_compute; reflexivity.
Qed.

End MoreCases.
